(** * CVMaestro: parser, formatter, models and content analyzer

    A shallow embedding of [cvmaestro/services/parser.py] (class
    [ResumeParser]), [cvmaestro/services/formatter.py] (class
    [MarkdownFormatter]), [cvmaestro/models/resume.py] (class [Resume]),
    [cvmaestro/models/user_profile.py] (class [UserProfile]) and the
    rule-based part of [cvmaestro/services/content_analyzer.py] (class
    [ContentAnalyzer]), followed by their properties.

    Modelling conventions.
    - A Python [str] is a list of code points ([N]); [len] is [length].
    - [str.isspace], hence [str.strip], [str.split()] and the regex class
      [\s], use the complete white-space table of CPython.
    - Case mapping ([str.lower], [str.isupper], [str.title],
      [re.IGNORECASE]) is modelled on the ASCII letters, and the regex
      class [\d] on the ASCII digits; code points from 128 on are treated
      as caseless and as no digits.  Statements that send quantified text
      through a case mapping or through [\d] are stated for ASCII text.
    - A [dict] is an association list in insertion order with distinct keys.
    - Python exceptions are values of [exn], carried by [result].
    - The file system is a function from paths to what [stat] and
      [read_text] answer; [Path.exists] is that of pathlib in CPython
      through 3.13, which raises the errors of [stat] again, those for a
      missing file apart.
    - A Python [float] is a binary64 number ([PrimFloat.float]), with the
      operations of IEEE 754 in the default rounding mode.
    - An object with mutable fields is a record; a method that changes the
      object returns the new record. *)

From Stdlib Require Import List NArith ZArith Bool String Ascii Lia Arith.
From Stdlib Require Import Floats.
Import ListNotations.

(* ================================================================== *)
(** ** Python strings *)
(* ================================================================== *)

Module Py.

Definition char := N.
Definition str := list char.

Definition NL : char := 10%N.

(** Source literals: [py "a\nb"] reads the two characters backslash-n as a
    line feed, as a Python literal does; every other character is its
    ASCII code. *)
Fixpoint unescape (l : list ascii) : str :=
  match l with
  | [] => []
  | a :: l' =>
      match l' with
      | b :: l'' =>
          if ((N_of_ascii a =? 92) && (N_of_ascii b =? 110))%N
          then NL :: unescape l''
          else N_of_ascii a :: unescape l'
      | [] => [N_of_ascii a]
      end
  end.

Definition py (s : string) : str := unescape (list_ascii_of_string s).

Fixpoint str_eqb (a b : str) : bool :=
  match a, b with
  | [], [] => true
  | x :: a', y :: b' => (x =? y)%N && str_eqb a' b'
  | _, _ => false
  end.

(** [bool(s)] of a string and of a list: non-empty. *)
Definition nonempty {A : Type} (l : list A) : bool :=
  match l with [] => false | _ :: _ => true end.

(** [str.isspace] on one code point (CPython's [_PyUnicode_IsWhitespace]). *)
Definition isspace (c : char) : bool :=
  (((9 <=? c) && (c <=? 13)) || ((28 <=? c) && (c <=? 32))
   || (c =? 133) || (c =? 160) || (c =? 5760)
   || ((8192 <=? c) && (c <=? 8202))
   || (c =? 8232) || (c =? 8233) || (c =? 8239) || (c =? 8287)
   || (c =? 12288))%N.

Fixpoint lstrip (s : str) : str :=
  match s with
  | [] => []
  | c :: s' => if isspace c then lstrip s' else s
  end.

Definition rstrip (s : str) : str := rev (lstrip (rev s)).

Definition strip (s : str) : str := rstrip (lstrip s).

(** [s.split(sep)] for a one-character separator. *)
Fixpoint split (sep : char) (s : str) : list str :=
  match s with
  | [] => [[]]
  | c :: s' =>
      if (c =? sep)%N then [] :: split sep s'
      else match split sep s' with
           | l :: ls => (c :: l) :: ls
           | [] => [[c]]
           end
  end.

(** [sep.join(parts)]. *)
Fixpoint join (sep : str) (parts : list str) : str :=
  match parts with
  | [] => []
  | [p] => p
  | p :: ps => p ++ sep ++ join sep ps
  end.

(** [c in s] for a one-character [c]. *)
Definition contains (c : char) (s : str) : bool := existsb (N.eqb c) s.

Fixpoint startswith (p s : str) : bool :=
  match p, s with
  | [], _ => true
  | x :: p', y :: s' => (x =? y)%N && startswith p' s'
  | _ :: _, [] => false
  end.

Definition endswith (p s : str) : bool := startswith (rev p) (rev s).

(** [s.replace(a, b)] for one-character [a] and [b]. *)
Definition replace (a b : char) (s : str) : str :=
  map (fun c => if (c =? a)%N then b else c) s.

Definition is_upper_ascii (c : char) : bool := ((65 <=? c) && (c <=? 90))%N.
Definition is_lower_ascii (c : char) : bool := ((97 <=? c) && (c <=? 122))%N.
Definition is_cased (c : char) : bool := is_upper_ascii c || is_lower_ascii c.

Definition lower_char (c : char) : char :=
  if is_upper_ascii c then (c + 32)%N else c.
Definition upper_char (c : char) : char :=
  if is_lower_ascii c then (c - 32)%N else c.

Definition lower (s : str) : str := map lower_char s.

(** [s.isupper()]: no lower-case character and at least one cased one. *)
Definition isupper (s : str) : bool :=
  forallb (fun c => negb (is_lower_ascii c)) s && existsb is_upper_ascii s.

(** [s.title()]: a cased character is upper-cased when the character before
    it is not cased, lower-cased otherwise. *)
Fixpoint title_from (previous_is_cased : bool) (s : str) : str :=
  match s with
  | [] => []
  | c :: s' =>
      (if previous_is_cased then lower_char c else upper_char c)
        :: title_from (is_cased c) s'
  end.

Definition title (s : str) : str := title_from false s.

Definition is_ascii (s : str) : Prop := Forall (fun c => (c < 128)%N) s.

(** Exceptions and results. *)
Inductive exn : Type :=
| FileNotFoundError
| OSError            (* an [OSError] that is no [FileNotFoundError] *)
| ValueError
| KeyError.

Inductive result (A : Type) : Type :=
| Return (a : A)
| Raise (e : exn).
Arguments Return {A} a.
Arguments Raise {A} e.

(** [dict[str, str]]: insertion-ordered, keys distinct. *)
Definition dict := list (str * str).

Definition keys (d : dict) : list str := map fst d.

Definition mem (k : str) (l : list str) : bool := existsb (str_eqb k) l.

(** [k in d]. *)
Definition dict_mem (k : str) (d : dict) : bool := mem k (keys d).

(** [d[k]]. *)
Fixpoint dict_getitem (k : str) (d : dict) : result str :=
  match d with
  | [] => Raise KeyError
  | (k', v) :: d' => if str_eqb k' k then Return v else dict_getitem k d'
  end.

(** [d.get(k, default)]. *)
Fixpoint dict_get (k : str) (d : dict) (default : str) : str :=
  match d with
  | [] => default
  | (k', v) :: d' => if str_eqb k' k then v else dict_get k d' default
  end.

(** [d[k] = v]: an existing key keeps its place. *)
Fixpoint dict_set (k v : str) (d : dict) : dict :=
  match d with
  | [] => [(k, v)]
  | (k', v') :: d' =>
      if str_eqb k' k then (k', v) :: d' else (k', v') :: dict_set k v d'
  end.

Definition wf_dict (d : dict) : Prop := NoDup (keys d).

(** [s.split()] without a separator: the maximal runs of characters that
    are not white space.  [word] is the run being read. *)
Fixpoint split_whitespace_from (word : str) (s : str) : list str :=
  match s with
  | [] => if nonempty word then [word] else []
  | c :: s' =>
      if isspace c
      then (if nonempty word then word :: split_whitespace_from [] s'
            else split_whitespace_from [] s')
      else split_whitespace_from (word ++ [c]) s'
  end.

Definition split_whitespace (s : str) : list str :=
  split_whitespace_from [] s.

(** [needle in hay] for strings. *)
Fixpoint contains_str (needle hay : str) : bool :=
  startswith needle hay
  || match hay with
     | [] => false
     | _ :: hay' => contains_str needle hay'
     end.

(** The ASCII digits; the regex class [\d] on ASCII text. *)
Definition is_digit_ascii (c : char) : bool := ((48 <=? c) && (c <=? 57))%N.

End Py.
Import Py.

(* ================================================================== *)
(** ** Regular expressions: the fragment of [re] the parser uses *)
(* ================================================================== *)

Module Re.

(** One-character items, matched under [re.IGNORECASE]. *)
Inductive cclass : Type :=
| CLit (c : char)     (* a literal character *)
| CSpace              (* \s *)
| CDot.               (* .  : anything but a line feed *)

Definition cmatch (cl : cclass) (x : char) : bool :=
  match cl with
  | CLit c => (lower_char x =? lower_char c)%N
  | CSpace => isspace x
  | CDot => negb (x =? NL)%N
  end.

Inductive regex : Type :=
| RLit (l : str)            (* a run of literal characters *)
| RPlus (cl : cclass)       (* cl+ , greedy *)
| RStar (cl : cclass)       (* cl* , greedy *)
| ROpt (cl : cclass)        (* cl? , greedy *)
| RSeq (r1 r2 : regex)
| RAlt (r1 r2 : regex)      (* r1|r2 , left first *)
| RGroup (r : regex).       (* ( r ) , capture group 1 *)

(** Greedy iteration with backtracking: the longest run first, then one
    character less, until the continuation accepts. *)
Fixpoint star {A : Type} (cl : cclass) (s : str) (k : str -> option A)
  : option A :=
  match s with
  | x :: s' =>
      if cmatch cl x
      then match star cl s' k with
           | Some a => Some a
           | None => k s
           end
      else k s
  | [] => k []
  end.

Fixpoint lit_match (l s : str) : option str :=
  match l, s with
  | [], _ => Some s
  | c :: l', x :: s' => if cmatch (CLit c) x then lit_match l' s' else None
  | _ :: _, [] => None
  end.

(** Backtracking matcher in continuation-passing style.  [g] is the text
    captured by group 1 so far ([None]: the group has not taken part). *)
Fixpoint rmatch {A : Type} (r : regex) (s : str) (g : option str)
  (k : str -> option str -> option A) : option A :=
  match r with
  | RLit l =>
      match lit_match l s with
      | Some s' => k s' g
      | None => None
      end
  | RPlus cl =>
      match s with
      | x :: s' => if cmatch cl x then star cl s' (fun s'' => k s'' g) else None
      | [] => None
      end
  | RStar cl => star cl s (fun s'' => k s'' g)
  | ROpt cl =>
      match s with
      | x :: s' =>
          if cmatch cl x
          then match k s' g with
               | Some a => Some a
               | None => k s g
               end
          else k s g
      | [] => k s g
      end
  | RSeq r1 r2 => rmatch r1 s g (fun s' g' => rmatch r2 s' g' k)
  | RAlt r1 r2 =>
      match rmatch r1 s g k with
      | Some a => Some a
      | None => rmatch r2 s g k
      end
  | RGroup r1 =>
      rmatch r1 s g
        (fun s' _ =>
           k s' (Some (firstn (List.length s - List.length s') s)))
  end.

(** [re.match(pattern, s, re.IGNORECASE)]: a match anchored at the start of
    [s] (the leading [^] of the patterns adds nothing to that).  The result
    is [match.group(1)]. *)
Definition re_match (pattern : regex) (s : str) : option (option str) :=
  rmatch pattern s None (fun _ g => Some g).

(** [re.sub(r"^#+\s*", "", s)]. *)
Definition sub_hashes (s : str) : str :=
  match rmatch (RSeq (RPlus (CLit 35%N)) (RStar CSpace)) s None
          (fun s' _ => Some s') with
  | Some s' => s'
  | None => s
  end.

End Re.
Import Re.

(* ================================================================== *)
(** ** parser.py: class ResumeParser *)
(* ================================================================== *)

Module ResumeParser.

Definition HASH : cclass := CLit 35%N.

(** [^#+\s*( body )]. *)
Definition header_re (body : regex) : regex :=
  RSeq (RPlus HASH) (RSeq (RStar CSpace) (RGroup body)).

Definition word (s : string) : regex := RLit (py s).

(** [a\s+b]. *)
Definition words (a b : string) : regex :=
  RSeq (word a) (RSeq (RPlus CSpace) (word b)).

(** [as?]: an optional final s. *)
Definition plural (a : string) : regex :=
  RSeq (word a) (ROpt (CLit 115%N)).

Fixpoint alt (rs : list regex) (last : regex) : regex :=
  match rs with
  | [] => last
  | r :: rs' => RAlt r (alt rs' last)
  end.

(** Common resume section patterns.  Each entry is the pattern of the
    source on the line above it, under [re.IGNORECASE]. *)
Definition SECTION_PATTERNS : list regex :=
  [ (* Standard sections *)
    (* ^#+\s*(summary|profile|objective) *)
    header_re (alt [word "summary"; word "profile"] (word "objective"));
    (* ^#+\s*(experience|work\s+experience|employment) *)
    header_re (alt [word "experience"; words "work" "experience"]
                 (word "employment"));
    (* ^#+\s*(education|academic\s+background) *)
    header_re (alt [word "education"] (words "academic" "background"));
    (* ^#+\s*(skills|technical\s+skills|core\s+competencies) *)
    header_re (alt [word "skills"; words "technical" "skills"]
                 (words "core" "competencies"));
    (* ^#+\s*(projects|notable\s+projects) *)
    header_re (alt [word "projects"] (words "notable" "projects"));
    (* ^#+\s*(certifications?|licenses?) *)
    header_re (alt [plural "certification"] (plural "license"));
    (* ^#+\s*(awards?|achievements?|honors?) *)
    header_re (alt [plural "award"; plural "achievement"] (plural "honor"));
    (* ^#+\s*(contact|contact\s+information) *)
    header_re (alt [word "contact"] (words "contact" "information"));
    (* ^#+\s*(languages?) *)
    header_re (plural "language");
    (* ^#+\s*(publications?) *)
    header_re (plural "publication");
    (* ^#+\s*(references?) *)
    header_re (plural "reference");
    (* Generic header pattern: ^#+\s*(.+) *)
    header_re (RPlus CDot) ].

Definition mappings : dict :=
  [ (py "summary", py "summary");
    (py "profile", py "summary");
    (py "objective", py "summary");
    (py "professional summary", py "summary");
    (py "experience", py "experience");
    (py "work experience", py "experience");
    (py "employment", py "experience");
    (py "professional experience", py "experience");
    (py "education", py "education");
    (py "academic background", py "education");
    (py "skills", py "skills");
    (py "technical skills", py "skills");
    (py "core competencies", py "skills");
    (py "projects", py "projects");
    (py "notable projects", py "projects");
    (py "certifications", py "certifications");
    (py "certification", py "certifications");
    (py "licenses", py "certifications");
    (py "license", py "certifications");
    (py "awards", py "awards");
    (py "award", py "awards");
    (py "achievements", py "awards");
    (py "achievement", py "awards");
    (py "honors", py "awards");
    (py "honor", py "awards");
    (py "contact", py "contact");
    (py "contact information", py "contact");
    (py "languages", py "languages");
    (py "language", py "languages");
    (py "publications", py "publications");
    (py "publication", py "publications");
    (py "references", py "references");
    (py "reference", py "references") ].

Definition _normalize_section_name (name : str) : str :=
  let name := strip (lower name) in
  (* Return mapped name or original if no mapping *)
  dict_get name mappings name.

(** The loop over [SECTION_PATTERNS]: the first pattern that matches
    decides. *)
Fixpoint first_match (patterns : list regex) (line : str) : option str :=
  match patterns with
  | [] => None
  | pattern :: rest =>
      match re_match pattern line with
      | Some groups =>
          let section_name :=
            match groups with
            | Some group1 => strip group1
            | None => strip (sub_hashes line)
            end in
          Some (_normalize_section_name section_name)
      | None => first_match rest line
      end
  end.

Definition _extract_section_name (line : str) : option str :=
  let line := strip line in
  first_match SECTION_PATTERNS line.

(** The local variables of [_parse_markdown_content]. *)
Record locals : Type := mkLocals {
  sections : dict;
  current_section : option str;
  current_content : list str;
  header_found : bool
}.

(** [if current_section and current_content: sections[current_section] =
    "\n".join(current_content).strip()]. *)
Definition save (st : locals) : dict :=
  match current_section st with
  | Some name =>
      if nonempty name && nonempty (current_content st)
      then dict_set name (strip (join [NL] (current_content st))) (sections st)
      else sections st
  | None => sections st
  end.

(** [if section_name:] on a [str | None]. *)
Definition truthy (o : option str) : bool :=
  match o with
  | Some n => nonempty n
  | None => false
  end.

(** One iteration of [for line in lines]. *)
Definition step (st : locals) (line : str) : locals :=
  let section_name := _extract_section_name line in
  if truthy section_name then
    (* Save previous section if it exists, start new section *)
    mkLocals (save st) section_name [] true
  else if header_found st then
    mkLocals (sections st) (current_section st)
      (current_content st ++ [line]) (header_found st)
  else
    match current_section st with
    | None =>
        mkLocals (sections st) (Some (py "header")) ([] ++ [line])
          (header_found st)
    | Some _ =>
        mkLocals (sections st) (current_section st)
          (current_content st ++ [line]) (header_found st)
    end.

Definition initial : locals := mkLocals [] None [] false.

Definition run (lines : list str) : locals := fold_left step lines initial.

(** [{k: v for k, v in sections.items() if v.strip()}]. *)
Definition clean (d : dict) : dict :=
  filter (fun kv => nonempty (strip (snd kv))) d.

Definition parse_lines (lines : list str) : dict := clean (save (run lines)).

Definition _parse_markdown_content (content : str) : dict :=
  parse_lines (split NL content).

(** The file system as [parse_markdown_file] sees it, through
    [Path.exists()] and [Path.read_text(encoding="utf-8")]. *)
Inductive node : Type :=
| Missing                 (* nothing at the path: [stat] fails with ENOENT
                             or ENOTDIR *)
| NameTooLong             (* nothing at the path, whose name is over the
                             limit of the file system: [stat] fails with
                             ENAMETOOLONG *)
| Denied                  (* a directory on the way may not be searched:
                             [stat] fails with EACCES *)
| Unreadable (e : exn)    (* [read_text] raises [e]: [ValueError] for
                             bytes that are no UTF-8 (a
                             [UnicodeDecodeError]), [OSError] for a
                             directory or a file that may not be read *)
| Text (content : str).   (* [read_text] returns the decoded content *)

Definition filesystem := str -> node.

(** [Path.exists()] of pathlib (CPython through 3.13): it calls [stat] and
    answers [False] for ENOENT, ENOTDIR, EBADF and ELOOP only; every other
    [OSError] of [stat] is raised again. *)
Definition Path_exists (path : node) : result bool :=
  match path with
  | Missing => Return false
  | NameTooLong | Denied => Raise OSError
  | Unreadable _ | Text _ => Return true
  end.

(** [Path.read_text(encoding="utf-8")]. *)
Definition Path_read_text (path : node) : result str :=
  match path with
  | Text content => Return content
  | Unreadable e => Raise e
  | Missing => Raise FileNotFoundError
  | NameTooLong | Denied => Raise OSError
  end.

(** [parse_markdown_file]: [path.exists()] is called before the [try];
    [except Exception] turns every error of [read_text] into a
    [ValueError]. *)
Definition parse_markdown_file (fs : filesystem) (file_path : str)
  : result dict :=
  let path := fs file_path in
  match Path_exists path with
  | Raise e => Raise e
  | Return false => Raise FileNotFoundError
  | Return true =>
      match Path_read_text path with
      | Raise _ => Raise ValueError
      | Return content =>
          if negb (nonempty (strip content)) then Raise ValueError
          else Return (_parse_markdown_content content)
      end
  end.

(** [validate_parsed_resume]: the list of validation issues. *)
Definition validate_parsed_resume (sections : dict) : list str :=
  let issues : list str := [] in
  (* Check for essential sections *)
  let essential_sections := [py "experience"; py "education"] in
  let issues :=
    fold_left
      (fun issues section =>
         if negb (dict_mem section sections)
         then issues ++ [py "Missing essential section: " ++ section]
         else issues)
      essential_sections issues in
  (* Check for empty sections *)
  let empty_sections :=
    map fst (filter (fun item => negb (nonempty (strip (snd item)))) sections) in
  let issues :=
    if nonempty empty_sections
    then issues
           ++ [py "Empty sections found: " ++ join (py ", ") empty_sections]
    else issues in
  (* Check for very short sections *)
  let short_sections :=
    map fst
      (filter
         (fun item =>
            (List.length (split_whitespace (snd item)) <? 3)
            && mem (fst item) [py "experience"; py "summary"])
         sections) in
  let issues :=
    if nonempty short_sections
    then issues
           ++ [py "Sections may need more detail: "
                 ++ join (py ", ") short_sections]
    else issues in
  issues.

End ResumeParser.
Import ResumeParser.

(* ================================================================== *)
(** ** formatter.py: class MarkdownFormatter *)
(* ================================================================== *)

Module MarkdownFormatter.

(** Default section order for professional resumes. *)
Definition DEFAULT_SECTION_ORDER : list str :=
  [ py "header"; py "contact"; py "summary"; py "experience";
    py "education"; py "skills"; py "projects"; py "certifications";
    py "awards"; py "languages"; py "publications"; py "references" ].

(** [for section in sections: if section not in ordered:
    ordered.append(section)]. *)
Fixpoint add_remaining (ks : list str) (ordered : list str) : list str :=
  match ks with
  | [] => ordered
  | section :: ks' =>
      add_remaining ks'
        (if negb (mem section ordered) then ordered ++ [section]
         else ordered)
  end.

Definition _get_section_order (sections : dict) (template : str) : list str :=
  let ordered :=
    filter (fun section => dict_mem section sections) DEFAULT_SECTION_ORDER in
  add_remaining (keys sections) ordered.

Definition _format_header_section (content : str) : str :=
  let lines := split NL (strip content) in
  (* First non-empty line becomes the main header *)
  match find (fun line => nonempty (strip line)) lines with
  | Some line => py "# " ++ strip line
  | None => py "# Resume"
  end.

Definition _format_contact_section (content : str) : str :=
  let cleaned_content := strip content in
  if negb (nonempty cleaned_content) then []
  else py "## Contact\n\n" ++ cleaned_content.

Definition _format_summary_section (content : str) : str :=
  let cleaned_content := strip content in
  if negb (nonempty cleaned_content) then []
  else py "## Professional Summary\n\n" ++ cleaned_content.

(** The body of [for line in lines] in [_format_experience_section]: the
    line that is appended to [formatted_lines]. *)
Definition experience_line (line : str) : str :=
  let line := strip line in
  if negb (nonempty line) then []
  else if negb (existsb (fun p => startswith p line)
                  [py "-"; py "*"; py "#"; py "**"])
          && negb (endswith (py ":") line)
  then
    (* Check if it looks like a responsibility/achievement *)
    if nonempty line && negb (isupper line) then py "- " ++ line else line
  else line.

Definition _format_experience_section (content : str) : str :=
  let cleaned_content := strip content in
  if negb (nonempty cleaned_content) then []
  else
    let lines := split NL cleaned_content in
    let formatted_lines := map experience_line lines in
    let formatted_content := join [NL] formatted_lines in
    py "## Experience\n\n" ++ formatted_content.

(** The separator [" • "]: space, U+2022, space. *)
Definition BULLET_SEP : str := [32%N; 8226%N; 32%N].

Definition bullet_line (current_line : list str) : str :=
  py "- " ++ join BULLET_SEP current_line.

(** The local variables of the packing loop. *)
Record packing : Type := mkPacking {
  formatted_skills : list str;
  current_line : list str;
  current_length : nat
}.

Definition pack_step (st : packing) (skill : str) : packing :=
  if (60 <? current_length st + List.length skill)
     && nonempty (current_line st)
  then mkPacking (formatted_skills st ++ [bullet_line (current_line st)])
         [skill] (List.length skill)
  else mkPacking (formatted_skills st) (current_line st ++ [skill])
         (current_length st + (List.length skill + 3)).

Definition pack_skills (skills : list str) : list str :=
  let st := fold_left pack_step skills (mkPacking [] [] 0) in
  if nonempty (current_line st)
  then formatted_skills st ++ [bullet_line (current_line st)]
  else formatted_skills st.

Definition _format_skills_section (content : str) : str :=
  let cleaned_content := strip content in
  if negb (nonempty cleaned_content) then []
  else
    let formatted_content :=
      (* Try to organize skills if they're just comma-separated *)
      if contains 44%N cleaned_content && negb (contains NL cleaned_content)
      then
        let skills := map strip (split 44%N cleaned_content) in
        let skills := filter nonempty skills in
        join [NL] (pack_skills skills)
      else cleaned_content in
    py "## Skills\n\n" ++ formatted_content.

Definition _format_generic_section (section_name content : str) : str :=
  let cleaned_content := strip content in
  if negb (nonempty cleaned_content) then []
  else
    (* Capitalize section name for display *)
    let display_name := title (replace 95%N 32%N section_name) in
    py "## " ++ display_name ++ py "\n\n" ++ cleaned_content.

Definition _format_section (section_name content template : str) : str :=
  if negb (nonempty (strip content)) then []
  else if str_eqb section_name (py "header")
  then _format_header_section content
  else if str_eqb section_name (py "contact")
  then _format_contact_section content
  else if str_eqb section_name (py "summary")
  then _format_summary_section content
  else if str_eqb section_name (py "experience")
  then _format_experience_section content
  else if str_eqb section_name (py "skills")
  then _format_skills_section content
  else _format_generic_section section_name content.

(** [for section_name in ordered_sections] of [format_resume];
    [sections[section_name]] raises [KeyError] on a missing key. *)
Fixpoint format_parts (sections : dict) (template : str)
  (ordered_sections : list str) (formatted_parts : list str)
  : result (list str) :=
  match ordered_sections with
  | [] => Return formatted_parts
  | section_name :: rest =>
      if dict_mem section_name sections then
        match dict_getitem section_name sections with
        | Raise e => Raise e
        | Return content =>
            let formatted_section :=
              _format_section section_name content template in
            format_parts sections template rest
              (if nonempty formatted_section
               then formatted_parts ++ [formatted_section]
               else formatted_parts)
        end
      else format_parts sections template rest formatted_parts
  end.

Definition format_resume (sections : dict) (template : str) : result str :=
  if negb (nonempty sections)
  then Return (py "# Resume\n\n*No content available*")
  else
    let ordered_sections := _get_section_order sections template in
    match format_parts sections template ordered_sections [] with
    | Raise e => Raise e
    | Return formatted_parts => Return (join (py "\n\n") formatted_parts)
    end.

(** [preview_section]: the preview of a single section. *)
Definition preview_section (section_name content template : str) : str :=
  _format_section section_name content template.

End MarkdownFormatter.
Import MarkdownFormatter.

(* ================================================================== *)
(** ** models/resume.py: class Resume *)
(* ================================================================== *)

Module ResumeModel.

(** The fields of the model; the methods below take the object and return
    the updated one where the source assigns to a field or stores into one
    of its dictionaries. *)
Record Resume : Type := mkResume {
  raw_content : dict;
  revised_content : dict;
  template : str
}.

(** [Resume()]: the field defaults. *)
Definition Resume_default : Resume := mkResume [] [] (py "default").

Definition parse_resume (fs : filesystem) (self : Resume) (file_path : str)
  : result Resume :=
  match parse_markdown_file fs file_path with
  | Raise e => Raise e
  | Return parsed =>
      Return (mkResume parsed (revised_content self) (template self))
  end.

Definition get_section (self : Resume) (section_name : str) : str :=
  dict_get section_name (raw_content self) [].

Definition update_section (self : Resume) (section_name content : str)
  (revised : bool) : Resume :=
  if revised
  then mkResume (raw_content self)
         (dict_set section_name content (revised_content self))
         (template self)
  else mkResume (dict_set section_name content (raw_content self))
         (revised_content self) (template self).

Definition get_all_sections (self : Resume) : list str :=
  keys (raw_content self).

Definition has_revised_content (self : Resume) (section_name : str) : bool :=
  dict_mem section_name (revised_content self).

(** [for section in self.raw_content.keys()] of [export_markdown]: use
    revised content where available, fall back to raw content. *)
Fixpoint final_content_loop (self : Resume) (remaining : list str)
  (final_content : dict) : result dict :=
  match remaining with
  | [] => Return final_content
  | section :: rest =>
      match
        (if dict_mem section (revised_content self)
         then dict_getitem section (revised_content self)
         else dict_getitem section (raw_content self))
      with
      | Raise e => Raise e
      | Return content =>
          final_content_loop self rest (dict_set section content final_content)
      end
  end.

Definition export_markdown (self : Resume) : result str :=
  match final_content_loop self (keys (raw_content self)) [] with
  | Raise e => Raise e
  | Return final_content => format_resume final_content (template self)
  end.

Definition is_empty (self : Resume) : bool :=
  (List.length (raw_content self) =? 0)%nat.

End ResumeModel.
Import ResumeModel.

(* ================================================================== *)
(** ** models/user_profile.py: class UserProfile *)
(* ================================================================== *)

Module UserProfileModel.

Record UserProfile : Type := mkUserProfile {
  years_of_experience : Z;
  target_position : str;
  target_level : option str;
  industry : option str
}.

(** [allowed_levels] of the [target_level] validator. *)
Definition allowed_levels : list str :=
  [ py "junior"; py "mid"; py "senior"; py "executive" ].

(** The [field_validator] of [target_level]; its [ValueError] reaches the
    caller as pydantic's [ValidationError], a [ValueError]. *)
Definition validate_target_level (v : option str) : result (option str) :=
  match v with
  | None => Return None
  | Some v =>
      if negb (mem (lower v) allowed_levels) then Raise ValueError
      else Return (Some (lower v))
  end.

(** [UserProfile(...)]: the constraints of the [Field] declarations
    ([ge=0, le=50], [min_length=1, max_length=100]), then the validator. *)
Definition UserProfile_init (years_of_experience : Z) (target_position : str)
  (target_level industry : option str) : result UserProfile :=
  if negb ((0 <=? years_of_experience)%Z && (years_of_experience <=? 50)%Z)
  then Raise ValueError
  else if negb ((1 <=? List.length target_position)
                && (List.length target_position <=? 100))
  then Raise ValueError
  else
    match validate_target_level target_level with
    | Raise e => Raise e
    | Return level =>
        Return (mkUserProfile years_of_experience target_position level
                  industry)
    end.

(** [self.target_level == "..."] on a [str | None]. *)
Definition level_is (level : option str) (name : string) : bool :=
  match level with
  | Some l => str_eqb l (py name)
  | None => false
  end.

Definition validate_profile (self : UserProfile) : bool :=
  (* Basic validation - has required fields *)
  if negb (nonempty (target_position self))
     || (years_of_experience self <? 0)%Z
  then false
  (* Consistency checks *)
  else if level_is (target_level self) "junior"
          && (3 <? years_of_experience self)%Z
  then false
  else if level_is (target_level self) "executive"
          && (years_of_experience self <? 8)%Z
  then false
  else true.

Definition get_experience_tier (self : UserProfile) : str :=
  if (years_of_experience self <=? 2)%Z then py "entry"
  else if (years_of_experience self <=? 7)%Z then py "mid"
  else if (years_of_experience self <=? 15)%Z then py "senior"
  else py "executive".

Definition suggest_target_level (self : UserProfile) : str :=
  let tier := get_experience_tier self in
  if str_eqb tier (py "entry") then py "junior"
  else if str_eqb tier (py "mid") then py "mid"
  else if str_eqb tier (py "senior") then py "senior"
  else py "executive".

Definition is_career_change (self : UserProfile) : bool := false.

End UserProfileModel.
Import UserProfileModel.

(* ================================================================== *)
(** ** Regular expressions: the fragment of [re] the content analyzer uses *)
(* ================================================================== *)

Module Rx.

(** Expressions over character classes; a class is a predicate on
    characters, and a pattern under [re.IGNORECASE] has the flag in its
    classes. *)
Inductive rx : Type :=
| XChar (p : char -> bool)    (* one character of the class *)
| XPlus (p : char -> bool)    (* class+ , greedy *)
| XOpt (p : char -> bool)     (* class? , greedy *)
| XBol                        (* ^ : the start of the text *)
| XSeq (r1 r2 : rx)
| XAlt (r1 r2 : rx).          (* r1|r2 , left first *)

(** Greedy iteration with backtracking. *)
Fixpoint xstar {A : Type} (p : char -> bool) (s : str) (k : str -> option A)
  : option A :=
  match s with
  | x :: s' =>
      if p x
      then match xstar p s' k with
           | Some a => Some a
           | None => k s
           end
      else k s
  | [] => k []
  end.

(** Backtracking matcher in continuation-passing style; [at_start] tells
    whether the position is the start of the text. *)
Fixpoint xmatch {A : Type} (r : rx) (at_start : bool) (s : str)
  (k : bool -> str -> option A) : option A :=
  match r with
  | XChar p =>
      match s with
      | x :: s' => if p x then k false s' else None
      | [] => None
      end
  | XPlus p =>
      match s with
      | x :: s' => if p x then xstar p s' (k false) else None
      | [] => None
      end
  | XOpt p =>
      match s with
      | x :: s' =>
          if p x
          then match k false s' with
               | Some a => Some a
               | None => k at_start s
               end
          else k at_start s
      | [] => k at_start s
      end
  | XBol => if at_start then k at_start s else None
  | XSeq r1 r2 => xmatch r1 at_start s (fun b s' => xmatch r2 b s' k)
  | XAlt r1 r2 =>
      match xmatch r1 at_start s k with
      | Some a => Some a
      | None => xmatch r2 at_start s k
      end
  end.

(** The match of [r] at the current position: what is left of the text
    after it. *)
Definition match_here (r : rx) (at_start : bool) (s : str) : option str :=
  xmatch r at_start s (fun _ rest => Some rest).

(** [re.search(r, s) is not None]: a match at some position. *)
Fixpoint search_from (r : rx) (at_start : bool) (s : str) : bool :=
  match match_here r at_start s with
  | Some _ => true
  | None =>
      match s with
      | [] => false
      | _ :: s' => search_from r false s'
      end
  end.

Definition search (r : rx) (s : str) : bool := search_from r true s.

(** [len(re.findall(r, s))] for a pattern that matches no empty text: the
    matches are taken from left to right and do not overlap; [skip] counts
    the characters of the last match that are still to be passed. *)
Fixpoint findall_from (r : rx) (at_start : bool) (skip : nat) (s : str)
  : nat :=
  match s with
  | [] => 0
  | _ :: s' =>
      match skip with
      | S n => findall_from r false n s'
      | O =>
          match match_here r at_start s with
          | Some rest =>
              1 + findall_from r false
                    (List.length s - List.length rest - 1) s'
          | None => findall_from r false 0 s'
          end
      end
  end.

Definition findall_count (r : rx) (s : str) : nat := findall_from r true 0 s.

(** [re.sub(r, repl, s)] for a pattern that matches no empty text; [repl]
    maps the matched text to its replacement. *)
Fixpoint sub_from (r : rx) (repl : str -> str) (at_start : bool) (skip : nat)
  (s : str) : str :=
  match s with
  | [] => []
  | c :: s' =>
      match skip with
      | S n => sub_from r repl false n s'
      | O =>
          match match_here r at_start s with
          | Some rest =>
              repl (firstn (List.length s - List.length rest) s)
                ++ sub_from r repl false
                     (List.length s - List.length rest - 1) s'
          | None => c :: sub_from r repl false 0 s'
          end
      end
  end.

Definition sub (r : rx) (repl : str -> str) (s : str) : str :=
  sub_from r repl true 0 s.

End Rx.
Import Rx.

(* ================================================================== *)
(** ** services/content_analyzer.py: class ContentAnalyzer *)
(* ================================================================== *)

Module ContentAnalyzer.

(** A literal character; a letter under [re.IGNORECASE]. *)
Definition chr (c : char) : char -> bool := fun x => (x =? c)%N.
Definition chr_ci (c : char) : char -> bool :=
  fun x => (lower_char x =? c)%N.

(** [\d+%|\d+\+|\$\d+|\d+[kmb]|\d+ years?] under [re.IGNORECASE]. *)
Definition numbers_pattern : rx :=
  XAlt (XSeq (XPlus is_digit_ascii) (XChar (chr 37%N)))
    (XAlt (XSeq (XPlus is_digit_ascii) (XChar (chr 43%N)))
       (XAlt (XSeq (XChar (chr 36%N)) (XPlus is_digit_ascii))
          (XAlt (XSeq (XPlus is_digit_ascii)
                   (XChar (fun x => chr_ci 107%N x || chr_ci 109%N x
                                    || chr_ci 98%N x)))
             (XSeq (XPlus is_digit_ascii)
                (XSeq (XChar (chr 32%N))
                   (XSeq (XChar (chr_ci 121%N))
                      (XSeq (XChar (chr_ci 101%N))
                         (XSeq (XChar (chr_ci 97%N))
                            (XSeq (XChar (chr_ci 114%N))
                               (XOpt (chr_ci 115%N))))))))))).

(** [float(n)] of a count; exact below 2^53. *)
Fixpoint float_of_nat (n : nat) : float :=
  match n with
  | O => 0%float
  | S k => (float_of_nat k + 1)%float
  end.

(** [min(a, b)] of two floats: [b] when [b < a], else [a]. *)
Definition py_min (a b : float) : float :=
  if PrimFloat.ltb b a then b else a.

#[local] Set Warnings "-inexact-float".

Definition assess_quality (section_content section_type : str) : float :=
  if negb (nonempty (strip section_content)) then 0.0%float
  else
    (* Basic quality metrics *)
    let score := 0.0%float in
    (* Length check (not too short, not too long) *)
    let word_count := List.length (split_whitespace section_content) in
    let score :=
      if mem section_type [py "experience"; py "summary"]
      then (if (20 <=? word_count) && (word_count <=? 200)
            then (score + 0.3)%float else score)
      else (if (5 <=? word_count) && (word_count <=? 100)
            then (score + 0.3)%float else score) in
    (* Action verbs check (for experience sections) *)
    let score :=
      if str_eqb section_type (py "experience")
      then
        let action_verbs :=
          [ py "achieved"; py "managed"; py "led"; py "developed";
            py "implemented"; py "created"; py "improved"; py "increased";
            py "reduced"; py "optimized" ] in
        let found_verbs :=
          List.length
            (filter (fun verb => contains_str verb (lower section_content))
               action_verbs) in
        (score + py_min (float_of_nat found_verbs / 3) 0.3)%float
      else score in
    (* Quantifiable results check *)
    let quantifiable_count := findall_count numbers_pattern section_content in
    let score :=
      if 0 <? quantifiable_count then (score + 0.2)%float else score in
    (* Professional language check (basic) *)
    let unprofessional_words :=
      [ py "stuff"; py "things"; py "lots"; py "really"; py "very";
        py "awesome" ] in
    let unprofessional_count :=
      List.length
        (filter (fun word => contains_str word (lower section_content))
           unprofessional_words) in
    let score :=
      if unprofessional_count =? 0 then (score + 0.2)%float else score in
    py_min score 1.0%float.

Definition suggest_improvements (content section_type : str) : list str :=
  let suggestions : list str := [] in
  if negb (nonempty (strip content))
  then suggestions ++ [py "Add content to this section"]
  else
    (* Basic rule-based suggestions *)
    let word_count := List.length (split_whitespace content) in
    (* Length suggestions *)
    let suggestions :=
      if mem section_type [py "experience"; py "summary"]
         && (word_count <? 20)
      then suggestions
             ++ [py "Consider adding more detail and specific examples"]
      else if 200 <? word_count
      then suggestions ++ [py "Consider making the content more concise"]
      else suggestions in
    (* Action verbs suggestion (for experience) *)
    let suggestions :=
      if str_eqb section_type (py "experience")
      then
        let action_verbs :=
          [ py "achieved"; py "managed"; py "led"; py "developed";
            py "implemented" ] in
        if negb (existsb (fun verb => contains_str verb (lower content))
                   action_verbs)
        then suggestions
               ++ [py "Start bullet points with strong action verbs"]
        else suggestions
      else suggestions in
    (* Quantification suggestion *)
    let suggestions :=
      if negb (search numbers_pattern content)
      then suggestions
             ++ [py "Add specific numbers, percentages, or metrics where possible"]
      else suggestions in
    (* Professional language check *)
    let unprofessional_words :=
      [ py "stuff"; py "things"; py "lots"; py "really"; py "very";
        py "awesome" ] in
    let found_unprofessional :=
      filter (fun word => contains_str word (lower content))
        unprofessional_words in
    let suggestions :=
      if nonempty found_unprofessional
      then suggestions
             ++ [py "Replace informal words: "
                   ++ join (py ", ") found_unprofessional]
      else suggestions in
    suggestions.

(** [[.!?]]. *)
Definition sentence_end (c : char) : bool :=
  ((c =? 46) || (c =? 33) || (c =? 63))%N.

(** [(^|[.!?]\s+)([a-z])]. *)
Definition sentence_start : rx :=
  XSeq (XAlt XBol (XSeq (XChar sentence_end) (XPlus isspace)))
    (XChar is_lower_ascii).

(** [lambda m: m.group(1) + m.group(2).upper()]: group 2 is the last
    character of the match, group 1 all that is before it. *)
Definition upper_group2 (matched : str) : str :=
  match rev matched with
  | [] => []
  | group2 :: group1_reversed => rev group1_reversed ++ [upper_char group2]
  end.

Definition _rule_based_improvement (content section_type : str) : str :=
  (* Basic cleanup and formatting *)
  let improved := strip content in
  (* Remove multiple spaces *)
  let improved := sub (XPlus isspace) (fun _ => py " ") improved in
  (* Capitalize first letter of sentences *)
  let improved := sub sentence_start upper_group2 improved in
  improved.

End ContentAnalyzer.
Import ContentAnalyzer.

(* ================================================================== *)
(** ** interfaces/terminal.py: the status of a section in the analysis table *)
(* ================================================================== *)

Module TerminalInterface.

#[local] Set Warnings "-inexact-float".

(** [display_resume_analysis]: the status shown for a quality score. *)
Definition status (quality_score : float) : str :=
  if PrimFloat.leb 0.8%float quality_score then py "[green]Good[/green]"
  else if PrimFloat.leb 0.6%float quality_score
  then py "[yellow]Needs Work[/yellow]"
  else py "[red]Poor[/red]".

End TerminalInterface.
Import TerminalInterface.

(* ================================================================== *)
(** ** Definitions used by the statements *)
(* ================================================================== *)

(** The block of one section: what [format_resume] appends for a key. *)
Definition block (sections : dict) (template : str) (k : str) : str :=
  _format_section k (dict_get k sections []) template.


(** Example inputs. *)
Definition example_sections : dict :=
  [ (py "skills", py "Python, Go");
    (py "volunteering", py "Food bank");
    (py "header", py "Jane Doe");
    (py "hobbies", py "Chess") ].

(** Pairwise distinct names, as a test. *)
Fixpoint distinct (l : list str) : bool :=
  match l with
  | [] => true
  | x :: r => negb (mem x r) && distinct r
  end.

(** Every name of the priority list, inserted in reverse, between two
    names outside of it. *)
Definition scrambled_sections : dict :=
  [ (py "volunteering", py "Food bank");
    (py "references", py "On request");
    (py "publications", py "A paper");
    (py "languages", py "English");
    (py "awards", py "A prize");
    (py "certifications", py "A certificate");
    (py "projects", py "A project");
    (py "skills", py "Python, Go");
    (py "education", py "A degree");
    (py "experience", py "A job");
    (py "summary", py "An engineer");
    (py "contact", py "jane@example.org");
    (py "header", py "Jane Doe");
    (py "hobbies", py "Chess") ].

Definition example_fs : filesystem :=
  fun path =>
    if str_eqb path (py "resume.md") then Text (py "Jane Doe\nEngineer")
    else if str_eqb path (py "blank.md") then Text (py " \n")
    else if str_eqb path (py "photo.png") then Unreadable ValueError
    else if str_eqb path (py "locked/resume.md") then Denied
    else if (255 <? List.length path)%nat then NameTooLong
    else Missing.

(** A file name of 256 characters, one more than a file system takes. *)
Definition long_name : str := repeat 97%N 256.

(** "The path does not exist", where the answer of [stat] tells. *)
Definition absent (path : node) : Prop :=
  path = Missing \/ path = NameTooLong.

(** The experience rule in the words of the specification: a blank line
    stays blank; a non-blank line gets the prefix "- " unless it already
    starts with "-", "*", "#" or "**", or ends with ":", or is fully
    upper-case. *)
Definition already_marked (line : str) : bool :=
  startswith (py "-") line || startswith (py "*") line
  || startswith (py "#") line || startswith (py "**") line.

Definition bulleted (line : str) : str :=
  let trimmed := strip line in
  match trimmed with
  | [] => []
  | _ :: _ =>
      if already_marked trimmed || endswith (py ":") trimmed
         || isupper trimmed
      then trimmed
      else py "- " ++ trimmed
  end.

(** Greedy packing in the words of the specification: the running count of
    a line is the lengths of its skills plus 3 per separator, and a new line
    starts whenever appending the next skill would push that count past
    60.  The words leave open whether the separator that joins the next
    skill to the line is counted in that test; [joining] decides it. *)
Definition line_count (line : list str) : nat :=
  list_sum (map (@List.length char) line) + 3 * (List.length line - 1).

Definition would_pass_60 (joining : bool) (line : list str) (skill : str)
  : bool :=
  if joining then 60 <? line_count (line ++ [skill])
  else 60 <? line_count line + List.length skill.

Fixpoint pack_by_spec (joining : bool) (lines : list (list str))
  (line : list str) (skills : list str) : list (list str) :=
  match skills with
  | [] => if nonempty line then lines ++ [line] else lines
  | skill :: rest =>
      if nonempty line && would_pass_60 joining line skill
      then pack_by_spec joining (lines ++ [line]) [skill] rest
      else pack_by_spec joining lines (line ++ [skill]) rest
  end.

(** Nine skills of ten characters each. *)
Definition ten_char_skills : list str :=
  [ py "JavaScript"; py "TypeScript"; py "Kubernetes"; py "PostgreSQL";
    py "Prometheus"; py "Serverless"; py "Clustering"; py "Networking";
    py "Monitoring" ].

Definition ten_char_body : str :=
  py "JavaScript, TypeScript, Kubernetes, PostgreSQL, Prometheus, Serverless, Clustering, Networking, Monitoring".

(** White-space-only strings, and lines (strings without a line feed). *)
Definition blank (s : str) : bool := forallb isspace s.

Definition no_nl (l : str) : Prop := ~ In NL l.

(** A line that the parser takes for a section header. *)
Definition is_header (line : str) : bool :=
  truthy (_extract_section_name line).

(** [strip] seen on the lines of a text: the blank lines at both ends go,
    the first line left loses its leading and the last its trailing white
    space. *)
Fixpoint ltrim_lines (ls : list str) : list str :=
  match ls with
  | [] => []
  | l :: ls' => if blank l then ltrim_lines ls' else lstrip l :: ls'
  end.

Fixpoint rtrim_lines (ls : list str) : list str :=
  match ls with
  | [] => []
  | l :: ls' =>
      match rtrim_lines ls' with
      | [] => if blank l then [] else [rstrip l]
      | r => l :: r
      end
  end.

Definition trim_lines (ls : list str) : list str :=
  rtrim_lines (ltrim_lines ls).

(** What a regular expression can match, as a relation: [sem r u g g']
    says that [r] matches exactly the text [u], taking the content of
    group 1 from [g] to [g']. *)
Inductive sem : regex -> str -> option str -> option str -> Prop :=
| sem_lit (l u : str) (g : option str) :
    lit_match l u = Some [] -> sem (RLit l) u g g
| sem_plus (cl : cclass) (u : str) (g : option str) :
    u <> [] -> forallb (cmatch cl) u = true -> sem (RPlus cl) u g g
| sem_star (cl : cclass) (u : str) (g : option str) :
    forallb (cmatch cl) u = true -> sem (RStar cl) u g g
| sem_opt0 (cl : cclass) (g : option str) : sem (ROpt cl) [] g g
| sem_opt1 (cl : cclass) (x : char) (g : option str) :
    cmatch cl x = true -> sem (ROpt cl) [x] g g
| sem_seq (r1 r2 : regex) (u1 u2 : str) (g g1 g2 : option str) :
    sem r1 u1 g g1 -> sem r2 u2 g1 g2 -> sem (RSeq r1 r2) (u1 ++ u2) g g2
| sem_altl (r1 r2 : regex) (u : str) (g g' : option str) :
    sem r1 u g g' -> sem (RAlt r1 r2) u g g'
| sem_altr (r1 r2 : regex) (u : str) (g g' : option str) :
    sem r2 u g g' -> sem (RAlt r1 r2) u g g'
| sem_group (r : regex) (u : str) (g g' : option str) :
    sem r u g g' -> sem (RGroup r) u g (Some u).

(** Expressions whose every match begins with a letter. *)
Fixpoint starts_with_letter (r : regex) : bool :=
  match r with
  | RLit (c :: _) => is_lower_ascii c
  | RSeq r1 _ => starts_with_letter r1
  | RAlt r1 r2 => starts_with_letter r1 && starts_with_letter r2
  | RGroup r1 => starts_with_letter r1
  | _ => false
  end.

(** The bodies of the eleven specific patterns, in order. *)
Definition SPECIFIC_BODIES : list regex :=
  [ alt [word "summary"; word "profile"] (word "objective");
    alt [word "experience"; words "work" "experience"] (word "employment");
    alt [word "education"] (words "academic" "background");
    alt [word "skills"; words "technical" "skills"] (words "core" "competencies");
    alt [word "projects"] (words "notable" "projects");
    alt [plural "certification"] (plural "license");
    alt [plural "award"; plural "achievement"] (plural "honor");
    alt [word "contact"] (words "contact" "information");
    plural "language";
    plural "publication";
    plural "reference" ].

(** The first character of [s], if any, is rejected by [p]. *)
Definition head_fails (p : char -> bool) (s : str) : Prop :=
  match s with
  | [] => True
  | x :: _ => p x = false
  end.

(** The continuation that ends a match: [re.match] accepts any rest. *)
Definition accept : str -> option str -> option (option str) :=
  fun _ g => Some g.

(** What a pattern body consumes: the rest of the text after its first
    (highest-priority) match. *)
Definition consume (body : regex) (t : str) : option str :=
  rmatch body t None (fun s' _ => Some s').

Fixpoint first_consume (bodies : list regex) (t : str) : option str :=
  match bodies with
  | [] => None
  | body :: bodies' =>
      match consume body t with
      | Some rest => Some rest
      | None => first_consume bodies' t
      end
  end.

(** Lines made of "#" and white space only. *)
Definition hashes_and_spaces (line : str) : bool :=
  forallb (fun c => (c =? 35)%N || isspace c) line.

(** What the loop does with a line that is not a header: the line joins
    the current body, or opens the implicit "header" section. *)
Definition accumulate (st : locals) (line : str) : locals :=
  if header_found st then
    mkLocals (sections st) (current_section st)
      (current_content st ++ [line]) (header_found st)
  else
    match current_section st with
    | None =>
        mkLocals (sections st) (Some (py "header")) ([] ++ [line])
          (header_found st)
    | Some _ =>
        mkLocals (sections st) (current_section st)
          (current_content st ++ [line]) (header_found st)
    end.

(** What the loop does with a header line named [name]. *)
Definition open_section (st : locals) (name : str) : locals :=
  mkLocals (save st) (Some name) [] true.

(** The section-title synonyms that the specific patterns name, and the
    canonical name the normalization table gives each of them. *)
Definition RECOGNIZED_SYNONYMS : list str :=
  [ py "summary"; py "profile"; py "objective";
    py "experience"; py "work experience"; py "employment";
    py "education"; py "academic background";
    py "skills"; py "technical skills"; py "core competencies";
    py "projects"; py "notable projects";
    py "certification"; py "certifications"; py "license"; py "licenses";
    py "award"; py "awards"; py "achievement"; py "achievements";
    py "honor"; py "honors";
    py "contact"; py "contact information";
    py "language"; py "languages";
    py "publication"; py "publications";
    py "reference"; py "references" ].

Definition canonical (synonym : str) : str :=
  dict_get synonym mappings synonym.

(** What the optional final "s" of a pattern leaves of the text. *)
Definition opt_s (rest : str) : str :=
  match rest with
  | x :: rest' => if cmatch (CLit 115%N) x then rest' else rest
  | [] => []
  end.

(** A document as a list of blocks: a header line and the lines below it,
    up to the next header. *)
Definition header_block : Type := (str * list str)%type.

Definition block_lines (b : header_block) : list str := fst b :: snd b.

Definition block_body (b : header_block) : str := strip (join [NL] (snd b)).

Definition document (pre : list str) (blocks : list header_block) : str :=
  join [NL] (pre ++ List.concat (map block_lines blocks)).

(** The canonical names of the recognized synonyms. *)
Definition CANONICAL_NAMES : list str :=
  [ py "summary"; py "experience"; py "education"; py "skills";
    py "projects"; py "certifications"; py "awards"; py "contact";
    py "languages"; py "publications"; py "references" ].

(** The canonical name of each recognized synonym, written out. *)
Definition SYNONYM_TABLE : list (str * str) :=
  [ (py "summary", py "summary");
    (py "profile", py "summary");
    (py "objective", py "summary");
    (py "experience", py "experience");
    (py "work experience", py "experience");
    (py "employment", py "experience");
    (py "education", py "education");
    (py "academic background", py "education");
    (py "skills", py "skills");
    (py "technical skills", py "skills");
    (py "core competencies", py "skills");
    (py "projects", py "projects");
    (py "notable projects", py "projects");
    (py "certification", py "certifications");
    (py "certifications", py "certifications");
    (py "license", py "certifications");
    (py "licenses", py "certifications");
    (py "award", py "awards");
    (py "awards", py "awards");
    (py "achievement", py "awards");
    (py "achievements", py "awards");
    (py "honor", py "awards");
    (py "honors", py "awards");
    (py "contact", py "contact");
    (py "contact information", py "contact");
    (py "language", py "languages");
    (py "languages", py "languages");
    (py "publication", py "publications");
    (py "publications", py "publications");
    (py "reference", py "references");
    (py "references", py "references") ].

Definition canonical_name (synonym : str) : str :=
  dict_get synonym SYNONYM_TABLE synonym.

(** An ATX header drawn from the recognized synonyms: a line that, once
    trimmed, is made of one or more "#", white space, and a title that
    begins, in any letter case, with the synonym [syn]. *)
Definition synonym_header (line syn : str) : Prop :=
  In syn (keys SYNONYM_TABLE)
  /\ no_nl line
  /\ exists hashes ws title,
       strip line = hashes ++ ws ++ title
       /\ hashes <> []
       /\ forallb (N.eqb 35%N) hashes = true
       /\ forallb isspace ws = true
       /\ lower (firstn (List.length syn) title) = syn.

(** A line of text that is no header: trimmed, it does not begin with
    "#", or it is a lone "#". *)
Definition hash_opened (l : str) : bool :=
  match strip l with
  | c :: _ :: _ => N.eqb c 35%N
  | _ => false
  end.

Definition plain_line (l : str) : Prop := no_nl l /\ hash_opened l = false.

(** The documents of header blocks: lines of text without a header, then
    the blocks, each a header line that begins with the synonym given in
    [syns], and below it lines that are no headers. *)
Definition sectioned (pre : list str) (blocks : list header_block)
  (syns : list str) : Prop :=
  Forall plain_line pre
  /\ Forall2 (fun b syn =>
                synonym_header (fst b) syn /\ Forall plain_line (snd b))
       blocks syns.

(** What the loop has stored once the lines before the first header are
    read. *)
Definition stored_lead (pre : list str) : dict :=
  match pre with
  | [] => []
  | _ :: _ => [(py "header", strip (join [NL] pre))]
  end.

(** The entry of the text before the first header. *)
Definition leading_entry (pre : list str) : dict :=
  let text := strip (join [NL] pre) in
  if nonempty text then [(py "header", text)] else [].

(** [if current_section and current_content: sections[...] = ...] for the
    section [name] with the lines [lines]. *)
Definition commit (d : dict) (name : str) (lines : list str) : dict :=
  if nonempty name && nonempty lines
  then dict_set name (strip (join [NL] lines)) d
  else d.

Definition example_blocks : list header_block :=
  [ (py "## Skills", [py "Python, Go"; py ""]);
    (py "## Work Experience", []);
    (py "## Education", [py ""; py "MIT"]) ].

(** Bodies as the parser stores them: trimmed, not empty, and without a
    header among their lines. *)
Definition line_ok (l : str) : Prop := is_header l = false /\ no_nl l.

(** Header blocks whose header lines the parser reads under the names
    [names]. *)
Definition read_as (blocks : list header_block) (names : list str) : Prop :=
  Forall2 (fun b n =>
             _extract_section_name (fst b) = Some n
             /\ no_nl (fst b)
             /\ Forall line_ok (snd b))
    blocks names.

(** Two headers that differ, of one canonical name. *)
Definition synonym_blocks : list header_block :=
  [ (py "## Experience", [py "ACME"]);
    (py "## Employment", [py "Initech"]) ].

Definition body_ok (v : str) : Prop :=
  exists ls, Forall line_ok ls /\ v = strip (join [NL] ls).

Definition good_body (v : str) : Prop :=
  strip v = v /\ v <> []
  /\ Forall (fun l => is_header l = false) (split NL v).

(** The invariant of the loop of [_parse_markdown_content]. *)
Definition parse_inv (st : locals) : Prop :=
  wf_dict (sections st)
  /\ Forall (fun kv => body_ok (snd kv)) (sections st)
  /\ Forall line_ok (current_content st).

(** What the formatter renders for a section of canonical name [k] with the
    trimmed body [v]: a heading line, a blank line, and the body as the
    rule of the section lays it out. *)
Definition heading (k : str) : str :=
  if str_eqb k (py "contact") then py "## Contact"
  else if str_eqb k (py "summary") then py "## Professional Summary"
  else if str_eqb k (py "experience") then py "## Experience"
  else if str_eqb k (py "skills") then py "## Skills"
  else py "## " ++ title (replace 95%N 32%N k).

Definition comma_list (v : str) : bool :=
  contains 44%N v && negb (contains NL v).

Definition skills_items (v : str) : list str :=
  filter nonempty (map strip (split 44%N v)).

Definition rendered_body (k v : str) : str :=
  if str_eqb k (py "experience")
  then join [NL] (map experience_line (split NL v))
  else if str_eqb k (py "skills")
  then (if comma_list v then join [NL] (pack_skills (skills_items v)) else v)
  else v.

Definition render (kv : str * str) : str :=
  heading (fst kv) ++ py "\n\n" ++ snd kv.

(** A skills body that is a one-line comma list names at least one skill. *)
Definition skills_ok (v : str) : Prop :=
  comma_list v = true -> skills_items v <> [].

(** A string that is its own [strip] and not empty. *)
Definition tidy (e : str) : Prop := strip e = e /\ e <> [].

(** One skill of a comma list: trimmed, not empty, on one line, without a
    comma. *)
Definition skill_ok (item : str) : Prop :=
  tidy item /\ ~ In NL item /\ ~ In 44%N item.

Definition group_ok (g : list str) : Prop := g <> [] /\ Forall skill_ok g.

(** The rendered document as header blocks: under each heading a blank
    line and the lines of the body, and a blank line before the next
    heading. *)
Fixpoint rendered_blocks (entries : dict) : list header_block :=
  match entries with
  | [] => []
  | (k, v) :: rest =>
      match rest with
      | [] => [(heading k, [] :: split NL v)]
      | _ :: _ => (heading k, [] :: split NL v ++ [[]]) :: rendered_blocks rest
      end
  end.

(** The sections as the formatter lays them out: in the order of
    [_get_section_order], each body rendered by the rule of its section. *)
Definition rendered_entries (sections : dict) (template : str) : dict :=
  map (fun k => (k, rendered_body k (dict_get k sections [])))
    (_get_section_order sections template).

(** The name under which the parser reads the heading of the section [k]
    back. *)
Definition reread (k : str) : str :=
  match _extract_section_name (heading k) with
  | Some name => name
  | None => k
  end.

(** The sections [k] and [k'] are laid out by the same rule: the formatter
    tells the experience and the skills section from the others, whose
    bodies it leaves as they are. *)
Definition same_rule (k k' : str) : bool :=
  Bool.eqb (str_eqb k (py "experience")) (str_eqb k' (py "experience"))
  && Bool.eqb (str_eqb k (py "skills")) (str_eqb k' (py "skills")).

(** The heading of the section [k] comes through the round trip: [k] is
    not "header", its heading is one line, and the parser reads that line
    as a header whose name is not "header" and gets the same heading and
    the same layout rule as [k]. *)
Definition stable_name (k : str) : bool :=
  negb (str_eqb k (py "header"))
  && negb (contains NL (heading k))
  && match _extract_section_name (heading k) with
     | Some name =>
         negb (str_eqb name (py "header"))
         && str_eqb (heading name) (heading k)
         && same_rule k name
     | None => false
     end.

Fixpoint strs_eqb (a b : list str) : bool :=
  match a, b with
  | [], [] => true
  | x :: a', y :: b' => str_eqb x y && strs_eqb a' b'
  | _, _ => false
  end.

(** The document of [sections] reads back: every section has a stable
    name, and the names under which the parser reads the headings back,
    taken in the order of the document, are pairwise distinct and in the
    order in which the formatter lays sections of these names out. *)
Definition reads_back (sections : dict) (template : str) : bool :=
  let order := _get_section_order sections template in
  let names := map reread order in
  forallb stable_name order
  && distinct names
  && strs_eqb
       (_get_section_order (map (fun name => (name, [])) names) template)
       names.

(** A document with free-form titles. *)
Definition hobbies_document : str :=
  py "## Hobbies\nChess\n\n## my_pets\nA cat\n\n## Work Experience\nEngineer at ACME\n\n## Technical Skills\nPython, Go".

(** The document of the parser's own test. *)
Definition test_document : str :=
  py "# John Doe\n\n## Contact\nEmail: john@example.com\n\n## Experience\nSoftware Developer at Tech Co.\n- Built web applications\n- Worked with Python\n\n## Skills\nPython, JavaScript\n".

(** The state of the loop once the document has begun with the plain line
    [first]: the implicit "header" section is either still open, with
    [first] as its first line, or stored, with a body that begins with
    [first], while another section is open. *)
Definition begun_with (first : str) (st : locals) : Prop :=
  (header_found st = false
   /\ current_section st = Some (py "header")
   /\ exists more,
        current_content st = first :: more /\ Forall no_nl more)
  \/ (header_found st = true
      /\ current_section st <> Some (py "header")
      /\ exists more,
           In (py "header", strip (join [NL] (first :: more))) (sections st)
           /\ Forall no_nl more).

(* ================================================================== *)
(** ** Definitions used by the further properties *)
(* ================================================================== *)

(** [v] occurs in [content] as one contiguous piece. *)
Definition verbatim (v content : str) : Prop :=
  exists pre post, content = pre ++ v ++ post.

(** [ls] is a run of consecutive lines of [all]. *)
Definition run_of (ls all : list str) : Prop :=
  exists a b, all = a ++ ls ++ b.

(** Where the stored text comes from, once the loop of
    [_parse_markdown_content] has read the lines [seen]: the open body is
    the end of [seen], and every stored body is the trimmed text of a run
    of consecutive lines of [seen]. *)
Definition from_run (seen : list str) (kv : str * str) : Prop :=
  exists ls, run_of ls seen /\ snd kv = strip (join [NL] ls).

Definition prov_inv (seen : list str) (st : locals) : Prop :=
  (exists a, seen = a ++ current_content st)
  /\ Forall (from_run seen) (sections st).

(** A document of header blocks: blank lines at most before the first
    header, every header line read under the canonical name given in
    [names], no header among the lines of a body; the names of the headers
    are not required to differ. *)
Definition headed (pre : list str) (blocks : list header_block)
  (names : list str) : Prop :=
  Forall (fun l => blank l = true /\ no_nl l) pre
  /\ Forall2 (fun b n =>
                _extract_section_name (fst b) = Some n
                /\ In n CANONICAL_NAMES
                /\ no_nl (fst b)
                /\ Forall (fun l => is_header l = false /\ no_nl l) (snd b))
       blocks names.

(** The body the loop leaves under the name [n]: that of the last header
    named [n] with at least one line below it; [acc] when there is none. *)
Fixpoint last_body (n : str) (entries : list (str * list str)) (acc : str)
  : str :=
  match entries with
  | [] => acc
  | (name, lines) :: rest =>
      last_body n rest
        (if str_eqb name n && nonempty lines
         then strip (join [NL] lines) else acc)
  end.

Definition repeated_blocks : list header_block :=
  [ (py "## Skills", [py "Python"]);
    (py "## Education", [py "MIT"]);
    (py "## Technical Skills", [py ""]) ].

(** The width of a packed line: the length of its skills joined by the
    separator. *)
Definition packed_width (g : list str) : nat :=
  List.length (join BULLET_SEP g).

(** A line of the packing holds one skill, or is at most 63 wide. *)
Definition fits (g : list str) : Prop :=
  List.length g = 1 \/ packed_width g <= 63.

(** The invariant of the packing loop, the skills [seen] being read: the
    lines laid out so far are those of the groups [gs]; the groups and the
    open line hold the skills read, in order; no group is empty and every
    one fits; the counter is 0 on an empty line, and otherwise not below
    the width of the open line. *)
Definition pack_inv (seen : list str) (gs : list (list str)) (st : packing)
  : Prop :=
  formatted_skills st = map bullet_line gs
  /\ List.concat gs ++ current_line st = seen
  /\ Forall (fun g => g <> [] /\ fits g) gs
  /\ ((current_line st = [] /\ current_length st = 0)
      \/ (current_line st <> []
          /\ packed_width (current_line st) <= current_length st
          /\ fits (current_line st))).

(** What [export_markdown] formats: the raw sections, in their order,
    each with its revised content where there is one. *)
Definition merged (raw revised : dict) : dict :=
  map (fun kv => (fst kv, dict_get (fst kv) revised (snd kv))) raw.

(** The content [export_markdown] takes for one section. *)
Definition final_value (self : Resume) (section : str) : str :=
  if dict_mem section (revised_content self)
  then dict_get section (revised_content self) []
  else dict_get section (raw_content self) [].

Definition example_resume : Resume :=
  mkResume [(py "summary", py "Engineer"); (py "skills", py "Python")]
    [(py "skills", py "Python, Go")] (py "default").

(** The word lists of [assess_quality]. *)
Definition quality_action_verbs : list str :=
  [ py "achieved"; py "managed"; py "led"; py "developed";
    py "implemented"; py "created"; py "improved"; py "increased";
    py "reduced"; py "optimized" ].

Definition unprofessional : list str :=
  [ py "stuff"; py "things"; py "lots"; py "really"; py "very";
    py "awesome" ].

(** [word] occurs in the lower-cased content. *)
Definition mentions (content word : str) : bool :=
  contains_str word (lower content).

(** [if b: score += bonus]. *)
Definition add_if (b : bool) (bonus score : float) : float :=
  if b then (score + bonus)%float else score.

#[local] Set Warnings "-inexact-float".

(** The score of an experience section, from four yes-or-no facts: the
    length is in range, some action verb occurs, some quantity occurs, no
    informal word occurs. *)
Definition experience_score (in_range any_verb quantified professional : bool)
  : float :=
  py_min
    (add_if professional 0.2%float
       (add_if quantified 0.2%float
          (add_if in_range 0.3%float 0.0%float
           + (if any_verb then 0.3%float else 0.0%float))%float))
    1.0%float.

(** The score of a section of any other type. *)
Definition plain_score (in_range quantified professional : bool) : float :=
  py_min
    (add_if professional 0.2%float
       (add_if quantified 0.2%float (add_if in_range 0.3%float 0.0%float)))
    1.0%float.

Definition strong_experience : str :=
  py "Led a team of 5 engineers and increased revenue by 20% while I managed the budget and developed new tools for the whole company".

(** Single-spaced text: every white-space character is a space (U+0020)
    that stands between two characters that are not white space.
    [after_space] tells that the character before is a space, or that
    there is none. *)
Fixpoint spaced_from (after_space : bool) (s : str) : bool :=
  match s with
  | [] => negb after_space
  | c :: s' =>
      if isspace c
      then (c =? 32)%N && negb after_space && spaced_from true s'
      else spaced_from false s'
  end.

Definition single_spaced (s : str) : bool :=
  match s with
  | [] => true
  | _ :: _ => spaced_from true s
  end.

(** Where a character stands with respect to the sentences: at the start
    of the text, right after a ".", "!" or "?", after such a character and
    white space, or elsewhere. *)
Inductive place : Type := AtStart | AfterEnd | AfterEndSpace | Inside.

Definition opens_sentence (p : place) : bool :=
  match p with
  | AtStart | AfterEndSpace => true
  | AfterEnd | Inside => false
  end.

Definition next_place (p : place) (c : char) : place :=
  if sentence_end c then AfterEnd
  else if isspace c
  then match p with
       | AfterEnd | AfterEndSpace => AfterEndSpace
       | AtStart | Inside => Inside
       end
  else Inside.

(** The text with the lower-case letters that open a sentence in upper
    case. *)
Fixpoint capitalized (p : place) (s : str) : str :=
  match s with
  | [] => []
  | c :: s' =>
      (if opens_sentence p && is_lower_ascii c then upper_char c else c)
        :: capitalized (next_place p c) s'
  end.
(* ================================================================== *)
(** ** Properties *)
(* ================================================================== *)

(** *** Strings, lists and dictionaries *)

Lemma str_eqb_eq (a b : str) : str_eqb a b = true <-> a = b.
Proof.
  revert b; induction a as [|x a IH]; intros [|y b]; simpl;
    try (split; [discriminate | congruence]); try tauto.
  rewrite andb_true_iff, N.eqb_eq, IH. split.
  - intros [-> ->]; reflexivity.
  - intros H; inversion H; auto.
Qed.

Lemma str_eqb_refl (a : str) : str_eqb a a = true.
Proof. apply str_eqb_eq; reflexivity. Qed.

Lemma str_eqb_neq (a b : str) : str_eqb a b = false <-> a <> b.
Proof.
  rewrite <- str_eqb_eq. destruct (str_eqb a b); split; congruence.
Qed.

Lemma str_eqb_sym (a b : str) : str_eqb a b = str_eqb b a.
Proof.
  destruct (str_eqb a b) eqn:E.
  - apply str_eqb_eq in E; subst; symmetry; apply str_eqb_refl.
  - symmetry; apply str_eqb_neq. apply str_eqb_neq in E. congruence.
Qed.

Lemma mem_In (k : str) (l : list str) : mem k l = true <-> In k l.
Proof.
  unfold mem. rewrite existsb_exists. split.
  - intros [x [Hin Heq]]. apply str_eqb_eq in Heq; subst; assumption.
  - intros H; exists k; split; [assumption | apply str_eqb_refl].
Qed.

Lemma mem_app (k : str) (l1 l2 : list str) :
  mem k (l1 ++ l2) = mem k l1 || mem k l2.
Proof. unfold mem; apply existsb_app. Qed.

Lemma dict_getitem_mem (k : str) (d : dict) :
  dict_mem k d = true -> exists v, dict_getitem k d = Return v.
Proof.
  unfold dict_mem, keys, mem.
  induction d as [|[k' v'] d IH]; simpl; [discriminate|].
  rewrite (str_eqb_sym k k').
  destruct (str_eqb k' k); simpl; eauto.
Qed.

Lemma dict_getitem_get (k : str) (d : dict) (v dflt : str) :
  dict_getitem k d = Return v -> dict_get k d dflt = v.
Proof.
  induction d as [|[k' v'] d IH]; simpl; [discriminate|].
  destruct (str_eqb k' k); [congruence | assumption].
Qed.

Lemma is_ascii_check (s : str) :
  forallb (fun c => (c <? 128)%N) s = true -> is_ascii s.
Proof.
  unfold is_ascii. rewrite forallb_forall, Forall_forall.
  intros H c Hc. apply N.ltb_lt. apply H; assumption.
Qed.

(** *** The order of the sections *)

Lemma add_remaining_nodup (ks ordered : list str) :
  NoDup ks ->
  add_remaining ks ordered
  = ordered ++ filter (fun k => negb (mem k ordered)) ks.
Proof.
  revert ordered; induction ks as [|k ks IH]; intros ordered Hnd; simpl.
  - rewrite app_nil_r; reflexivity.
  - inversion Hnd as [|? ? Hnotin Hnd']; subst.
    rewrite (IH _ Hnd').
    destruct (mem k ordered) eqn:Hk; simpl.
    + reflexivity.
    + rewrite <- app_assoc; simpl. do 2 f_equal.
      apply filter_ext_in. intros a Ha.
      rewrite mem_app. simpl. rewrite orb_false_r.
      replace (str_eqb a k) with false; [rewrite orb_false_r; reflexivity|].
      symmetry; apply str_eqb_neq. intros ->. contradiction.
Qed.

Lemma distinct_NoDup (l : list str) : distinct l = true -> NoDup l.
Proof.
  induction l as [|x r IH]; simpl; intros H; [constructor|].
  apply andb_true_iff in H as [Hx Hr]. constructor; [|auto].
  intros Hin. apply mem_In in Hin. rewrite Hin in Hx. discriminate.
Qed.

Lemma default_order_nodup : NoDup DEFAULT_SECTION_ORDER.
Proof.
  unfold DEFAULT_SECTION_ORDER.
  repeat (constructor; [simpl; intuition discriminate|]). constructor.
Qed.

Lemma get_section_order_spec (sections : dict) (template : str) :
  wf_dict sections ->
  _get_section_order sections template
  = filter (fun k => dict_mem k sections) DEFAULT_SECTION_ORDER
    ++ filter (fun k => negb (mem k DEFAULT_SECTION_ORDER)) (keys sections).
Proof.
  intros Hwf. unfold _get_section_order.
  rewrite (add_remaining_nodup _ _ Hwf). f_equal.
  apply filter_ext_in. intros k Hk. f_equal.
  apply eq_true_iff_eq. rewrite !mem_In, filter_In.
  unfold dict_mem. rewrite mem_In. tauto.
Qed.

Lemma get_section_order_in (sections : dict) (template : str) (k : str) :
  wf_dict sections ->
  In k (_get_section_order sections template) <-> In k (keys sections).
Proof.
  intros Hwf. rewrite (get_section_order_spec _ _ Hwf).
  rewrite in_app_iff, !filter_In. unfold dict_mem.
  rewrite negb_true_iff, mem_In.
  destruct (mem k DEFAULT_SECTION_ORDER) eqn:E.
  - apply mem_In in E. intuition discriminate.
  - assert (~ In k DEFAULT_SECTION_ORDER)
      by (intros H; apply mem_In in H; congruence).
    tauto.
Qed.

Lemma get_section_order_nodup (sections : dict) (template : str) :
  wf_dict sections -> NoDup (_get_section_order sections template).
Proof.
  intros Hwf. rewrite (get_section_order_spec _ _ Hwf).
  assert (Hf : forall (f : str -> bool) l, NoDup l -> NoDup (filter f l)).
  { intros f l; induction 1 as [|x l Hx Hl IH]; simpl; [constructor|].
    destruct (f x); [constructor|]; auto.
    rewrite filter_In; tauto. }
  assert (Happ : forall (l1 l2 : list str), NoDup l1 -> NoDup l2 ->
            (forall x, In x l1 -> ~ In x l2) -> NoDup (l1 ++ l2)).
  { induction l1 as [|a l1 IH]; simpl; intros l2 H1 H2 H; [assumption|].
    inversion H1; subst. constructor.
    - rewrite in_app_iff. intros [?|?]; [contradiction|].
      apply (H a); auto.
    - apply IH; auto. }
  apply Happ.
  - apply Hf, default_order_nodup.
  - apply Hf, Hwf.
  - intros x H1 H2. apply filter_In in H1, H2.
    destruct H2 as [_ H2]. apply negb_true_iff in H2.
    destruct H1 as [H1 _]. apply mem_In in H1. congruence.
Qed.

Lemma format_parts_spec (sections : dict) (template : str)
  (ordered acc : list str) :
  (forall k, In k ordered -> In k (keys sections)) ->
  format_parts sections template ordered acc
  = Return (acc ++ filter nonempty (map (block sections template) ordered)).
Proof.
  revert acc; induction ordered as [|k ordered IH]; intros acc Hin; simpl.
  - rewrite app_nil_r; reflexivity.
  - assert (Hk : dict_mem k sections = true)
      by (apply mem_In, Hin; left; reflexivity).
    rewrite Hk. destruct (dict_getitem_mem _ _ Hk) as [v Hv].
    rewrite Hv. rewrite IH by (intros; apply Hin; right; assumption).
    assert (Hb : block sections template k = _format_section k v template)
      by (unfold block; rewrite (dict_getitem_get _ _ _ [] Hv); reflexivity).
    rewrite Hb.
    destruct (nonempty (_format_section k v template)); simpl.
    + rewrite <- app_assoc; reflexivity.
    + reflexivity.
Qed.

Lemma add_remaining_in (ks ordered : list str) (k : str) :
  In k (add_remaining ks ordered) -> In k ordered \/ In k ks.
Proof.
  revert ordered; induction ks as [|a ks IH]; intros ordered H; simpl in *.
  - left; assumption.
  - apply IH in H. destruct H as [H|H]; [|tauto].
    destruct (mem a ordered); simpl in H; [tauto|].
    apply in_app_iff in H. simpl in H. tauto.
Qed.

Lemma get_section_order_keys (sections : dict) (template : str) (k : str) :
  In k (_get_section_order sections template) -> In k (keys sections).
Proof.
  unfold _get_section_order. intros H. apply add_remaining_in in H.
  destruct H as [H|H]; [|assumption].
  apply filter_In in H. destruct H as [_ H]. apply mem_In in H. assumption.
Qed.

Lemma format_resume_spec (sections : dict) (template : str) :
  sections <> [] ->
  format_resume sections template
  = Return (join (py "\n\n")
              (filter nonempty
                 (map (block sections template)
                    (_get_section_order sections template)))).
Proof.
  intros Hne. unfold format_resume.
  destruct sections as [|kv sections]; [congruence|]. simpl negb. cbv iota.
  rewrite format_parts_spec by apply get_section_order_keys.
  reflexivity.
Qed.

(** *** C4 *)

(** C4. Section ordering: for every SectionMap, [format_resume] emits the
    section blocks in the fixed priority order header, contact, summary,
    experience, education, skills, projects, certifications, awards,
    languages, publications, references, restricted to the keys present,
    followed by the remaining keys in their insertion order, and no key
    occurs twice.  The twelve names are written out here, so the statement
    also fixes the content of [DEFAULT_SECTION_ORDER]. *)
Theorem C4_section_order (sections : dict) (template : str) :
  wf_dict sections ->
  let priority :=
    [ py "header"; py "contact"; py "summary"; py "experience";
      py "education"; py "skills"; py "projects"; py "certifications";
      py "awards"; py "languages"; py "publications"; py "references" ] in
  let order :=
    filter (fun k => dict_mem k sections) priority
    ++ filter (fun k => negb (mem k priority)) (keys sections) in
  _get_section_order sections template = order
  /\ NoDup order
  /\ (forall k, In k order <-> In k (keys sections))
  /\ (sections <> [] ->
      format_resume sections template
      = Return (join (py "\n\n")
                  (filter nonempty (map (block sections template) order)))).
Proof.
  intros Hwf priority order.
  assert (Hp : priority = DEFAULT_SECTION_ORDER) by reflexivity.
  assert (Ho : _get_section_order sections template = order).
  { unfold order. rewrite Hp. apply get_section_order_spec; assumption. }
  split; [assumption|]. rewrite <- Ho.
  split; [apply get_section_order_nodup; assumption|].
  split; [intros k; apply get_section_order_in; assumption|].
  apply format_resume_spec.
Qed.

Lemma C4_section_order_witness :
  wf_dict scrambled_sections
  /\ _get_section_order scrambled_sections (py "default")
     = [ py "header"; py "contact"; py "summary"; py "experience";
         py "education"; py "skills"; py "projects"; py "certifications";
         py "awards"; py "languages"; py "publications"; py "references";
         py "volunteering"; py "hobbies" ]
  /\ format_resume scrambled_sections (py "default")
     = Return (py "# Jane Doe\n\n## Contact\n\njane@example.org\n\n## Professional Summary\n\nAn engineer\n\n## Experience\n\n- A job\n\n## Education\n\nA degree\n\n## Skills\n\n- Python"
               ++ BULLET_SEP
               ++ py "Go\n\n## Projects\n\nA project\n\n## Certifications\n\nA certificate\n\n## Awards\n\nA prize\n\n## Languages\n\nEnglish\n\n## Publications\n\nA paper\n\n## References\n\nOn request\n\n## Volunteering\n\nFood bank\n\n## Hobbies\n\nChess").
Proof.
  assert (Hwf : wf_dict scrambled_sections).
  { unfold wf_dict. apply distinct_NoDup. vm_compute. reflexivity. }
  pose proof (C4_section_order scrambled_sections (py "default") Hwf)
    as [Ho [_ [_ Hf]]].
  split; [exact Hwf|]. split.
  - rewrite Ho. vm_compute. reflexivity.
  - rewrite Hf; [|discriminate]. vm_compute. reflexivity.
Defined.

(** *** C7 *)

(** C7. The formatter never fails: for every SectionMap and every template
    string [format_resume] returns a document (no [KeyError] escapes the
    lookups), the template has no influence, and the empty SectionMap gives
    exactly the placeholder document. *)
Theorem C7_format_never_fails :
  (forall sections template,
      exists doc, format_resume sections template = Return doc)
  /\ (forall sections template,
         format_resume sections template
         = format_resume sections (py "default"))
  /\ (forall template,
         format_resume [] template
         = Return (py "# Resume\n\n*No content available*")).
Proof.
  split; [|split].
  - intros sections template. destruct sections as [|kv sections].
    + eexists; reflexivity.
    + rewrite format_resume_spec by discriminate. eexists; reflexivity.
  - intros sections template. destruct sections as [|kv sections].
    + reflexivity.
    + rewrite !format_resume_spec by discriminate. reflexivity.
  - reflexivity.
Qed.

(** *** C6 *)

(** C6. Parser error handling.  [parse_markdown_file] raises
    [FileNotFoundError] when [Path.exists()] answers [False], it raises
    [ValueError] when the file cannot be read as text and when its content
    is empty or white space only, and on every other content it returns
    the parsed sections, however odd the markdown.  Against its docstring,
    it does not raise [FileNotFoundError] for every path that does not
    exist: [path.exists()] stands before the [try], and where [stat] fails
    with an error that [exists] raises again (a name over the limit, a
    directory that may not be searched), that [OSError] leaves
    [parse_markdown_file], also for a path at which there is nothing. *)
Theorem C6_parse_markdown_file (fs : filesystem) (file_path : str) :
  (parse_markdown_file fs file_path = Raise FileNotFoundError
   <-> fs file_path = Missing)
  /\ (forall e,
         fs file_path = Unreadable e ->
         parse_markdown_file fs file_path = Raise ValueError)
  /\ (forall content,
         fs file_path = Text content -> strip content = [] ->
         parse_markdown_file fs file_path = Raise ValueError)
  /\ (forall content,
         fs file_path = Text content -> strip content <> [] ->
         parse_markdown_file fs file_path
         = Return (_parse_markdown_content content))
  /\ (fs file_path = NameTooLong \/ fs file_path = Denied ->
      parse_markdown_file fs file_path = Raise OSError)
  /\ (absent (fs file_path) ->
      parse_markdown_file fs file_path <> Raise FileNotFoundError ->
      fs file_path = NameTooLong
      /\ parse_markdown_file fs file_path = Raise OSError)
  /\ (absent (example_fs long_name)
      /\ parse_markdown_file example_fs long_name = Raise OSError).
Proof.
  unfold parse_markdown_file, absent.
  split; [|split; [|split; [|split; [|split; [|split]]]]].
  - destruct (fs file_path) as [| | |e|content] eqn:E; cbn;
      (split; [|discriminate || reflexivity]); try discriminate;
      try reflexivity.
    destruct (nonempty (strip content)); discriminate.
  - intros e ->. reflexivity.
  - intros c -> Hs. cbn. rewrite Hs. reflexivity.
  - intros c -> Hs. cbn. destruct (strip c); [congruence | reflexivity].
  - intros [-> | ->]; reflexivity.
  - intros [-> | ->] Hn; cbn in *; [congruence|]. split; reflexivity.
  - split; [right|]; reflexivity.
Qed.

Lemma C6_parse_markdown_file_witness :
  (example_fs (py "resume.md") = Text (py "Jane Doe\nEngineer")
   /\ strip (py "Jane Doe\nEngineer") <> []
   /\ parse_markdown_file example_fs (py "resume.md")
      = Return [(py "header", py "Jane Doe\nEngineer")])
  /\ (example_fs (py "blank.md") = Text (py " \n")
      /\ strip (py " \n") = []
      /\ parse_markdown_file example_fs (py "blank.md") = Raise ValueError)
  /\ (example_fs (py "photo.png") = Unreadable ValueError
      /\ parse_markdown_file example_fs (py "photo.png") = Raise ValueError)
  /\ (example_fs (py "nowhere.md") = Missing
      /\ parse_markdown_file example_fs (py "nowhere.md")
         = Raise FileNotFoundError)
  /\ (example_fs (py "locked/resume.md") = Denied
      /\ parse_markdown_file example_fs (py "locked/resume.md")
         = Raise OSError).
Proof.
  pose proof (C6_parse_markdown_file example_fs (py "resume.md"))
    as [_ [_ [_ [H1 _]]]].
  pose proof (C6_parse_markdown_file example_fs (py "blank.md"))
    as [_ [_ [H2 _]]].
  pose proof (C6_parse_markdown_file example_fs (py "photo.png"))
    as [_ [H3 _]].
  pose proof (C6_parse_markdown_file example_fs (py "nowhere.md"))
    as [H4 _].
  pose proof (C6_parse_markdown_file example_fs (py "locked/resume.md"))
    as [_ [_ [_ [_ [H5 _]]]]].
  split; [|split; [|split; [|split]]].
  - split; [reflexivity|]. split; [vm_compute; discriminate|].
    rewrite (H1 (py "Jane Doe\nEngineer"));
      [reflexivity | reflexivity | vm_compute; discriminate].
  - split; [reflexivity|]. split; [reflexivity|].
    apply (H2 (py " \n")); reflexivity.
  - split; [reflexivity|]. apply (H3 ValueError); reflexivity.
  - split; [reflexivity|]. apply H4; reflexivity.
  - split; [reflexivity|]. apply H5; right; reflexivity.
Defined.

(** *** C5 *)

Lemma experience_line_bulleted (line : str) :
  experience_line line = bulleted line.
Proof.
  unfold experience_line, bulleted, already_marked.
  destruct (strip line) as [|c l] eqn:E; [reflexivity|].
  cbn [nonempty negb existsb]. rewrite orb_false_r. cbv iota.
  set (m := startswith (py "-") (c :: l) || (startswith (py "*") (c :: l)
             || (startswith (py "#") (c :: l)
                 || startswith (py "**") (c :: l)))).
  replace (startswith (py "-") (c :: l) || startswith (py "*") (c :: l)
           || startswith (py "#") (c :: l) || startswith (py "**") (c :: l))
    with m by (unfold m; rewrite !orb_assoc; reflexivity).
  destruct m; simpl; [reflexivity|].
  destruct (endswith (py ":") (c :: l)); simpl; [reflexivity|].
  destruct (isupper (c :: l)); reflexivity.
Qed.

(** C5. Experience rendering: the trimmed body is processed line by line;
    a blank line stays blank, and "- " is put before every non-blank line
    that does not start with "-", "*", "#" or "**", does not end with ":"
    and is not fully upper-case; the lines are joined under
    "## Experience".  The body "Led team of 5\nBuilt system" gives
    "## Experience\n\n- Led team of 5\n- Built system". *)
Theorem C5_experience_rendering :
  (forall content template,
      is_ascii content -> strip content <> [] ->
      _format_section (py "experience") content template
      = py "## Experience\n\n"
        ++ join [NL] (map bulleted (split NL (strip content))))
  /\ (forall template,
         format_resume
           [(py "experience", py "Led team of 5\nBuilt system")] template
         = Return
             (py "## Experience\n\n- Led team of 5\n- Built system")).
Proof.
  split.
  - intros content template _ Hne.
    unfold _format_section, _format_experience_section.
    destruct (strip content) as [|c l] eqn:E; [congruence|].
    cbn [nonempty negb]. cbv iota.
    change (str_eqb (py "experience") (py "header")) with false.
    change (str_eqb (py "experience") (py "contact")) with false.
    change (str_eqb (py "experience") (py "summary")) with false.
    change (str_eqb (py "experience") (py "experience")) with true.
    cbv iota. f_equal. f_equal.
    apply map_ext. intros a. apply experience_line_bulleted.
  - intros template. reflexivity.
Qed.

Lemma C5_experience_rendering_witness :
  is_ascii (py "  ACME CORP\nLed team of 5\n\nDuties:\n* kept\n")
  /\ strip (py "  ACME CORP\nLed team of 5\n\nDuties:\n* kept\n") <> []
  /\ _format_section (py "experience")
       (py "  ACME CORP\nLed team of 5\n\nDuties:\n* kept\n") (py "default")
     = py "## Experience\n\nACME CORP\n- Led team of 5\n\nDuties:\n* kept".
Proof.
  assert (Ha : is_ascii (py "  ACME CORP\nLed team of 5\n\nDuties:\n* kept\n")).
  { apply is_ascii_check. reflexivity. }
  assert (Hn : strip (py "  ACME CORP\nLed team of 5\n\nDuties:\n* kept\n")
               <> []) by (vm_compute; discriminate).
  split; [exact Ha|]. split; [exact Hn|].
  rewrite (proj1 C5_experience_rendering _ (py "default") Ha Hn).
  reflexivity.
Defined.

(** *** C2 *)

Lemma skills_pass_through (content : str) :
  strip content <> [] ->
  contains 44%N (strip content) = false
  \/ contains NL (strip content) = true ->
  _format_skills_section content = py "## Skills\n\n" ++ strip content.
Proof.
  intros Hne H. unfold _format_skills_section.
  destruct (strip content) as [|c l] eqn:E; [congruence|].
  cbn [nonempty negb]. cbv iota.
  destruct H as [H|H]; rewrite H; simpl; try reflexivity.
  rewrite andb_false_r. reflexivity.
Qed.

(** C2. Skills rendering, at the body made of nine ten-character skills
    separated by commas.  The code puts four skills on the first line and
    five on the second: the running count is restarted at [len(skill)]
    without the separator cost that every appended skill carries, so the
    second line holds 62 characters of packed content.  Packing with one
    rule for every line gives lines of four, four and one skills when the
    joining separator is counted, and of five and four when it is not:
    never four and then five. *)
Theorem C2_skills_packing_first_line :
  _format_section (py "skills") ten_char_body (py "default")
  = py "## Skills\n\n"
    ++ join [NL]
         [ bullet_line (firstn 4 ten_char_skills);
           bullet_line (skipn 4 ten_char_skills) ]
  /\ line_count (firstn 4 ten_char_skills) = 49
  /\ line_count (skipn 4 ten_char_skills) = 62
  /\ pack_by_spec true [] [] ten_char_skills
     = [ firstn 4 ten_char_skills;
         firstn 4 (skipn 4 ten_char_skills);
         skipn 8 ten_char_skills ]
  /\ pack_by_spec false [] [] ten_char_skills
     = [ firstn 5 ten_char_skills; skipn 5 ten_char_skills ]
  /\ (forall joining,
         pack_skills ten_char_skills
         <> map bullet_line (pack_by_spec joining [] [] ten_char_skills)).
Proof.
  repeat split; try reflexivity.
  intros [|]; vm_compute; discriminate.
Qed.

(** *** White space and [strip] *)

Lemma blank_app (a b : str) : blank (a ++ b) = blank a && blank b.
Proof. apply forallb_app. Qed.

Lemma blank_rev (s : str) : blank (rev s) = blank s.
Proof.
  induction s as [|c s IH]; simpl; [reflexivity|].
  rewrite blank_app, IH. simpl. rewrite andb_true_r. apply andb_comm.
Qed.

Lemma lstrip_nil_iff (s : str) : lstrip s = [] <-> blank s = true.
Proof.
  induction s as [|c s IH]; simpl; [tauto|].
  destruct (isspace c); simpl; [assumption|].
  split; discriminate.
Qed.

Lemma lstrip_app_blank (a s : str) :
  blank a = true -> lstrip (a ++ s) = lstrip s.
Proof.
  induction a as [|c a IH]; simpl; [reflexivity|].
  destruct (isspace c); simpl; [assumption | discriminate].
Qed.

Lemma lstrip_app_nonblank (a s : str) :
  blank a = false -> lstrip (a ++ s) = lstrip a ++ s.
Proof.
  induction a as [|c a IH]; simpl; [discriminate|].
  destruct (isspace c); simpl; [assumption | reflexivity].
Qed.

Lemma lstrip_head (s : str) (x : char) (r : str) :
  lstrip s = x :: r -> isspace x = false.
Proof.
  induction s as [|c s IH]; simpl; [discriminate|].
  destruct (isspace c) eqn:E; [assumption|].
  intros H; inversion H; subst; assumption.
Qed.

Lemma lstrip_nonspace (x : char) (s : str) :
  isspace x = false -> lstrip (x :: s) = x :: s.
Proof. intros H; simpl; rewrite H; reflexivity. Qed.

Lemma lstrip_idem (s : str) : lstrip (lstrip s) = lstrip s.
Proof.
  destruct (lstrip s) as [|x r] eqn:E; [reflexivity|].
  apply lstrip_nonspace. eapply lstrip_head; eassumption.
Qed.

Lemma lstrip_suffix (s : str) : exists a, blank a = true /\ s = a ++ lstrip s.
Proof.
  induction s as [|c s [a [Ha Hs]]]; simpl.
  - exists []; split; reflexivity.
  - destruct (isspace c) eqn:E.
    + exists (c :: a); simpl. rewrite E, Ha. split; [reflexivity|].
      f_equal; assumption.
    + exists []; split; reflexivity.
Qed.

Lemma rstrip_nil_iff (s : str) : rstrip s = [] <-> blank s = true.
Proof.
  unfold rstrip. rewrite <- (blank_rev s), <- lstrip_nil_iff.
  split; intros H.
  - apply (f_equal (@rev char)) in H. rewrite rev_involutive in H. exact H.
  - rewrite H; reflexivity.
Qed.

Lemma rstrip_app_blank (s b : str) :
  blank b = true -> rstrip (s ++ b) = rstrip s.
Proof.
  intros H. unfold rstrip. rewrite rev_app_distr, lstrip_app_blank;
    [reflexivity | rewrite blank_rev; assumption].
Qed.

Lemma rstrip_app_nonblank (s b : str) :
  blank b = false -> rstrip (s ++ b) = s ++ rstrip b.
Proof.
  intros H. unfold rstrip. rewrite rev_app_distr, lstrip_app_nonblank.
  - rewrite rev_app_distr, rev_involutive. reflexivity.
  - rewrite blank_rev; assumption.
Qed.

Lemma rstrip_snoc_nonspace (s : str) (x : char) :
  isspace x = false -> rstrip (s ++ [x]) = s ++ [x].
Proof.
  intros H. rewrite rstrip_app_nonblank by (simpl; rewrite H; reflexivity).
  unfold rstrip; simpl. rewrite H. reflexivity.
Qed.

Lemma rstrip_prefix (s : str) : exists b, blank b = true /\ s = rstrip s ++ b.
Proof.
  destruct (lstrip_suffix (rev s)) as [a [Ha Hs]].
  exists (rev a). rewrite blank_rev. split; [assumption|].
  unfold rstrip. rewrite <- rev_app_distr, <- Hs, rev_involutive. reflexivity.
Qed.

Lemma rstrip_last (s r : str) (x : char) :
  rstrip s = r ++ [x] -> isspace x = false.
Proof.
  unfold rstrip. intros H.
  apply (f_equal (@rev char)) in H.
  rewrite rev_involutive, rev_app_distr in H. simpl in H.
  eapply lstrip_head; eassumption.
Qed.

Lemma rstrip_idem (s : str) : rstrip (rstrip s) = rstrip s.
Proof.
  unfold rstrip. rewrite rev_involutive, lstrip_idem. reflexivity.
Qed.

Lemma rstrip_cons_nonspace (x : char) (s : str) :
  isspace x = false -> rstrip (x :: s) = x :: rstrip s.
Proof.
  intros H. destruct (blank s) eqn:B.
  - change (x :: s) with ([x] ++ s). rewrite rstrip_app_blank by assumption.
    apply rstrip_nil_iff in B. rewrite B.
    apply (rstrip_snoc_nonspace [] x H).
  - change (x :: s) with ([x] ++ s). rewrite rstrip_app_nonblank by assumption.
    reflexivity.
Qed.

Lemma strip_nil_iff (s : str) : strip s = [] <-> blank s = true.
Proof.
  unfold strip. rewrite rstrip_nil_iff.
  destruct (lstrip_suffix s) as [a [Ha Hs]].
  rewrite Hs at 2. rewrite blank_app, Ha. simpl. tauto.
Qed.

Lemma strip_app_blank_l (a s : str) :
  blank a = true -> strip (a ++ s) = strip s.
Proof. intros H; unfold strip; rewrite lstrip_app_blank; auto. Qed.

Lemma strip_app_blank_r (s b : str) :
  blank b = true -> strip (s ++ b) = strip s.
Proof.
  intros H. unfold strip. destruct (blank s) eqn:B.
  - rewrite lstrip_app_blank by assumption.
    apply lstrip_nil_iff in B. rewrite B.
    apply lstrip_nil_iff in H. simpl.
    apply rstrip_nil_iff. apply lstrip_nil_iff.
    rewrite lstrip_idem; assumption.
  - rewrite lstrip_app_nonblank by assumption.
    apply rstrip_app_blank; assumption.
Qed.

(** A string whose first and last characters are not white space is its
    own [strip]. *)
Lemma strip_fixed (x : char) (m : str) (r : str) (y : char) :
  x :: m = r ++ [y] -> isspace x = false -> isspace y = false ->
  strip (x :: m) = x :: m.
Proof.
  intros E Hx Hy. unfold strip. rewrite lstrip_nonspace by assumption.
  rewrite E. apply rstrip_snoc_nonspace; assumption.
Qed.

Lemma strip_shape (s : str) :
  strip s <> [] ->
  exists x m r y, strip s = x :: m /\ strip s = r ++ [y]
                  /\ isspace x = false /\ isspace y = false.
Proof.
  intros Hne. unfold strip in *.
  destruct (lstrip s) as [|x l] eqn:El.
  - exfalso; apply Hne; reflexivity.
  - pose proof (lstrip_head _ _ _ El) as Hx.
    rewrite (rstrip_cons_nonspace _ _ Hx) in *.
    destruct (@exists_last _ (x :: rstrip l)) as [r [y Hr]]; [discriminate|].
    exists x, (rstrip l), r, y. repeat split; auto.
    apply (rstrip_last (x :: l) r y).
    rewrite rstrip_cons_nonspace by assumption. exact Hr.
Qed.

Lemma strip_idem (s : str) : strip (strip s) = strip s.
Proof.
  destruct (strip s) as [|c l] eqn:E; [reflexivity|].
  destruct (strip_shape s) as [x [m [r [y [H1 [H2 [Hx Hy]]]]]]];
    [rewrite E; discriminate|].
  rewrite E in H1, H2. inversion H1; subst.
  eapply strip_fixed; eassumption.
Qed.

Lemma strip_lstrip (s : str) : strip (lstrip s) = strip s.
Proof. unfold strip; rewrite lstrip_idem; reflexivity. Qed.

Lemma strip_rstrip (s : str) : strip (rstrip s) = strip s.
Proof.
  destruct (rstrip_prefix s) as [b [Hb Hs]].
  rewrite Hs at 2. rewrite strip_app_blank_r by assumption. reflexivity.
Qed.

Lemma strip_nonblank (s : str) : blank s = false -> strip s <> [].
Proof. intros H E. apply strip_nil_iff in E. congruence. Qed.

Lemma nonempty_false {A : Type} (l : list A) : nonempty l = false <-> l = [].
Proof. destruct l; simpl; split; congruence. Qed.

Lemma nonempty_true {A : Type} (l : list A) : nonempty l = true <-> l <> [].
Proof. destruct l; simpl; split; congruence. Qed.

(** *** [split] and [join] on line feeds *)

Lemma split_not_nil (c : char) (s : str) : split c s <> [].
Proof.
  induction s as [|x s IH]; simpl; [discriminate|].
  destruct (x =? c)%N; [discriminate|].
  destruct (split c s); discriminate.
Qed.

Lemma join_cons (sep p : str) (ps : list str) :
  ps <> [] -> join sep (p :: ps) = p ++ sep ++ join sep ps.
Proof. destruct ps; [congruence | reflexivity]. Qed.

Lemma join_split (c : char) (s : str) : join [c] (split c s) = s.
Proof.
  induction s as [|x s IH]; simpl; [reflexivity|].
  destruct (x =? c)%N eqn:E.
  - apply N.eqb_eq in E; subst.
    rewrite join_cons by apply split_not_nil. simpl. f_equal. exact IH.
  - destruct (split c s) as [|l ls] eqn:Es.
    + exfalso; eapply split_not_nil; eassumption.
    + destruct ls as [|l' ls]; simpl in *; f_equal; exact IH.
Qed.

Lemma split_no_sep (c : char) (l : str) : ~ In c l -> split c l = [l].
Proof.
  induction l as [|x l IH]; simpl; intros H; [reflexivity|].
  destruct (x =? c)%N eqn:E.
  - apply N.eqb_eq in E. exfalso; apply H; left; assumption.
  - rewrite IH by tauto. reflexivity.
Qed.

Lemma split_app_sep (c : char) (l s : str) :
  ~ In c l -> split c (l ++ c :: s) = l :: split c s.
Proof.
  induction l as [|x l IH]; simpl; intros H.
  - rewrite N.eqb_refl. reflexivity.
  - destruct (x =? c)%N eqn:E.
    + apply N.eqb_eq in E. exfalso; apply H; left; assumption.
    + rewrite IH by tauto. reflexivity.
Qed.

Lemma split_join (c : char) (ls : list str) :
  ls <> [] -> Forall (fun l => ~ In c l) ls -> split c (join [c] ls) = ls.
Proof.
  induction ls as [|l ls IH]; intros Hne Hall; [congruence|].
  inversion Hall as [|? ? Hl Hls]; subst.
  destruct ls as [|l' ls].
  - simpl. apply split_no_sep; assumption.
  - rewrite join_cons by discriminate. simpl app.
    rewrite split_app_sep by assumption.
    f_equal. apply IH; [discriminate | assumption].
Qed.

Lemma split_lines_no_sep (c : char) (s : str) :
  Forall (fun l => ~ In c l) (split c s).
Proof.
  induction s as [|x s IH]; simpl.
  - constructor; [tauto | constructor].
  - destruct (x =? c)%N eqn:E.
    + constructor; [tauto | assumption].
    + destruct (split c s) as [|l ls]; [repeat constructor; simpl|].
      * intros [H|[]]. subst. rewrite N.eqb_refl in E; discriminate.
      * inversion IH; subst. constructor; [|assumption].
        simpl. intros [H|H]; [|contradiction].
        subst. rewrite N.eqb_refl in E; discriminate.
Qed.

(** *** [strip] on the lines of a text *)

Lemma isspace_NL : isspace NL = true.
Proof. reflexivity. Qed.

Lemma blank_join (ls : list str) :
  blank (join [NL] ls) = forallb blank ls.
Proof.
  induction ls as [|l ls IH]; [reflexivity|].
  destruct ls as [|l' ls].
  - simpl. rewrite andb_true_r. reflexivity.
  - rewrite join_cons by discriminate. rewrite !blank_app, IH.
    simpl. reflexivity.
Qed.

Lemma lstrip_join (ls : list str) :
  lstrip (join [NL] ls) = join [NL] (ltrim_lines ls).
Proof.
  induction ls as [|l ls IH]; [reflexivity|].
  destruct ls as [|l' ls].
  - simpl. destruct (blank l) eqn:B; simpl; [|reflexivity].
    apply lstrip_nil_iff; assumption.
  - rewrite join_cons by discriminate.
    cbn [ltrim_lines]. destruct (blank l) eqn:B.
    + rewrite lstrip_app_blank by assumption. simpl app.
      cbn [lstrip]. rewrite isspace_NL. exact IH.
    + rewrite lstrip_app_nonblank by assumption.
      rewrite (join_cons [NL] (lstrip l)) by discriminate. reflexivity.
Qed.

Lemma rtrim_lines_nil (ls : list str) :
  rtrim_lines ls = [] <-> forallb blank ls = true.
Proof.
  induction ls as [|l ls IH]; simpl; [tauto|].
  destruct (rtrim_lines ls) as [|r rs].
  - destruct (blank l); simpl.
    + tauto.
    + split; discriminate.
  - split; [discriminate|].
    rewrite andb_true_iff. intros [_ H]. apply IH in H. discriminate.
Qed.

Lemma rstrip_join (ls : list str) :
  rstrip (join [NL] ls) = join [NL] (rtrim_lines ls).
Proof.
  induction ls as [|l ls IH]; [reflexivity|].
  destruct ls as [|l' ls].
  - simpl. destruct (blank l) eqn:B; simpl; [|reflexivity].
    apply rstrip_nil_iff; assumption.
  - rewrite join_cons by discriminate.
    change (rtrim_lines (l :: l' :: ls))
      with (match rtrim_lines (l' :: ls) with
            | [] => if blank l then [] else [rstrip l]
            | r => l :: r
            end).
    destruct (rtrim_lines (l' :: ls)) as [|r rs] eqn:R.
    + assert (Hb : blank ([NL] ++ join [NL] (l' :: ls)) = true).
      { rewrite blank_app, blank_join. simpl.
        apply rtrim_lines_nil in R. exact R. }
      rewrite rstrip_app_blank by assumption.
      destruct (blank l) eqn:B; simpl; [|reflexivity].
      apply rstrip_nil_iff; assumption.
    + assert (Hb : blank (join [NL] (l' :: ls)) = false).
      { rewrite blank_join. destruct (forallb blank (l' :: ls)) eqn:F;
          [|reflexivity].
        apply rtrim_lines_nil in F. congruence. }
      rewrite app_assoc. rewrite rstrip_app_nonblank by assumption.
      rewrite IH. rewrite <- app_assoc.
      rewrite (join_cons [NL] l) by discriminate. reflexivity.
Qed.

Lemma strip_join (ls : list str) :
  strip (join [NL] ls) = join [NL] (trim_lines ls).
Proof. unfold strip, trim_lines. rewrite lstrip_join, rstrip_join. reflexivity. Qed.

Lemma ltrim_lines_Forall (P : str -> Prop) (ls : list str) :
  (forall l, P l -> P (lstrip l)) ->
  Forall P ls -> Forall P (ltrim_lines ls).
Proof.
  intros HP. induction 1 as [|l ls Hl Hls IH]; simpl; [constructor|].
  destruct (blank l); [assumption|]. constructor; auto.
Qed.

Lemma rtrim_lines_Forall (P : str -> Prop) (ls : list str) :
  (forall l, P l -> P (rstrip l)) ->
  Forall P ls -> Forall P (rtrim_lines ls).
Proof.
  intros HP. induction 1 as [|l ls Hl Hls IH]; simpl; [constructor|].
  destruct (rtrim_lines ls) as [|r rs].
  - destruct (blank l); constructor; auto.
  - constructor; assumption.
Qed.

Lemma trim_lines_Forall (P : str -> Prop) (ls : list str) :
  (forall l, P l -> P (lstrip l)) ->
  (forall l, P l -> P (rstrip l)) ->
  Forall P ls -> Forall P (trim_lines ls).
Proof.
  intros H1 H2 H. apply rtrim_lines_Forall; [assumption|].
  apply ltrim_lines_Forall; assumption.
Qed.

Lemma lstrip_incl (s : str) (c : char) : In c (lstrip s) -> In c s.
Proof.
  induction s as [|x s IH]; simpl; [tauto|].
  destruct (isspace x); simpl; tauto.
Qed.

Lemma rstrip_incl (s : str) (c : char) : In c (rstrip s) -> In c s.
Proof.
  unfold rstrip. intros H. apply in_rev in H. apply lstrip_incl in H.
  apply in_rev in H. assumption.
Qed.

Lemma strip_incl (s : str) (c : char) : In c (strip s) -> In c s.
Proof. intros H. apply lstrip_incl, rstrip_incl. exact H. Qed.

Lemma trim_lines_no_nl (ls : list str) :
  Forall no_nl ls -> Forall no_nl (trim_lines ls).
Proof.
  apply trim_lines_Forall; unfold no_nl; intros l H Hin; apply H.
  - apply lstrip_incl; assumption.
  - apply rstrip_incl; assumption.
Qed.

(** The lines of a stripped text. *)
Lemma split_strip_join (ls : list str) :
  Forall no_nl ls -> trim_lines ls <> [] ->
  split NL (strip (join [NL] ls)) = trim_lines ls.
Proof.
  intros Hnl Hne. rewrite strip_join.
  apply split_join; [assumption|].
  apply trim_lines_no_nl; assumption.
Qed.

Lemma trim_lines_nil (ls : list str) :
  trim_lines ls = [] <-> forallb blank ls = true.
Proof.
  unfold trim_lines. rewrite rtrim_lines_nil.
  induction ls as [|l ls IH]; simpl; [tauto|].
  destruct (blank l) eqn:B; simpl; [assumption|].
  split; [|discriminate].
  rewrite andb_true_iff. intros [H _].
  assert (blank l = true); [|congruence].
  destruct (lstrip_suffix l) as [a [Ha Hl]].
  rewrite Hl, blank_app, Ha, H. reflexivity.
Qed.

(** The first non-blank line survives [strip], up to its own [strip]. *)
Lemma find_ltrim_lines (ls : list str) (l : str) :
  find (fun line => nonempty (strip line)) ls = Some l ->
  exists rest, ltrim_lines ls = lstrip l :: rest.
Proof.
  induction ls as [|x ls IH]; simpl; [discriminate|].
  destruct (nonempty (strip x)) eqn:E.
  - intros H; inversion H; subst.
    assert (B : blank l = false).
    { destruct (blank l) eqn:B; [|reflexivity].
      apply strip_nil_iff in B. rewrite B in E. discriminate. }
    rewrite B. eauto.
  - apply nonempty_false in E. apply strip_nil_iff in E. rewrite E.
    exact IH.
Qed.

Lemma rtrim_lines_head (l : str) (rest : list str) :
  blank l = false ->
  exists l' rest', rtrim_lines (l :: rest) = l' :: rest'
                   /\ (l' = l \/ l' = rstrip l).
Proof.
  intros B. simpl. destruct (rtrim_lines rest) as [|r rs].
  - rewrite B. eauto.
  - eauto.
Qed.

Lemma find_trim_lines (ls : list str) (l : str) :
  find (fun line => nonempty (strip line)) ls = Some l ->
  exists l' rest, trim_lines ls = l' :: rest /\ strip l' = strip l
                  /\ blank l' = false.
Proof.
  intros H. pose proof (find_some _ _ H) as [_ Hl].
  apply nonempty_true in Hl.
  assert (Bl : blank (lstrip l) = false).
  { destruct (blank (lstrip l)) eqn:B; [|reflexivity].
    apply strip_nil_iff in B. rewrite strip_lstrip in B. congruence. }
  destruct (find_ltrim_lines _ _ H) as [rest Hr].
  unfold trim_lines. rewrite Hr.
  destruct (rtrim_lines_head (lstrip l) rest Bl) as [l' [rest' [E Hl']]].
  exists l', rest'. split; [assumption|].
  assert (S : strip l' = strip l).
  { destruct Hl' as [->| ->].
    - apply strip_lstrip.
    - rewrite strip_rstrip. apply strip_lstrip. }
  split; [assumption|].
  destruct (blank l') eqn:B; [|reflexivity].
  apply strip_nil_iff in B. congruence.
Qed.

Lemma format_header_first_line (content l : str) :
  find (fun line => nonempty (strip line)) (split NL content) = Some l ->
  _format_header_section content = py "# " ++ strip l.
Proof.
  intros H. unfold _format_header_section.
  rewrite <- (join_split NL content) at 1.
  destruct (find_trim_lines _ _ H) as [l' [rest [E [S B]]]].
  rewrite split_strip_join.
  - rewrite E. simpl find.
    assert (N : nonempty (strip l') = true).
    { apply nonempty_true. apply strip_nonblank; assumption. }
    rewrite N, S. reflexivity.
  - apply split_lines_no_sep.
  - rewrite E; discriminate.
Qed.

(** *** The loop of [_parse_markdown_content] *)

Lemma step_body (st : locals) (line : str) :
  is_header line = false ->
  header_found st = true \/ current_section st <> None ->
  step st line
  = mkLocals (sections st) (current_section st)
      (current_content st ++ [line]) (header_found st).
Proof.
  unfold is_header, step. intros -> H.
  destruct (header_found st); [reflexivity|].
  destruct (current_section st); [reflexivity|].
  destruct H; congruence.
Qed.

Lemma run_body (ls : list str) (st : locals) :
  Forall (fun l => is_header l = false) ls ->
  header_found st = true \/ current_section st <> None ->
  fold_left step ls st
  = mkLocals (sections st) (current_section st)
      (current_content st ++ ls) (header_found st).
Proof.
  revert st. induction ls as [|l ls IH]; intros st Hall Hst; simpl.
  - rewrite app_nil_r. destruct st; reflexivity.
  - inversion Hall; subst.
    rewrite step_body by assumption.
    rewrite IH; [|assumption|simpl; assumption].
    simpl. rewrite <- app_assoc. reflexivity.
Qed.

Lemma run_preamble (l : str) (ls : list str) :
  Forall (fun l => is_header l = false) (l :: ls) ->
  fold_left step (l :: ls) initial
  = mkLocals [] (Some (py "header")) (l :: ls) false.
Proof.
  intros Hall. inversion Hall as [|? ? Hl Hls]; subst. simpl.
  assert (E : step initial l = mkLocals [] (Some (py "header")) [l] false).
  { unfold step. unfold is_header in Hl. rewrite Hl. reflexivity. }
  rewrite E. rewrite run_body; [reflexivity | assumption |].
  right; simpl; discriminate.
Qed.

Lemma parse_no_header (content : str) :
  strip content <> [] ->
  (forall line, In line (split NL content) -> is_header line = false) ->
  _parse_markdown_content content = [(py "header", strip content)].
Proof.
  intros Hne Hall.
  unfold _parse_markdown_content, parse_lines, run.
  destruct (split NL content) as [|l ls] eqn:E.
  - exfalso; eapply split_not_nil; eassumption.
  - rewrite run_preamble by (apply Forall_forall; assumption).
    unfold save. cbn [current_section current_content sections].
    cbn [nonempty andb]. cbv iota. rewrite <- E, join_split.
    simpl dict_set. unfold clean. simpl filter.
    rewrite strip_idem.
    destruct (strip content); [congruence | reflexivity].
Qed.

(** *** C8 *)

(** C8. A document in which no line is a section header parses to the
    single section "header", whose body is the whole (trimmed) text; when
    its first line is plain text the formatter renders the document as the
    level-1 heading of that line. *)
Theorem C8_no_header_document (content : str) :
  strip content <> [] ->
  (forall line, In line (split NL content) -> is_header line = false) ->
  _parse_markdown_content content = [(py "header", strip content)]
  /\ (forall first rest template,
         split NL content = first :: rest -> blank first = false ->
         format_resume (_parse_markdown_content content) template
         = Return (py "# " ++ strip first)).
Proof.
  intros Hne Hall. split; [apply parse_no_header; assumption|].
  intros first rest template Hs Hb.
  rewrite parse_no_header by assumption.
  unfold format_resume. simpl negb. cbv iota.
  unfold _get_section_order. simpl.
  unfold _format_section.
  rewrite strip_idem.
  destruct (strip content) as [|c r] eqn:Es; [congruence|].
  cbn [nonempty negb]. cbv iota.
  change (str_eqb (py "header") (py "header")) with true. cbv iota.
  rewrite <- Es.
  assert (F : _format_header_section (strip content) = py "# " ++ strip first).
  { unfold _format_header_section. rewrite strip_idem.
    change (_format_header_section content = py "# " ++ strip first).
    apply format_header_first_line. rewrite Hs. simpl.
    assert (N : nonempty (strip first) = true)
      by (apply nonempty_true, strip_nonblank; assumption).
    rewrite N. reflexivity. }
  rewrite F. reflexivity.
Qed.

(** *** The matcher against the relation [sem] *)

Lemma cmatch_hash (x : char) : cmatch HASH x = true <-> x = 35%N.
Proof.
  unfold HASH, cmatch, lower_char, is_upper_ascii.
  rewrite N.eqb_eq. simpl.
  destruct ((65 <=? x)%N && (x <=? 90)%N) eqn:E.
  - apply andb_true_iff in E. destruct E as [E1 E2].
    apply N.leb_le in E1, E2. split; intros H; lia.
  - tauto.
Qed.

Lemma lower_char_idem (x : char) : lower_char (lower_char x) = lower_char x.
Proof.
  unfold lower_char, is_upper_ascii.
  destruct ((65 <=? x)%N && (x <=? 90)%N) eqn:E; [|rewrite E; reflexivity].
  apply andb_true_iff in E. destruct E as [E1 E2].
  apply N.leb_le in E1, E2.
  replace ((65 <=? x + 32)%N && (x + 32 <=? 90)%N) with false; [reflexivity|].
  symmetry. apply andb_false_iff. right. apply N.leb_gt. lia.
Qed.

Lemma isspace_not_cased (x : char) : is_cased x = true -> isspace x = false.
Proof.
  unfold is_cased, is_upper_ascii, is_lower_ascii, isspace.
  rewrite orb_true_iff, !andb_true_iff, !N.leb_le. intros H.
  repeat (apply orb_false_iff; split);
    try (apply andb_false_iff; rewrite !N.leb_gt; lia);
    try (apply N.eqb_neq; lia).
Qed.

Lemma isspace_lower_char (x : char) : isspace (lower_char x) = isspace x.
Proof.
  unfold lower_char. destruct (is_upper_ascii x) eqn:E; [|reflexivity].
  assert (C1 : is_cased x = true) by (unfold is_cased; rewrite E; reflexivity).
  assert (C2 : is_cased (x + 32)%N = true).
  { unfold is_cased, is_upper_ascii, is_lower_ascii in *.
    apply andb_true_iff in E. destruct E as [E1 E2].
    apply N.leb_le in E1, E2. apply orb_true_iff. right.
    apply andb_true_iff; split; apply N.leb_le; lia. }
  rewrite (isspace_not_cased _ C1), (isspace_not_cased _ C2). reflexivity.
Qed.

Lemma cmatch_letter (c x : char) :
  is_lower_ascii c = true -> cmatch (CLit c) x = true -> is_cased x = true.
Proof.
  unfold cmatch, lower_char, is_cased, is_upper_ascii, is_lower_ascii.
  intros Hc. apply andb_true_iff in Hc. destruct Hc as [H1 H2].
  apply N.leb_le in H1, H2.
  replace ((65 <=? c)%N && (c <=? 90)%N) with false
    by (symmetry; apply andb_false_iff; right; apply N.leb_gt; lia).
  destruct ((65 <=? x)%N && (x <=? 90)%N) eqn:E; [reflexivity|].
  rewrite N.eqb_eq. intros ->. simpl.
  apply andb_true_iff; split; apply N.leb_le; lia.
Qed.

Lemma lit_match_sound (l s s' : str) :
  lit_match l s = Some s' ->
  exists u, s = u ++ s' /\ lit_match l u = Some [].
Proof.
  revert s. induction l as [|c l IH]; intros s H.
  - simpl in H. inversion H; subst. exists []. split; reflexivity.
  - destruct s as [|x s]; [discriminate|]. simpl in H.
    destruct (lower_char x =? lower_char c)%N eqn:E; [|discriminate].
    destruct (IH _ H) as [u [Hs Hu]].
    exists (x :: u). split; [simpl; f_equal; assumption|].
    simpl. rewrite E. assumption.
Qed.

Lemma star_sound {A : Type} (cl : cclass) (s : str) (k : str -> option A)
  (a : A) :
  star cl s k = Some a ->
  exists u s', s = u ++ s' /\ forallb (cmatch cl) u = true /\ k s' = Some a.
Proof.
  induction s as [|x s IH]; simpl; intros H.
  - exists [], []. auto.
  - destruct (cmatch cl x) eqn:E.
    + destruct (star cl s k) as [a'|] eqn:Es.
      * inversion H; subst.
        destruct (IH eq_refl) as [u [s' [Hs [Hu Hk]]]].
        exists (x :: u), s'. simpl. rewrite E, Hu. subst. auto.
      * exists [], (x :: s). auto.
    + exists [], (x :: s). auto.
Qed.

Lemma firstn_app_length (u s' : str) :
  firstn (List.length (u ++ s') - List.length s') (u ++ s') = u.
Proof.
  rewrite length_app.
  replace (List.length u + List.length s' - List.length s')
    with (List.length u + 0) by lia.
  rewrite firstn_app_2. simpl. apply app_nil_r.
Qed.

Lemma rmatch_sound {A : Type} (r : regex) :
  forall (s : str) (g : option str) (k : str -> option str -> option A)
         (a : A),
    rmatch r s g k = Some a ->
    exists u s' g', s = u ++ s' /\ sem r u g g' /\ k s' g' = Some a.
Proof.
  induction r as [l|cl|cl|cl|r1 IH1 r2 IH2|r1 IH1 r2 IH2|r IH];
    intros s g k a H; simpl in H.
  - destruct (lit_match l s) as [s'|] eqn:E; [|discriminate].
    destruct (lit_match_sound _ _ _ E) as [u [Hs Hu]].
    exists u, s', g. repeat split; auto. constructor; assumption.
  - destruct s as [|x s]; [discriminate|].
    destruct (cmatch cl x) eqn:E; [|discriminate].
    destruct (star_sound _ _ _ _ H) as [u [s' [Hs [Hu Hk]]]].
    exists (x :: u), s', g. subst. repeat split; auto.
    constructor; [discriminate|]. simpl. rewrite E, Hu. reflexivity.
  - destruct (star_sound _ _ _ _ H) as [u [s' [Hs [Hu Hk]]]].
    exists u, s', g. repeat split; auto. constructor; assumption.
  - destruct s as [|x s].
    + exists [], [], g. repeat split; auto. constructor.
    + destruct (cmatch cl x) eqn:E.
      * destruct (k s g) as [a'|] eqn:Ek.
        -- inversion H; subst.
           exists [x], s, g. repeat split; auto. constructor; assumption.
        -- exists [], (x :: s), g. repeat split; auto. constructor.
      * exists [], (x :: s), g. repeat split; auto. constructor.
  - destruct (IH1 _ _ _ _ H) as [u1 [s1 [g1 [Hs1 [Hu1 Hk1]]]]].
    destruct (IH2 _ _ _ _ Hk1) as [u2 [s2 [g2 [Hs2 [Hu2 Hk2]]]]].
    exists (u1 ++ u2), s2, g2. subst. rewrite <- app_assoc.
    repeat split; auto. econstructor; eassumption.
  - destruct (rmatch r1 s g k) as [a'|] eqn:E.
    + inversion H; subst.
      destruct (IH1 _ _ _ _ E) as [u [s' [g' [Hs [Hu Hk]]]]].
      exists u, s', g'. repeat split; auto. apply sem_altl; assumption.
    + destruct (IH2 _ _ _ _ H) as [u [s' [g' [Hs [Hu Hk]]]]].
      exists u, s', g'. repeat split; auto. apply sem_altr; assumption.
  - destruct (IH _ _ _ _ H) as [u [s' [g' [Hs [Hu Hk]]]]].
    exists u, s', (Some u). subst. rewrite firstn_app_length in Hk.
    repeat split; auto. econstructor; eassumption.
Qed.

Lemma forallb_hash (h : str) :
  forallb (cmatch HASH) h = true -> h = repeat 35%N (List.length h).
Proof.
  induction h as [|x h IH]; simpl; [reflexivity|].
  rewrite andb_true_iff. intros [Hx Hh].
  apply cmatch_hash in Hx. subst. f_equal. auto.
Qed.

(** A match of [^#+\s*(body)] splits the text. *)
Lemma header_re_sound (body : regex) (s : str) (g : option str) :
  re_match (header_re body) s = Some g ->
  exists h w u rest gi,
    s = (35%N :: h) ++ w ++ u ++ rest
    /\ forallb (cmatch HASH) h = true
    /\ forallb isspace w = true
    /\ sem body u None gi
    /\ g = Some u.
Proof.
  unfold re_match. intros H.
  destruct (rmatch_sound _ _ _ _ _ H) as [u0 [s' [g' [Hs [Hsem Hk]]]]].
  inversion Hk; subst g'. clear Hk.
  unfold header_re in Hsem.
  inversion Hsem as [| | | | |? ? u1 u23 ? g1 ? H1 H23| | |]; subst.
  inversion H1 as [|? ? ? Hne Hh| | | | | | |]; subst.
  inversion H23 as [| | | | |? ? u2 u3 ? g2 ? H2 H3| | |]; subst.
  inversion H2 as [| |? ? ? Hw| | | | | |]; subst.
  inversion H3 as [| | | | | | | |? ? ? gi Hb]; subst.
  destruct u1 as [|x h]; [congruence|].
  simpl in Hh. apply andb_true_iff in Hh. destruct Hh as [Hx Hh].
  apply cmatch_hash in Hx. subst x.
  exists h, u2, u3, s', gi. rewrite <- !app_assoc. repeat split; auto.
Qed.

Lemma starts_with_letter_sem (r : regex) (u : str) (g g' : option str) :
  starts_with_letter r = true -> sem r u g g' ->
  exists x u', u = x :: u' /\ is_cased x = true.
Proof.
  intros Hr Hs. induction Hs; simpl in Hr; try discriminate.
  - destruct l as [|c l]; [discriminate|].
    destruct u as [|x u]; [discriminate|].
    simpl in H. destruct (lower_char x =? lower_char c)%N eqn:E;
      [|discriminate].
    exists x, u. split; [reflexivity|].
    eapply cmatch_letter; eassumption.
  - destruct (IHHs1 Hr) as [x [u' [-> Hx]]]. exists x, (u' ++ u2).
    split; [reflexivity | assumption].
  - apply andb_true_iff in Hr. tauto.
  - apply andb_true_iff in Hr. tauto.
  - auto.
Qed.

Lemma specific_bodies_letters :
  forallb starts_with_letter SPECIFIC_BODIES = true.
Proof. reflexivity. Qed.

Lemma section_patterns_bodies :
  SECTION_PATTERNS = map header_re (SPECIFIC_BODIES ++ [RPlus CDot]).
Proof. reflexivity. Qed.

(** *** Greedy iteration: where the matcher stops *)

Lemma run_split (p : char -> bool) (s : str) :
  exists run rest, s = run ++ rest /\ forallb p run = true
                   /\ head_fails p rest.
Proof.
  induction s as [|x s [run [rest [Hs [Hr Hh]]]]].
  - exists [], []. simpl. auto.
  - destruct (p x) eqn:E.
    + exists (x :: run), rest. simpl. rewrite E, Hr. subst. auto.
    + exists [], (x :: s). simpl. auto.
Qed.

Lemma star_head_fails {A : Type} (cl : cclass) (s : str)
  (k : str -> option A) :
  head_fails (cmatch cl) s -> star cl s k = k s.
Proof.
  destruct s as [|x s]; simpl; [reflexivity|]. intros ->. reflexivity.
Qed.

Lemma star_greedy {A : Type} (cl : cclass) (run rest : str)
  (k : str -> option A) (a : A) :
  forallb (cmatch cl) run = true -> head_fails (cmatch cl) rest ->
  k rest = Some a -> star cl (run ++ rest) k = Some a.
Proof.
  intros Hr Hh Hk. induction run as [|x run IH]; simpl.
  - rewrite star_head_fails; assumption.
  - simpl in Hr. apply andb_true_iff in Hr. destruct Hr as [Hx Hr].
    rewrite Hx, (IH Hr). reflexivity.
Qed.

Lemma star_exact {A : Type} (cl : cclass) (run rest : str)
  (k : str -> option A) :
  forallb (cmatch cl) run = true -> head_fails (cmatch cl) rest ->
  (forall q p, run = q ++ p -> p <> [] -> k (p ++ rest) = None) ->
  star cl (run ++ rest) k = k rest.
Proof.
  intros Hr Hh. induction run as [|x run IH]; intros Hk; simpl.
  - apply star_head_fails; assumption.
  - simpl in Hr. apply andb_true_iff in Hr. destruct Hr as [Hx Hr].
    rewrite Hx, (IH Hr).
    + destruct (k rest) eqn:E; [reflexivity|].
      apply (Hk [] (x :: run)); [reflexivity | discriminate].
    + intros q p Hq Hp. apply (Hk (x :: q) p); [|assumption].
      simpl; f_equal; assumption.
Qed.

Lemma star_backtrack_one {A : Type} (cl : cclass) (run : str) (c : char)
  (k : str -> option A) (a : A) :
  forallb (cmatch cl) (run ++ [c]) = true ->
  k [] = None -> k [c] = Some a -> star cl (run ++ [c]) k = Some a.
Proof.
  intros Hr H0 H1. induction run as [|x run IH]; simpl in *.
  - rewrite andb_true_r in Hr. rewrite Hr, H0. assumption.
  - apply andb_true_iff in Hr. destruct Hr as [Hx Hr].
    rewrite Hx, (IH Hr). reflexivity.
Qed.

Lemma star_accepts {A : Type} (cl : cclass) (s : str) (k : str -> option A) :
  (forall s', k s' <> None) -> star cl s k <> None.
Proof.
  intros Hk. induction s as [|x s IH]; simpl; [apply Hk|].
  destruct (cmatch cl x); [|apply Hk].
  destruct (star cl s k); [discriminate | contradiction].
Qed.

Lemma isspace_hash : isspace 35%N = false.
Proof. reflexivity. Qed.

Lemma space_not_hash (x : char) : isspace x = true -> cmatch HASH x = false.
Proof.
  intros H. destruct (cmatch HASH x) eqn:E; [|reflexivity].
  apply cmatch_hash in E. subst. discriminate.
Qed.

(** A body that starts with a letter fails on a text that does not. *)
Lemma letter_body_fails {A : Type} (body : regex) (s : str) (g : option str)
  (k : str -> option str -> option A) :
  starts_with_letter body = true -> head_fails is_cased s ->
  rmatch body s g k = None.
Proof.
  intros Hb Hs. destruct (rmatch body s g k) as [a|] eqn:E; [|reflexivity].
  destruct (rmatch_sound _ _ _ _ _ E) as [u [s' [g' [Hu [Hsem _]]]]].
  destruct (starts_with_letter_sem _ _ _ _ Hb Hsem) as [x [u' [-> Hx]]].
  subst s. simpl in Hs. congruence.
Qed.

Lemma rmatch_seq {A : Type} (r1 r2 : regex) (s : str) (g : option str)
  (k : str -> option str -> option A) :
  rmatch (RSeq r1 r2) s g k
  = rmatch r1 s g (fun s' g' => rmatch r2 s' g' k).
Proof. reflexivity. Qed.

Lemma rmatch_plus_cons {A : Type} (cl : cclass) (x : char) (s : str)
  (g : option str) (k : str -> option str -> option A) :
  cmatch cl x = true ->
  rmatch (RPlus cl) (x :: s) g k = star cl s (fun s'' => k s'' g).
Proof. intros H. simpl. rewrite H. reflexivity. Qed.

Lemma rmatch_star {A : Type} (cl : cclass) (s : str) (g : option str)
  (k : str -> option str -> option A) :
  rmatch (RStar cl) s g k = star cl s (fun s'' => k s'' g).
Proof. reflexivity. Qed.

Lemma rmatch_group {A : Type} (r : regex) (s : str) (g : option str)
  (k : str -> option str -> option A) :
  rmatch (RGroup r) s g k
  = rmatch r s g
      (fun s' _ => k s' (Some (firstn (List.length s - List.length s') s))).
Proof. reflexivity. Qed.

(** On [#...# white-space title] a specific pattern is decided by its body
    on the title. *)
Lemma header_re_exact (body : regex) (h w t : str) :
  starts_with_letter body = true ->
  forallb (cmatch HASH) h = true -> forallb isspace w = true ->
  head_fails (cmatch HASH) t -> head_fails isspace t ->
  re_match (header_re body) ((35%N :: h) ++ w ++ t)
  = rmatch (RGroup body) t None accept.
Proof.
  intros Hb Hh Hw Ht1 Ht2. unfold re_match, header_re.
  assert (K2 : forall x p, is_cased x = false ->
            rmatch (RGroup body) (x :: p) None accept = None).
  { intros x p Hx. rewrite rmatch_group.
    apply letter_body_fails; [assumption | exact Hx]. }
  rewrite rmatch_seq. simpl app.
  rewrite rmatch_plus_cons by reflexivity.
  rewrite star_exact; [| assumption | |].
  - rewrite rmatch_seq, rmatch_star.
    rewrite star_exact; [reflexivity | assumption | assumption |].
    intros q p Hq Hp. destruct p as [|x p]; [congruence|].
    assert (Hx : isspace x = true).
    { subst w. rewrite forallb_app in Hw. apply andb_true_iff in Hw.
      destruct Hw as [_ Hw]. simpl in Hw. apply andb_true_iff in Hw. tauto. }
    simpl app. apply K2.
    destruct (is_cased x) eqn:C; [|reflexivity].
    apply isspace_not_cased in C. congruence.
  - destruct w as [|x w]; simpl; [assumption|].
    simpl in Hw. apply andb_true_iff in Hw. destruct Hw as [Hx _].
    apply space_not_hash; assumption.
  - intros q p Hq Hp. destruct p as [|x p]; [congruence|].
    assert (Hx : x = 35%N).
    { subst h. rewrite forallb_app in Hh. apply andb_true_iff in Hh.
      destruct Hh as [_ Hh]. simpl in Hh. apply andb_true_iff in Hh.
      destruct Hh as [Hx _]. apply cmatch_hash; assumption. }
    subst x. rewrite rmatch_seq, rmatch_star. simpl app.
    rewrite star_head_fails by reflexivity.
    apply K2. reflexivity.
Qed.

(** *** The generic pattern [^#+\s*(.+)] *)

Lemma catch_all_match (s : str) (c : char) (rest r : str) (y : char) :
  s = 35%N :: c :: rest -> s = r ++ [y] -> isspace y = false ->
  exists u, re_match (header_re (RPlus CDot)) s = Some (Some u)
            /\ blank u = false.
Proof.
  intros Hs Hr Hy.
  destruct (run_split (cmatch HASH) (c :: rest)) as [h [r1 [E1 [Hh Hr1]]]].
  destruct (run_split isspace r1) as [w [t [E2 [Hw Ht]]]].
  unfold re_match, header_re. rewrite Hs.
  rewrite rmatch_seq, rmatch_plus_cons by reflexivity. rewrite E1.
  destruct t as [|x t'].
  - (* nothing but hashes *)
    rewrite app_nil_r in E2. subst r1.
    assert (Ew : w = []).
    { destruct w as [|x0 w0]; [reflexivity|]. exfalso.
      destruct (@exists_last _ (x0 :: w0)) as [w1 [z Hz]]; [discriminate|].
      rewrite Hz in *.
      rewrite Hs, E1 in Hr.
      change (35%N :: h ++ w1 ++ [z]) with ((35%N :: h) ++ w1 ++ [z]) in Hr.
      rewrite app_assoc in Hr. apply app_inj_tail in Hr.
      destruct Hr as [_ Hzy]. subst z.
      rewrite forallb_app in Hw. apply andb_true_iff in Hw.
      destruct Hw as [_ Hw]. simpl in Hw. rewrite Hy in Hw. discriminate. }
    subst w. rewrite app_nil_r in *.
    destruct (@exists_last _ h) as [h0 [z Hz]].
    { intros ->. discriminate. }
    rewrite Hz in Hh |- *.
    assert (Ez : z = 35%N).
    { rewrite forallb_app in Hh. apply andb_true_iff in Hh.
      destruct Hh as [_ Hh]. simpl in Hh. apply andb_true_iff in Hh.
      apply cmatch_hash. tauto. }
    subst z. exists [35%N]. split; [|reflexivity].
    apply star_backtrack_one; [assumption | reflexivity | reflexivity].
  - (* a title follows *)
    simpl in Ht.
    assert (Hx : cmatch CDot x = true).
    { simpl. destruct (x =? NL)%N eqn:E; [|reflexivity].
      apply N.eqb_eq in E. subst x. discriminate. }
    set (k3 := fun s'' : str =>
                 accept s''
                   (Some (firstn (List.length (x :: t') - List.length s'')
                            (x :: t')))).
    destruct (star CDot t' k3) as [a|] eqn:E3.
    + destruct (star_sound _ _ _ _ E3) as [u [s' [Hu [_ Hk]]]].
      assert (Ha : a = Some (x :: u)).
      { unfold k3, accept in Hk. rewrite Hu in Hk.
        change (x :: u ++ s') with ((x :: u) ++ s') in Hk.
        rewrite firstn_app_length in Hk. congruence. }
      exists (x :: u). split; [|simpl; rewrite Ht; reflexivity].
      apply star_greedy; [assumption | assumption |].
      rewrite rmatch_seq, rmatch_star. rewrite E2.
      apply star_greedy; [assumption | exact Ht |].
      rewrite rmatch_group, rmatch_plus_cons by assumption.
      change (star CDot t' k3 = Some (Some (x :: u))).
      rewrite E3, Ha. reflexivity.
    + exfalso. revert E3. apply star_accepts. intros s'. discriminate.
Qed.

(** *** Which lines are headers *)

Lemma blank_lower (s : str) : blank (lower s) = blank s.
Proof.
  induction s as [|c s IH]; simpl; [reflexivity|].
  rewrite isspace_lower_char. f_equal. exact IH.
Qed.

Lemma dict_get_cases (k : str) (d : dict) (dflt : str) :
  dict_get k d dflt = dflt \/ In (dict_get k d dflt) (map snd d).
Proof.
  induction d as [|[k' v] d IH]; simpl; [tauto|].
  destruct (str_eqb k' k); tauto.
Qed.

Lemma normalize_nonempty (name : str) :
  blank name = false -> nonempty (_normalize_section_name name) = true.
Proof.
  intros B. unfold _normalize_section_name.
  assert (N : strip (lower name) <> []).
  { apply strip_nonblank. rewrite blank_lower. assumption. }
  destruct (dict_get_cases (strip (lower name)) mappings (strip (lower name)))
    as [E|E].
  - rewrite E. apply nonempty_true. assumption.
  - assert (V : forallb nonempty (map snd mappings) = true) by reflexivity.
    rewrite forallb_forall in V. apply V. exact E.
Qed.

Lemma blank_strip (u : str) : blank u = false -> blank (strip u) = false.
Proof.
  intros B. destruct (blank (strip u)) eqn:E; [|reflexivity].
  apply strip_nil_iff in E. rewrite strip_idem in E.
  apply strip_nil_iff in E. congruence.
Qed.

Lemma first_match_some (ps : list regex) (s n : str) :
  first_match ps s = Some n ->
  exists p g, In p ps /\ re_match p s = Some g.
Proof.
  induction ps as [|p ps IH]; simpl; [discriminate|].
  destruct (re_match p s) as [g|] eqn:E.
  - intros _. exists p, g. auto.
  - intros H. destruct (IH H) as [p' [g [Hin Hm]]]. exists p', g. auto.
Qed.

Lemma first_match_truthy (ps : list regex) (s : str) :
  (forall p g, In p ps -> re_match p s = Some g ->
               exists u, g = Some u /\ blank u = false) ->
  (exists p, In p ps /\ re_match p s <> None) ->
  truthy (first_match ps s) = true.
Proof.
  induction ps as [|p ps IH]; intros Hall [p0 [Hin Hm]]; [contradiction|].
  simpl. destruct (re_match p s) as [g|] eqn:E.
  - destruct (Hall p g (or_introl eq_refl) E) as [u [-> B]].
    simpl. apply normalize_nonempty, blank_strip. assumption.
  - apply IH.
    + intros p' g Hp'. apply Hall. right; assumption.
    + destruct Hin as [->|Hin]; [congruence|]. eauto.
Qed.

Lemma section_pattern_cases (p : regex) :
  In p SECTION_PATTERNS ->
  (exists body, p = header_re body /\ starts_with_letter body = true)
  \/ p = header_re (RPlus CDot).
Proof.
  rewrite section_patterns_bodies, in_map_iff.
  intros [body [<- Hin]]. apply in_app_iff in Hin.
  destruct Hin as [Hin|[<-|[]]]; [left | right; reflexivity].
  exists body. split; [reflexivity|].
  pose proof specific_bodies_letters as H.
  rewrite forallb_forall in H. auto.
Qed.

(** A line is a header exactly when, trimmed, it is a "#" followed by at
    least one more character. *)
Lemma is_header_iff (line : str) :
  is_header line = true
  <-> exists c rest, strip line = 35%N :: c :: rest.
Proof.
  unfold is_header, _extract_section_name. split.
  - intros H. destruct (first_match SECTION_PATTERNS (strip line)) as [n|] eqn:E;
      [|discriminate].
    destruct (first_match_some _ _ _ E) as [p [g [Hin Hm]]].
    assert (Hbody : exists body, p = header_re body
                      /\ forall u gi, sem body u None gi -> u <> []).
    { destruct (section_pattern_cases _ Hin) as [[body [-> Hb]]| ->].
      - exists body. split; [reflexivity|]. intros u gi Hs.
        destruct (starts_with_letter_sem _ _ _ _ Hb Hs) as [x [u' [-> _]]].
        discriminate.
      - exists (RPlus CDot). split; [reflexivity|]. intros u gi Hs.
        inversion Hs; assumption. }
    destruct Hbody as [body [-> Hne]].
    destruct (header_re_sound _ _ _ Hm)
      as [h [w [u [rest [gi [Hs [_ [_ [Hsem _]]]]]]]]].
    rewrite Hs. simpl.
    destruct (h ++ w ++ u ++ rest) as [|c rest'] eqn:E2; [|eauto].
    exfalso. apply app_eq_nil in E2. destruct E2 as [_ E2].
    apply app_eq_nil in E2. destruct E2 as [_ E2].
    apply app_eq_nil in E2. destruct E2 as [E2 _].
    exact (Hne _ _ Hsem E2).
  - intros [c [rest Hs]].
    destruct (strip_shape line) as [x [m [r [y [H1 [H2 [Hx Hy]]]]]]];
      [rewrite Hs; discriminate|].
    destruct (catch_all_match (strip line) c rest r y Hs H2 Hy) as [u0 [Hm0 B0]].
    apply first_match_truthy.
    + intros p g Hin Hm.
      destruct (section_pattern_cases _ Hin) as [[body [-> Hb]]| ->].
      * destruct (header_re_sound _ _ _ Hm)
          as [h [w [u [rest' [gi [_ [_ [_ [Hsem ->]]]]]]]]].
        exists u. split; [reflexivity|].
        destruct (starts_with_letter_sem _ _ _ _ Hb Hsem) as [x0 [u' [-> Hc]]].
        simpl. rewrite (isspace_not_cased _ Hc). reflexivity.
      * rewrite Hm0 in Hm. inversion Hm; subst. eauto.
    + exists (header_re (RPlus CDot)). split.
      * rewrite section_patterns_bodies. apply in_map, in_app_iff.
        right; left; reflexivity.
      * rewrite Hm0. discriminate.
Qed.

Lemma is_header_strip (line : str) : is_header (strip line) = is_header line.
Proof.
  unfold is_header, _extract_section_name. rewrite strip_idem. reflexivity.
Qed.

Lemma is_header_false_iff (line : str) :
  is_header line = false
  <-> strip line = [] \/ strip line = [35%N]
      \/ exists x m, strip line = x :: m /\ x <> 35%N.
Proof.
  split.
  - intros H. destruct (strip line) as [|x m] eqn:E; [tauto|].
    destruct (N.eq_dec x 35) as [->|Hx].
    + destruct m as [|c rest]; [tauto|]. exfalso.
      assert (T : is_header line = true)
        by (apply is_header_iff; rewrite E; eauto).
      congruence.
    + right; right. eauto.
  - intros H. destruct (is_header line) eqn:E; [|reflexivity].
    apply is_header_iff in E. destruct E as [c [rest E]].
    destruct H as [H|[H|[x [m [H Hx]]]]]; rewrite H in E;
      try discriminate.
    inversion E; congruence.
Qed.

(** *** The matcher under a character map that the classes do not see *)

Section CharMap.

Variable phi : char -> char.
Hypothesis phi_cmatch : forall cl x, cmatch cl (phi x) = cmatch cl x.

Lemma lit_match_map (l s : str) :
  lit_match l (map phi s) = option_map (map phi) (lit_match l s).
Proof.
  revert s. induction l as [|c l IH]; intros s; [reflexivity|].
  destruct s as [|x s]; [reflexivity|].
  cbn [map lit_match]. rewrite phi_cmatch.
  destruct (cmatch (CLit c) x); [apply IH | reflexivity].
Qed.

Lemma star_map {A B : Type} (f : A -> B) (cl : cclass) (s : str)
  (k : str -> option A) (k' : str -> option B) :
  (forall s', k' (map phi s') = option_map f (k s')) ->
  star cl (map phi s) k' = option_map f (star cl s k).
Proof.
  intros Hk. induction s as [|x s IH]; [apply (Hk [])|].
  cbn [map star]. rewrite phi_cmatch.
  destruct (cmatch cl x); [|apply (Hk (x :: s))].
  rewrite IH. destruct (star cl s k); [reflexivity|].
  apply (Hk (x :: s)).
Qed.

Lemma rmatch_map {A B : Type} (f : A -> B) (r : regex) :
  forall (s : str) (g : option str)
         (k : str -> option str -> option A)
         (k' : str -> option str -> option B),
    (forall s' g', k' (map phi s') (option_map (map phi) g')
                   = option_map f (k s' g')) ->
    rmatch r (map phi s) (option_map (map phi) g) k'
    = option_map f (rmatch r s g k).
Proof.
  induction r as [l|cl|cl|cl|r1 IH1 r2 IH2|r1 IH1 r2 IH2|r IH];
    intros s g k k' Hk; cbn [rmatch].
  - rewrite lit_match_map. destruct (lit_match l s); [apply Hk | reflexivity].
  - destruct s as [|x s]; [reflexivity|]. cbn [map]. rewrite phi_cmatch.
    destruct (cmatch cl x); [|reflexivity].
    apply star_map. intros s'. apply Hk.
  - apply star_map. intros s'. apply Hk.
  - destruct s as [|x s]; [apply (Hk [])|]. cbn [map]. rewrite phi_cmatch.
    destruct (cmatch cl x); [|apply (Hk (x :: s))].
    rewrite (Hk s g). destruct (k s g); [reflexivity|].
    apply (Hk (x :: s)).
  - apply IH1. intros s' g'. apply IH2. assumption.
  - rewrite (IH1 s g k k' Hk). destruct (rmatch r1 s g k); [reflexivity|].
    apply IH2; assumption.
  - apply IH. intros s' g'. cbv beta.
    rewrite !length_map, firstn_map.
    apply (Hk s' (Some (firstn (List.length s - List.length s') s))).
Qed.

End CharMap.

Lemma map_id_str (s : str) : map (fun x : char => x) s = s.
Proof. apply map_id. Qed.

(** The group of a body is the part of the text it consumed. *)
Lemma group_by_consume (body : regex) (t : str) :
  rmatch (RGroup body) t None accept
  = option_map
      (fun rest => Some (firstn (List.length t - List.length rest) t))
      (consume body t).
Proof.
  rewrite rmatch_group. unfold consume.
  pose proof (rmatch_map (fun x : char => x) (fun _ _ => eq_refl)
                (fun rest => Some (firstn (List.length t - List.length rest) t))
                body t None (fun s' _ => Some s')
                (fun s' _ => accept s'
                   (Some (firstn (List.length t - List.length s') t)))) as H.
  rewrite map_id_str in H. apply H.
  intros s' g'. rewrite map_id_str. reflexivity.
Qed.

(** *** Case-insensitivity *)

Lemma cmatch_lower (cl : cclass) (x : char) :
  cmatch cl (lower_char x) = cmatch cl x.
Proof.
  destruct cl as [c| |]; simpl.
  - rewrite lower_char_idem. reflexivity.
  - apply isspace_lower_char.
  - f_equal. unfold lower_char, is_upper_ascii.
    destruct ((65 <=? x)%N && (x <=? 90)%N) eqn:E; [|reflexivity].
    apply andb_true_iff in E. destruct E as [E1 E2].
    apply N.leb_le in E1, E2.
    replace (x =? NL)%N with false
      by (symmetry; apply N.eqb_neq; unfold NL; lia).
    apply N.eqb_neq. unfold NL. lia.
Qed.

Lemma re_match_lower (p : regex) (s : str) :
  re_match p (lower s) = option_map (option_map lower) (re_match p s).
Proof.
  unfold re_match, lower.
  apply (rmatch_map lower_char cmatch_lower (option_map (map lower_char))
           p s None).
  intros s' g'. reflexivity.
Qed.

Lemma sub_hashes_lower (s : str) : sub_hashes (lower s) = lower (sub_hashes s).
Proof.
  unfold sub_hashes, lower.
  assert (H : rmatch (RSeq (RPlus (CLit 35%N)) (RStar CSpace))
                (map lower_char s) None (fun s' _ => Some s')
              = option_map (map lower_char)
                  (rmatch (RSeq (RPlus (CLit 35%N)) (RStar CSpace)) s None
                     (fun s' _ => Some s'))).
  { apply (rmatch_map lower_char cmatch_lower (map lower_char)
             (RSeq (RPlus (CLit 35%N)) (RStar CSpace)) s None).
    intros s' g'. reflexivity. }
  rewrite H.
  destruct (rmatch (RSeq (RPlus (CLit 35%N)) (RStar CSpace)) s None
              (fun s' _ => Some s')); reflexivity.
Qed.

Lemma lstrip_lower (s : str) : lstrip (lower s) = lower (lstrip s).
Proof.
  induction s as [|x s IH]; [reflexivity|].
  cbn [lower map lstrip]. rewrite isspace_lower_char.
  destruct (isspace x); [exact IH | reflexivity].
Qed.

Lemma strip_lower (s : str) : strip (lower s) = lower (strip s).
Proof.
  unfold strip, rstrip. rewrite lstrip_lower.
  unfold lower. rewrite <- map_rev.
  change (map lower_char (rev (lstrip s))) with (lower (rev (lstrip s))).
  rewrite lstrip_lower. unfold lower. rewrite map_rev. reflexivity.
Qed.

Lemma lower_idem (s : str) : lower (lower s) = lower s.
Proof.
  unfold lower. rewrite map_map. apply map_ext. apply lower_char_idem.
Qed.

Lemma normalize_lower (name : str) :
  _normalize_section_name (lower name) = _normalize_section_name name.
Proof. unfold _normalize_section_name. rewrite lower_idem. reflexivity. Qed.

Lemma first_match_lower (ps : list regex) (s : str) :
  first_match ps (lower s) = first_match ps s.
Proof.
  induction ps as [|p ps IH]; [reflexivity|].
  cbn [first_match]. rewrite re_match_lower, IH.
  destruct (re_match p s) as [[g|]|]; cbn [option_map]; [| |reflexivity].
  - rewrite strip_lower, normalize_lower. reflexivity.
  - rewrite sub_hashes_lower, strip_lower, normalize_lower. reflexivity.
Qed.

(** Header recognition does not see the case of the letters. *)
Lemma extract_lower (line : str) :
  _extract_section_name (lower line) = _extract_section_name line.
Proof.
  unfold _extract_section_name.
  rewrite strip_lower. apply first_match_lower.
Qed.

Lemma C8_no_header_document_witness :
  strip (py "Jane Doe\nEngineer") <> []
  /\ (forall line, In line (split NL (py "Jane Doe\nEngineer")) ->
                   is_header line = false)
  /\ _parse_markdown_content (py "Jane Doe\nEngineer")
     = [(py "header", py "Jane Doe\nEngineer")]
  /\ format_resume (_parse_markdown_content (py "Jane Doe\nEngineer"))
       (py "default")
     = Return (py "# Jane Doe").
Proof.
  assert (H1 : strip (py "Jane Doe\nEngineer") <> [])
    by (vm_compute; discriminate).
  assert (H2 : forall line, In line (split NL (py "Jane Doe\nEngineer")) ->
                            is_header line = false).
  { intros line [<-|[<-|[]]]; reflexivity. }
  destruct (C8_no_header_document (py "Jane Doe\nEngineer") H1 H2) as [P F].
  split; [exact H1|]. split; [exact H2|]. split; [exact P|].
  exact (F (py "Jane Doe") [py "Engineer"] (py "default") eq_refl eq_refl).
Defined.

(** *** C10 *)

Lemma step_not_header (st : locals) (line : str) :
  is_header line = false -> step st line = accumulate st line.
Proof. unfold is_header, step, accumulate. intros ->. reflexivity. Qed.

Lemma step_header (st : locals) (line : str) :
  is_header line = true ->
  exists name, _extract_section_name line = Some name /\ name <> []
               /\ step st line = open_section st name.
Proof.
  unfold is_header, step, open_section. intros H. rewrite H.
  destruct (_extract_section_name line) as [name|]; [|discriminate].
  exists name. split; [reflexivity|]. split; [|reflexivity].
  simpl in H. apply nonempty_true; assumption.
Qed.

(** C10 as stated fails: the line "##   " is made of "#" and white space
    only, yet the parser takes it for a header, named "#", and opens a new
    section instead of accumulating the line. *)
Lemma C10_two_hashes_counterexample :
  hashes_and_spaces (py "##   ") = true
  /\ _extract_section_name (py "##   ") = Some (py "#")
  /\ step initial (py "##   ") = open_section initial (py "#")
  /\ step initial (py "##   ") <> accumulate initial (py "##   ").
Proof.
  split; [reflexivity|]. split; [reflexivity|]. split; [reflexivity|].
  vm_compute. discriminate.
Qed.

(** C10, amended.  Among the lines made of "#" and white space only, the
    parser does not take a line for a header exactly when, trimmed, it is a
    single "#" (or nothing): such a line is accumulated into the current
    body, or into the implicit "header" section.  Every other such line
    (two or more "#") is a header and opens a new section. *)
Theorem C10_lone_hash (line : str) :
  hashes_and_spaces line = true ->
  (is_header line = false <-> strip line = py "#" \/ strip line = [])
  /\ (strip line = py "#" ->
      _extract_section_name line = None
      /\ forall st, step st line = accumulate st line)
  /\ (is_header line = true ->
      exists name, _extract_section_name line = Some name /\ name <> []
                   /\ forall st, step st line = open_section st name).
Proof.
  intros Hhs.
  assert (Hiff : is_header line = false
                 <-> strip line = py "#" \/ strip line = []).
  { rewrite is_header_false_iff. split.
    - intros [H|[H|[x [m [H Hx]]]]]; [tauto | tauto |]. exfalso.
      assert (Hin : In x line)
        by (apply strip_incl; rewrite H; left; reflexivity).
      unfold hashes_and_spaces in Hhs. rewrite forallb_forall in Hhs.
      specialize (Hhs x Hin). apply orb_true_iff in Hhs.
      destruct Hhs as [Hh|Hs]; [apply N.eqb_eq in Hh; contradiction|].
      destruct (strip_shape line) as [x' [m' [r [y [H1 [_ [Hx' _]]]]]]];
        [rewrite H; discriminate|].
      rewrite H in H1. inversion H1; subst. congruence.
    - intros [H|H]; tauto. }
  split; [exact Hiff|]. split.
  - intros Hs.
    assert (Hn : is_header line = false) by (apply Hiff; tauto).
    split.
    + unfold _extract_section_name. rewrite Hs. reflexivity.
    + intros st. apply step_not_header; assumption.
  - intros Hh. destruct (step_header initial line Hh) as [name [He [Hne _]]].
    exists name. split; [assumption|]. split; [assumption|].
    intros st. destruct (step_header st line Hh) as [name' [He' [_ Hs]]].
    congruence.
Qed.

Lemma C10_lone_hash_witness :
  hashes_and_spaces (py " # ") = true
  /\ strip (py " # ") = py "#"
  /\ _extract_section_name (py " # ") = None
  /\ step initial (py " # ")
     = mkLocals [] (Some (py "header")) [py " # "] false.
Proof.
  assert (H : hashes_and_spaces (py " # ") = true) by reflexivity.
  destruct (C10_lone_hash (py " # ") H) as [_ [H2 _]].
  destruct (H2 eq_refl) as [He Hs].
  split; [exact H|]. split; [reflexivity|]. split; [exact He|].
  rewrite Hs. reflexivity.
Defined.

(** *** The specific patterns on a title that begins with a synonym *)

Lemma consume_alt (r1 r2 : regex) (t : str) :
  consume (RAlt r1 r2) t
  = match consume r1 t with Some r => Some r | None => consume r2 t end.
Proof. reflexivity. Qed.

Lemma consume_plural (a : string) (t : str) :
  consume (plural a) t
  = match lit_match (py a) t with
    | Some r => Some (opt_s r)
    | None => None
    end.
Proof.
  unfold consume, plural, word, opt_s. cbn [rmatch].
  destruct (lit_match (py a) t) as [[|x r]|]; try reflexivity.
  destruct (cmatch (CLit 115%N) x); reflexivity.
Qed.

Arguments opt_s : simpl never.

Lemma first_match_bodies (bodies more : list regex) (h w t : str) :
  forallb starts_with_letter bodies = true ->
  forallb (cmatch HASH) h = true -> forallb isspace w = true ->
  head_fails (cmatch HASH) t -> head_fails isspace t ->
  first_match (map header_re bodies ++ more) ((35%N :: h) ++ w ++ t)
  = match first_consume bodies t with
    | Some rest =>
        Some (_normalize_section_name
                (strip (firstn (List.length t - List.length rest) t)))
    | None => first_match more ((35%N :: h) ++ w ++ t)
    end.
Proof.
  intros Hb Hh Hw Ht1 Ht2. induction bodies as [|b bodies IH]; [reflexivity|].
  simpl in Hb. apply andb_true_iff in Hb. destruct Hb as [Hb Hbs].
  cbn [map app first_match first_consume].
  change (35%N :: h ++ w ++ t) with ((35%N :: h) ++ w ++ t).
  rewrite header_re_exact by assumption.
  rewrite group_by_consume.
  destruct (consume b t) as [rest|]; cbn [option_map]; [reflexivity|].
  apply IH; assumption.
Qed.

Lemma lowered_s (x : char) :
  lower_char x = x -> cmatch (CLit 115%N) x = true -> x = 115%N.
Proof.
  unfold cmatch. intros ->. rewrite N.eqb_eq. intros ->. reflexivity.
Qed.

Ltac consumed g rest :=
  exists g, rest;
  split; [reflexivity|];
  split; [ simpl; rewrite ?consume_alt, ?consume_plural; simpl;
           unfold opt_s;
           repeat match goal with
                  | E : cmatch _ _ = _ |- _ => rewrite E
                  end;
           reflexivity
         | vm_compute; reflexivity ].

Ltac consumed_optional_s syn R Hlow :=
  destruct R as [|?x ?R'];
  [ consumed syn (@nil char)
  | match goal with
    | |- context [syn ++ ?x :: ?R'] =>
        let E := fresh "E" in
        destruct (cmatch (CLit 115%N) x) eqn:E;
        [ assert (x = 115%N)
            by (apply lowered_s; [inversion Hlow; assumption | exact E]);
          subst x; clear E; consumed (syn ++ [115%N]) R'
        | consumed syn (x :: R') ]
    end ].

(** On a lower-case title that begins with a recognized synonym, one of
    the specific patterns matches, and what its group captures normalizes
    to the canonical name of the synonym. *)
Lemma synonym_consumed (syn R : str) :
  In syn RECOGNIZED_SYNONYMS ->
  Forall (fun x => lower_char x = x) R ->
  exists g rest,
    syn ++ R = g ++ rest
    /\ first_consume SPECIFIC_BODIES (syn ++ R) = Some rest
    /\ _normalize_section_name (strip g) = canonical syn.
Proof.
  intros Hin Hlow. unfold RECOGNIZED_SYNONYMS in Hin.
  repeat (destruct Hin as [<-|Hin];
          [ match goal with
            | |- exists g rest, ?syn ++ _ = _ /\ _ =>
                first [ consumed syn R
                      | consumed (py "contact") (py " information" ++ R)
                      | consumed_optional_s syn R Hlow ]
            end
          | ]).
  contradiction.
Qed.

(** *** C9 *)

Lemma synonyms_letter (syn : str) :
  In syn RECOGNIZED_SYNONYMS ->
  exists c s', syn = c :: s' /\ is_lower_ascii c = true.
Proof.
  intros Hin.
  assert (H : forallb (fun s => match s with
                                | c :: _ => is_lower_ascii c
                                | [] => false
                                end) RECOGNIZED_SYNONYMS = true)
    by reflexivity.
  rewrite forallb_forall in H. specialize (H syn Hin).
  destruct syn as [|c s']; [discriminate|]. eauto.
Qed.

Lemma lower_hashes (hs : str) :
  forallb (N.eqb 35%N) hs = true ->
  lower hs = hs /\ forallb (cmatch HASH) hs = true.
Proof.
  induction hs as [|x hs IH]; [simpl; auto|]. cbn [forallb].
  rewrite andb_true_iff. intros [Hx Hh]. apply N.eqb_eq in Hx. subst x.
  destruct (IH Hh) as [E1 E2]. rewrite E2. cbn [lower map].
  fold (lower hs). rewrite E1. split; reflexivity.
Qed.

Lemma lower_spaces (ws : str) :
  forallb isspace ws = true -> forallb isspace (lower ws) = true.
Proof.
  intros H. change (blank (lower ws) = true). rewrite blank_lower. exact H.
Qed.



(** *** Documents made of header blocks *)

Lemma dict_set_fresh (k v : str) (d : dict) :
  ~ In k (keys d) -> dict_set k v d = d ++ [(k, v)].
Proof.
  induction d as [|[k' v'] d IH]; simpl; intros H; [reflexivity|].
  destruct (str_eqb k' k) eqn:E.
  - apply str_eqb_eq in E. exfalso; apply H; left; assumption.
  - rewrite IH by tauto. reflexivity.
Qed.

Lemma keys_app (d1 d2 : dict) : keys (d1 ++ d2) = keys d1 ++ keys d2.
Proof. apply map_app. Qed.

Lemma clean_app (d1 d2 : dict) : clean (d1 ++ d2) = clean d1 ++ clean d2.
Proof. apply filter_app. Qed.

Lemma save_commit (d : dict) (name : str) (lines : list str) (hf : bool) :
  save (mkLocals d (Some name) lines hf) = commit d name lines.
Proof. reflexivity. Qed.

Lemma step_open (st : locals) (line name : str) :
  _extract_section_name line = Some name -> name <> [] ->
  step st line = open_section st name.
Proof.
  intros H Hne. unfold step, open_section. rewrite H. simpl.
  destruct name; [congruence | reflexivity].
Qed.

Lemma canonical_names_nonempty (n : str) : In n CANONICAL_NAMES -> n <> [].
Proof.
  intros H E. subst n. revert H. unfold CANONICAL_NAMES. simpl.
  intuition discriminate.
Qed.

Lemma run_blocks (blocks : list header_block) (names : list str) (st : locals) :
  Forall2 (fun b n =>
             _extract_section_name (fst b) = Some n
             /\ In n CANONICAL_NAMES
             /\ no_nl (fst b)
             /\ Forall (fun l => is_header l = false /\ no_nl l) (snd b))
    blocks names ->
  save (fold_left step (List.concat (map block_lines blocks)) st)
  = fold_left (fun d nb => commit d (fst nb) (snd nb))
      (combine names (map snd blocks)) (save st).
Proof.
  intros H. revert st.
  induction H as [|[h b] n blocks names [He [Hc [_ Hb]]] _ IH]; intros st.
  - reflexivity.
  - cbn [map List.concat block_lines fst snd combine fold_left].
    rewrite fold_left_app. unfold block_lines at 2.
    cbn [fst snd fold_left] in *.
    rewrite (step_open st h n He (canonical_names_nonempty n Hc)).
    rewrite (run_body b (open_section st n)).
    + unfold open_section.
      cbn [sections current_section current_content header_found app].
      rewrite IH. rewrite save_commit. reflexivity.
    + eapply Forall_impl; [|exact Hb]. intros l [Hl _]. exact Hl.
    + left. reflexivity.
Qed.

Lemma clean_fold_commit (entries : list (str * list str)) (d : dict) :
  NoDup (map fst entries) ->
  (forall n, In n (map fst entries) -> n <> [] /\ ~ In n (keys d)) ->
  clean (fold_left (fun d nb => commit d (fst nb) (snd nb)) entries d)
  = clean d
    ++ clean (map (fun nb => (fst nb, strip (join [NL] (snd nb)))) entries).
Proof.
  revert d. induction entries as [|[n b] entries IH]; intros d Hnd Hfresh.
  - simpl. rewrite app_nil_r. reflexivity.
  - cbn [fold_left map fst snd] in *.
    inversion Hnd as [|? ? Hn Hnd']; subst.
    destruct (Hfresh n (or_introl eq_refl)) as [Hne Hnot].
    unfold commit at 2. cbn [fst snd].
    destruct n as [|c n]; [congruence|]. cbn [nonempty andb].
    destruct b as [|l b]; cbn [nonempty].
    + rewrite IH; [|assumption|].
      * unfold clean at 3. cbn [filter snd join]. reflexivity.
      * intros n' Hn'. apply Hfresh. right; assumption.
    + rewrite dict_set_fresh by assumption.
      rewrite IH; [|assumption|].
      * rewrite clean_app, <- app_assoc. f_equal. symmetry.
        apply (clean_app [(c :: n, strip (join [NL] (l :: b)))]).
      * intros n' Hn'. destruct (Hfresh n' (or_intror Hn')) as [H1 H2].
        split; [assumption|]. rewrite keys_app, in_app_iff. simpl.
        intros [H|[H|[]]]; [contradiction|]. subst n'. contradiction.
Qed.

Lemma blank_not_header (l : str) : blank l = true -> is_header l = false.
Proof.
  intros B. apply is_header_false_iff. left. apply strip_nil_iff; assumption.
Qed.

Lemma combine_map_snd (names : list str) (blocks : list header_block) :
  map (fun nb : str * list str => (fst nb, strip (join [NL] (snd nb))))
    (combine names (map snd blocks))
  = combine names (map block_body blocks).
Proof.
  revert blocks. induction names as [|n names IH]; intros [|b blocks];
    simpl; try reflexivity.
  rewrite IH. reflexivity.
Qed.

Lemma strip_nonempty_idem (v : str) :
  nonempty (strip (strip v)) = nonempty (strip v).
Proof. rewrite strip_idem. reflexivity. Qed.


(** *** What the parser stores *)

Lemma dict_set_keys (k v : str) (d : dict) :
  keys (dict_set k v d) = if mem k (keys d) then keys d else keys d ++ [k].
Proof.
  induction d as [|[k' v'] d IH]; [reflexivity|].
  cbn [dict_set keys map fst mem existsb]. rewrite (str_eqb_sym k k').
  destruct (str_eqb k' k) eqn:E; [reflexivity|].
  cbn [orb map fst]. fold (keys (dict_set k v d)) (keys d). rewrite IH.
  unfold mem. destruct (existsb (str_eqb k) (keys d)); reflexivity.
Qed.

Lemma dict_set_wf (k v : str) (d : dict) :
  wf_dict d -> wf_dict (dict_set k v d).
Proof.
  unfold wf_dict. intros H. rewrite dict_set_keys.
  destruct (mem k (keys d)) eqn:E; [assumption|].
  apply NoDup_app; [assumption | repeat constructor; intros [] |].
  intros x Hx [Hk|[]]. subst x. apply mem_In in Hx. congruence.
Qed.

Lemma dict_set_Forall (P : str * str -> Prop) (k v : str) (d : dict) :
  (forall k', P (k', v)) -> Forall P d -> Forall P (dict_set k v d).
Proof.
  intros Hv. induction 1 as [|[k' v'] d Hx Hd IH]; simpl.
  - constructor; [apply Hv | constructor].
  - destruct (str_eqb k' k); constructor; auto.
Qed.

Lemma save_inv (st : locals) :
  parse_inv st ->
  wf_dict (save st) /\ Forall (fun kv => body_ok (snd kv)) (save st).
Proof.
  intros [Hwf [Hb Hc]]. unfold save.
  destruct (current_section st) as [name|]; [|auto].
  destruct (nonempty name && nonempty (current_content st)); [|auto].
  split; [apply dict_set_wf; assumption|].
  apply dict_set_Forall; [|assumption].
  intros k'. cbn [snd]. exists (current_content st). auto.
Qed.

Lemma step_inv (st : locals) (line : str) :
  no_nl line -> parse_inv st -> parse_inv (step st line).
Proof.
  intros Hnl Hinv. unfold step.
  destruct (truthy (_extract_section_name line)) eqn:E.
  - destruct (save_inv st Hinv) as [H1 H2].
    repeat split; cbn; auto.
  - assert (Hl : line_ok line) by (split; [exact E | exact Hnl]).
    destruct Hinv as [Hwf [Hb Hc]].
    destruct (header_found st).
    + repeat split; cbn; auto. apply Forall_app; auto.
    + destruct (current_section st).
      * repeat split; cbn; auto. apply Forall_app; auto.
      * repeat split; cbn; auto.
Qed.

Lemma run_inv (lines : list str) (st : locals) :
  Forall no_nl lines -> parse_inv st -> parse_inv (fold_left step lines st).
Proof.
  revert st. induction lines as [|l lines IH]; intros st Hl Hst; [assumption|].
  inversion Hl; subst. simpl. apply IH; [assumption|].
  apply step_inv; assumption.
Qed.

Lemma filter_keys_nodup (f : str * str -> bool) (d : dict) :
  wf_dict d -> wf_dict (filter f d).
Proof.
  unfold wf_dict, keys. induction d as [|[k v] d IH]; simpl; intros H;
    [constructor|].
  inversion H as [|? ? Hk Hd]; subst.
  destruct (f (k, v)); simpl; [|auto].
  constructor; [|auto]. intros Hin. apply Hk.
  apply in_map_iff in Hin. destruct Hin as [[k' v'] [Hfst Hin]].
  apply filter_In in Hin. destruct Hin as [Hin _].
  apply in_map_iff. exists (k', v'). auto.
Qed.

Lemma is_header_lstrip (l : str) : is_header (lstrip l) = is_header l.
Proof.
  unfold is_header, _extract_section_name. rewrite strip_lstrip. reflexivity.
Qed.

Lemma is_header_rstrip (l : str) : is_header (rstrip l) = is_header l.
Proof.
  unfold is_header, _extract_section_name. rewrite strip_rstrip. reflexivity.
Qed.

Lemma body_ok_good (v : str) : body_ok v -> strip v <> [] -> good_body v.
Proof.
  intros [ls [Hls ->]] Hne. rewrite strip_idem in Hne.
  split; [apply strip_idem|]. split; [assumption|].
  assert (Ht : trim_lines ls <> []).
  { intros E. apply Hne. rewrite strip_join, E. reflexivity. }
  rewrite split_strip_join; [| |assumption].
  - apply trim_lines_Forall.
    + intros l H. rewrite is_header_lstrip. assumption.
    + intros l H. rewrite is_header_rstrip. assumption.
    + eapply Forall_impl; [|exact Hls]. intros l [H _]. exact H.
  - eapply Forall_impl; [|exact Hls]. intros l [_ H]. exact H.
Qed.

(** The result of the parser: distinct keys, and every body trimmed, not
    empty and free of header lines. *)
Lemma parse_result (content : str) :
  wf_dict (_parse_markdown_content content)
  /\ forall k v, In (k, v) (_parse_markdown_content content) -> good_body v.
Proof.
  unfold _parse_markdown_content, parse_lines, run.
  assert (Hinv : parse_inv (fold_left step (split NL content) initial)).
  { apply run_inv; [apply split_lines_no_sep|].
    repeat split; cbn; constructor. }
  destruct (save_inv _ Hinv) as [Hwf Hb].
  split; [apply filter_keys_nodup; assumption|].
  intros k v Hin. unfold clean in Hin. apply filter_In in Hin.
  destruct Hin as [Hin Hne]. cbn [snd] in Hne.
  rewrite Forall_forall in Hb. specialize (Hb _ Hin). cbn [snd] in Hb.
  apply body_ok_good; [assumption|]. apply nonempty_true; assumption.
Qed.

(** *** Texts that [strip] leaves alone *)

Lemma tidy_facts (e : str) :
  tidy e -> blank e = false /\ lstrip e = e /\ rstrip e = e.
Proof.
  intros [Hs Hne].
  destruct (strip_shape e) as [x [m [r [y [H1 [H2 [Hx Hy]]]]]]];
    [rewrite Hs; assumption|].
  rewrite Hs in H1, H2. split; [|split].
  - rewrite H1. simpl. rewrite Hx. reflexivity.
  - rewrite H1. apply lstrip_nonspace; assumption.
  - rewrite H2. apply rstrip_snoc_nonspace; assumption.
Qed.

Lemma tidy_strip (l : str) : blank l = false -> tidy (strip l).
Proof.
  intros B. split; [apply strip_idem | apply strip_nonblank; assumption].
Qed.

Lemma tidy_ends (e : str) :
  tidy e ->
  exists x m r y, e = x :: m /\ e = r ++ [y]
                  /\ isspace x = false /\ isspace y = false.
Proof.
  intros [Hs Hne].
  destruct (strip_shape e) as [x [m [r [y H]]]]; [rewrite Hs; assumption|].
  rewrite Hs in H. exists x, m, r, y. exact H.
Qed.

Lemma tidy_intro (x : char) (m r : str) (y : char) :
  x :: m = r ++ [y] -> isspace x = false -> isspace y = false ->
  tidy (x :: m).
Proof.
  intros E Hx Hy. split; [|discriminate].
  eapply strip_fixed; eassumption.
Qed.

Lemma rtrim_lines_fixed (init : list str) (l : str) :
  blank l = false -> rstrip l = l ->
  rtrim_lines (init ++ [l]) = init ++ [l].
Proof.
  intros B R. induction init as [|a init IH]; simpl.
  - rewrite B, R. reflexivity.
  - rewrite IH. destruct (init ++ [l]) eqn:E; [|reflexivity].
    apply app_eq_nil in E. destruct E; discriminate.
Qed.

(** Lines whose first and last are tidy join into a tidy text. *)
Lemma join_tidy (first : str) (rest init : list str) (last : str) :
  first :: rest = init ++ [last] -> tidy first -> tidy last ->
  tidy (join [NL] (first :: rest)).
Proof.
  intros E Hf Hl.
  destruct (tidy_facts _ Hf) as [Bf [Lf _]].
  destruct (tidy_facts _ Hl) as [Bl [_ Rl]].
  split.
  - rewrite strip_join. f_equal. unfold trim_lines. cbn [ltrim_lines].
    rewrite Bf, Lf, E. apply rtrim_lines_fixed; assumption.
  - destruct Hf as [_ Hne]. destruct first as [|x f]; [congruence|].
    destruct rest; simpl; discriminate.
Qed.

Lemma split_head (c x : char) (s : str) :
  x <> c -> exists l ls, split c (x :: s) = (x :: l) :: ls.
Proof.
  intros H. simpl. apply N.eqb_neq in H. rewrite H.
  destruct (split c s) as [|l ls]; eauto.
Qed.

Lemma split_last (c y : char) (r : str) :
  y <> c -> exists init l, split c (r ++ [y]) = init ++ [l ++ [y]].
Proof.
  intros H. induction r as [|a r [init [l IH]]].
  - exists [], []. simpl. apply N.eqb_neq in H. rewrite H. reflexivity.
  - simpl. destruct (a =? c)%N.
    + exists ([] :: init), l. rewrite IH. reflexivity.
    + rewrite IH. destruct init as [|i0 init]; simpl.
      * exists [], (a :: l). reflexivity.
      * exists ((a :: i0) :: init), l. reflexivity.
Qed.

Lemma space_not_NL (x : char) : isspace x = false -> x <> NL.
Proof. intros H ->. discriminate. Qed.

Lemma blank_cons_nonspace (x : char) (l : str) :
  isspace x = false -> blank (x :: l) = false.
Proof. intros H. simpl. rewrite H. reflexivity. Qed.

Lemma blank_snoc_nonspace (l : str) (y : char) :
  isspace y = false -> blank (l ++ [y]) = false.
Proof.
  intros H. rewrite blank_app. simpl. rewrite H.
  rewrite andb_false_r. reflexivity.
Qed.

(** *** The experience rule *)

Lemma bulleted_strip (l : str) : bulleted (strip l) = bulleted l.
Proof. unfold bulleted. rewrite strip_idem. reflexivity. Qed.

Lemma bulleted_blank (l : str) : blank l = true -> bulleted l = [].
Proof.
  intros B. unfold bulleted. apply strip_nil_iff in B. rewrite B. reflexivity.
Qed.

Lemma dash_tidy (t : str) : tidy t -> tidy (py "- " ++ t).
Proof.
  intros Ht. destruct (tidy_ends _ Ht) as [x [m [r [y [H1 [H2 [Hx Hy]]]]]]].
  apply (tidy_intro 45%N (32%N :: t) (py "- " ++ r) y);
    [|reflexivity | assumption].
  rewrite H2. reflexivity.
Qed.

Lemma bulleted_cases (l : str) :
  blank l = false ->
  bulleted l = strip l \/ bulleted l = py "- " ++ strip l.
Proof.
  intros B. unfold bulleted.
  destruct (strip l) as [|c r] eqn:E.
  - apply strip_nil_iff in E. congruence.
  - destruct (already_marked (c :: r) || endswith (py ":") (c :: r)
              || isupper (c :: r)); auto.
Qed.

Lemma bulleted_tidy (l : str) : blank l = false -> tidy (bulleted l).
Proof.
  intros B. destruct (bulleted_cases l B) as [E|E]; rewrite E.
  - apply tidy_strip; assumption.
  - apply dash_tidy, tidy_strip; assumption.
Qed.

Lemma dash_not_header (s : str) : is_header (45%N :: s) = false.
Proof.
  apply is_header_false_iff. right; right.
  exists 45%N, (rstrip s). split; [|discriminate].
  unfold strip. rewrite lstrip_nonspace by reflexivity.
  apply rstrip_cons_nonspace. reflexivity.
Qed.

Lemma bulleted_not_header (l : str) :
  is_header l = false -> is_header (bulleted l) = false.
Proof.
  intros H. destruct (blank l) eqn:B.
  - rewrite bulleted_blank by assumption. reflexivity.
  - destruct (bulleted_cases l B) as [E|E]; rewrite E.
    + rewrite is_header_strip. assumption.
    + apply dash_not_header.
Qed.

Lemma bulleted_no_nl (l : str) : no_nl l -> no_nl (bulleted l).
Proof.
  intros H. destruct (blank l) eqn:B.
  - rewrite bulleted_blank by assumption. intros [].
  - unfold no_nl in *.
    destruct (bulleted_cases l B) as [E|E]; rewrite E; intros Hin.
    + apply H. apply strip_incl; assumption.
    + simpl in Hin. destruct Hin as [Hin|[Hin|Hin]]; try discriminate.
      apply H. apply strip_incl; assumption.
Qed.

Lemma bulleted_idem (l : str) : bulleted (bulleted l) = bulleted l.
Proof.
  destruct (blank l) eqn:B.
  - rewrite (bulleted_blank l) by assumption. reflexivity.
  - destruct (bulleted_cases l B) as [E|E]; rewrite E.
    + rewrite bulleted_strip. exact E.
    + assert (T : tidy (py "- " ++ strip l))
        by (apply dash_tidy, tidy_strip; assumption).
      unfold bulleted. destruct T as [T _]. rewrite T.
      change (py "- " ++ strip l) with (45%N :: 32%N :: strip l).
      unfold already_marked.
      change (startswith (py "-") (45%N :: 32%N :: strip l)) with true.
      reflexivity.
Qed.

Lemma good_body_tidy (v : str) : good_body v -> tidy v.
Proof. intros [H1 [H2 _]]. split; assumption. Qed.

(** Tidy first and last lines, no header line: a body the parser would
    store as it is. *)
Lemma lines_good (first : str) (rest init : list str) (last : str) :
  first :: rest = init ++ [last] -> tidy first -> tidy last ->
  Forall line_ok (first :: rest) ->
  good_body (join [NL] (first :: rest))
  /\ split NL (join [NL] (first :: rest)) = first :: rest.
Proof.
  intros E Hf Hl Hok.
  assert (Hs : split NL (join [NL] (first :: rest)) = first :: rest).
  { apply split_join; [discriminate|].
    eapply Forall_impl; [|exact Hok]. intros l [_ H]. exact H. }
  split; [|exact Hs].
  destruct (join_tidy first rest init last E Hf Hl) as [T1 T2].
  split; [exact T1|]. split; [exact T2|].
  rewrite Hs. eapply Forall_impl; [|exact Hok]. intros l [H _]. exact H.
Qed.

Lemma experience_lines_good (v : str) :
  good_body v ->
  good_body (join [NL] (map bulleted (split NL v)))
  /\ split NL (join [NL] (map bulleted (split NL v)))
     = map bulleted (split NL v).
Proof.
  intros Hg. pose proof (good_body_tidy v Hg) as Ht.
  destruct Hg as [_ [_ Hh]].
  destruct (tidy_ends v Ht) as [x [m [r [y [H1 [H2 [Hx Hy]]]]]]].
  destruct (split_head NL x m (space_not_NL x Hx)) as [l1 [ls E1]].
  destruct (split_last NL y r (space_not_NL y Hy)) as [init [l' E2]].
  rewrite <- H1 in E1. rewrite <- H2 in E2.
  assert (Hok : Forall line_ok (map bulleted (split NL v))).
  { apply Forall_forall. intros e He. apply in_map_iff in He.
    destruct He as [l [<- Hl]]. split.
    - apply bulleted_not_header. rewrite Forall_forall in Hh. auto.
    - apply bulleted_no_nl.
      pose proof (split_lines_no_sep NL v) as Hn.
      rewrite Forall_forall in Hn. apply Hn; assumption. }
  assert (Ea : map bulleted (split NL v)
               = bulleted (x :: l1) :: map bulleted ls)
    by (rewrite E1; reflexivity).
  assert (Eb : map bulleted (split NL v)
               = map bulleted init ++ [bulleted (l' ++ [y])])
    by (rewrite E2, map_app; reflexivity).
  rewrite Ea in *.
  apply (lines_good _ _ (map bulleted init) (bulleted (l' ++ [y])));
    [exact Eb | | | exact Hok].
  - apply bulleted_tidy, blank_cons_nonspace; assumption.
  - apply bulleted_tidy, blank_snoc_nonspace; assumption.
Qed.

(** *** The skills rule *)

Lemma contains_In (c : char) (s : str) : contains c s = true <-> In c s.
Proof.
  unfold contains. rewrite existsb_exists. split.
  - intros [x [Hin E]]. apply N.eqb_eq in E. subst; assumption.
  - intros H. exists c. split; [assumption | apply N.eqb_refl].
Qed.

Lemma contains_false (c : char) (s : str) :
  contains c s = false <-> ~ In c s.
Proof.
  rewrite <- contains_In. destruct (contains c s); split; congruence.
Qed.

Lemma split_incl (c x : char) (s l : str) :
  In l (split c s) -> In x l -> In x s.
Proof.
  revert l. induction s as [|a s IH]; simpl; intros l Hl Hx.
  - destruct Hl as [<-|[]]. contradiction.
  - destruct (a =? c)%N.
    + destruct Hl as [<-|Hl]; [contradiction|]. right. eapply IH; eassumption.
    + destruct (split c s) as [|l0 ls] eqn:E.
      * destruct Hl as [<-|[]]. destruct Hx as [<-|[]]. left; reflexivity.
      * destruct Hl as [<-|Hl].
        -- destruct Hx as [<-|Hx]; [left; reflexivity|].
           right. apply (IH l0); [left; reflexivity | assumption].
        -- right. apply (IH l); [right; assumption | assumption].
Qed.

Lemma join_In (c : char) (sep : str) (ls : list str) :
  In c (join sep ls) -> In c sep \/ exists l, In l ls /\ In c l.
Proof.
  induction ls as [|l ls IH]; [intros []|].
  destruct ls as [|l' ls].
  - simpl. intros H. right. exists l. auto.
  - rewrite join_cons by discriminate. rewrite !in_app_iff.
    intros [H|[H|H]].
    + right. exists l. split; [left; reflexivity | assumption].
    + left; assumption.
    + destruct (IH H) as [H'|[l0 [Hl0 Hc]]]; [left; assumption|].
      right. exists l0. split; [right; assumption | assumption].
Qed.

Lemma join_snoc (sep : str) (init : list str) (l : str) :
  exists p, join sep (init ++ [l]) = p ++ l.
Proof.
  induction init as [|a init [p IH]].
  - exists []. reflexivity.
  - destruct (init ++ [l]) as [|b bs] eqn:E.
    + apply app_eq_nil in E. destruct E; discriminate.
    + cbn [app]. rewrite E. rewrite join_cons by discriminate.
      rewrite IH. exists (a ++ sep ++ p). rewrite <- !app_assoc. reflexivity.
Qed.

Lemma skills_items_ok (v : str) :
  contains NL v = false -> Forall skill_ok (skills_items v).
Proof.
  intros Hnl. apply contains_false in Hnl.
  unfold skills_items. apply Forall_forall. intros item Hin.
  apply filter_In in Hin. destruct Hin as [Hin Hne].
  apply in_map_iff in Hin. destruct Hin as [piece [<- Hp]].
  apply nonempty_true in Hne. split; [|split].
  - split; [apply strip_idem | assumption].
  - intros H. apply Hnl. apply (split_incl 44%N NL v piece Hp).
    apply strip_incl; assumption.
  - intros H. pose proof (split_lines_no_sep 44%N v) as Hs.
    rewrite Forall_forall in Hs. apply (Hs piece Hp).
    apply strip_incl; assumption.
Qed.

Lemma pack_fold (items : list str) :
  forall (st : packing) (gs : list (list str)),
    Forall skill_ok items ->
    formatted_skills st = map bullet_line gs ->
    Forall group_ok gs ->
    Forall skill_ok (current_line st) ->
    exists gs',
      formatted_skills (fold_left pack_step items st) = map bullet_line gs'
      /\ Forall group_ok gs'
      /\ Forall skill_ok (current_line (fold_left pack_step items st))
      /\ (items <> [] ->
          current_line (fold_left pack_step items st) <> []).
Proof.
  induction items as [|it items IH]; intros st gs Hit Hfs Hgs Hcl.
  - exists gs. simpl. repeat split; auto; congruence.
  - inversion Hit as [|? ? Hi Hits]; subst. cbn [fold_left].
    assert (Hstep : exists gs1,
               formatted_skills (pack_step st it) = map bullet_line gs1
               /\ Forall group_ok gs1
               /\ Forall skill_ok (current_line (pack_step st it))
               /\ current_line (pack_step st it) <> []).
    { unfold pack_step.
      destruct ((60 <? current_length st + List.length it)
                && nonempty (current_line st)) eqn:C.
      - apply andb_true_iff in C. destruct C as [_ C].
        apply nonempty_true in C.
        exists (gs ++ [current_line st]). cbn.
        rewrite Hfs, map_app. repeat split; auto; try discriminate.
        apply Forall_app. split; [assumption|].
        constructor; [split; assumption | constructor].
      - exists gs. cbn. repeat split; auto.
        + apply Forall_app. auto.
        + intros E. apply app_eq_nil in E. destruct E; discriminate. }
    destruct Hstep as [gs1 [H1 [H2 [H3 H4]]]].
    destruct (IH (pack_step st it) gs1 Hits H1 H2 H3) as [gs' [G1 [G2 [G3 G4]]]].
    exists gs'. repeat split; auto. intros _.
    destruct items as [|it' items]; [exact H4|].
    apply G4. discriminate.
Qed.

Lemma pack_skills_groups (items : list str) :
  Forall skill_ok items -> items <> [] ->
  exists g gs,
    pack_skills items = map bullet_line (g :: gs)
    /\ Forall group_ok (g :: gs).
Proof.
  intros Hit Hne. unfold pack_skills.
  destruct (pack_fold items (mkPacking [] [] 0) [] Hit eq_refl
              (Forall_nil _) (Forall_nil _)) as [gs' [G1 [G2 [G3 G4]]]].
  specialize (G4 Hne).
  set (st := fold_left pack_step items (mkPacking [] [] 0)) in *.
  destruct (current_line st) as [|c cl] eqn:E; [congruence|].
  cbn [nonempty]. rewrite G1.
  assert (Hall : Forall group_ok (gs' ++ [c :: cl])).
  { apply Forall_app. split; [assumption|].
    constructor; [split; [discriminate | assumption] | constructor]. }
  change [bullet_line (c :: cl)] with (map bullet_line [c :: cl]).
  rewrite <- map_app.
  destruct (gs' ++ [c :: cl]) as [|g gs] eqn:Eg.
  - apply app_eq_nil in Eg. destruct Eg; discriminate.
  - exists g, gs. auto.
Qed.

Lemma bullet_line_chars (g : list str) (c : char) :
  Forall skill_ok g -> In c (bullet_line g) ->
  c = 45%N \/ c = 32%N \/ c = 8226%N
  \/ (c <> NL /\ c <> 44%N).
Proof.
  intros Hg Hin. unfold bullet_line in Hin.
  apply in_app_iff in Hin. destruct Hin as [Hin|Hin].
  - simpl in Hin. intuition.
  - apply join_In in Hin. destruct Hin as [Hin|[l [Hl Hc]]].
    + simpl in Hin. intuition.
    + rewrite Forall_forall in Hg. destruct (Hg l Hl) as [_ [H1 H2]].
      right; right; right. split; intros ->; contradiction.
Qed.

Lemma bullet_line_ok (g : list str) :
  group_ok g ->
  tidy (bullet_line g) /\ line_ok (bullet_line g)
  /\ ~ In 44%N (bullet_line g).
Proof.
  intros [Hne Hg].
  assert (Hc : forall c, In c (bullet_line g) -> c <> NL /\ c <> 44%N).
  { intros c Hin.
    destruct (bullet_line_chars g c Hg Hin) as [->|[->|[->|H]]];
      try (split; discriminate). exact H. }
  assert (Ht : tidy (bullet_line g)).
  { destruct (@exists_last _ g Hne) as [init [it Eg]].
    assert (Hit : skill_ok it).
    { rewrite Forall_forall in Hg. apply Hg. rewrite Eg.
      apply in_app_iff. right; left; reflexivity. }
    destruct Hit as [Tit _].
    destruct (tidy_ends it Tit) as [x [m [r [y [_ [E2 [_ Hy]]]]]]].
    destruct (join_snoc BULLET_SEP init it) as [p Ep].
    unfold bullet_line. rewrite Eg, Ep, E2.
    apply (tidy_intro 45%N (32%N :: p ++ r ++ [y]) (py "- " ++ p ++ r) y);
      [|reflexivity | assumption].
    cbn. rewrite <- !app_assoc. reflexivity. }
  split; [exact Ht|]. split; [split|].
  - unfold bullet_line. apply dash_not_header.
  - intros Hin. apply Hc in Hin. destruct Hin as [H _]. congruence.
  - intros Hin. apply Hc in Hin. destruct Hin as [_ H]. congruence.
Qed.

Lemma packed_skills_good (items : list str) :
  Forall skill_ok items -> items <> [] ->
  good_body (join [NL] (pack_skills items))
  /\ ~ In 44%N (join [NL] (pack_skills items)).
Proof.
  intros Hit Hne.
  destruct (pack_skills_groups items Hit Hne) as [g [gs [E Hall]]].
  rewrite E. cbn [map].
  assert (Hlines : forall l, In l (bullet_line g :: map bullet_line gs) ->
                     tidy l /\ line_ok l /\ ~ In 44%N l).
  { intros l Hl. change (In l (map bullet_line (g :: gs))) in Hl.
    apply in_map_iff in Hl. destruct Hl as [g' [<- Hg']].
    apply bullet_line_ok. rewrite Forall_forall in Hall. auto. }
  destruct (@exists_last _ (bullet_line g :: map bullet_line gs))
    as [init [last El]]; [discriminate|].
  split.
  - apply (lines_good _ _ init last El).
    + apply Hlines. left; reflexivity.
    + apply Hlines. rewrite El. apply in_app_iff. right; left; reflexivity.
    + apply Forall_forall. intros l Hl. apply Hlines; assumption.
  - intros Hin. apply join_In in Hin.
    destruct Hin as [Hin|[l [Hl Hc]]].
    + simpl in Hin. destruct Hin as [Hin|[]]. discriminate.
    + destruct (Hlines l Hl) as [_ [_ H]]. contradiction.
Qed.

(** *** Rendering a section and reading it back *)

Lemma canonical_not_header (k : str) :
  In k CANONICAL_NAMES -> str_eqb k (py "header") = false.
Proof.
  intros H. apply str_eqb_neq. intros ->. revert H.
  unfold CANONICAL_NAMES. simpl. intuition discriminate.
Qed.

Lemma heading_read_back (k : str) :
  In k CANONICAL_NAMES ->
  _extract_section_name (heading k) = Some k /\ no_nl (heading k).
Proof.
  intros Hin. unfold CANONICAL_NAMES in Hin.
  repeat (destruct Hin as [<-|Hin];
          [split; [reflexivity | apply contains_false; reflexivity]|]).
  contradiction.
Qed.

Lemma rendered_body_good (k v : str) :
  good_body v -> (k = py "skills" -> skills_ok v) ->
  good_body (rendered_body k v)
  /\ rendered_body k (rendered_body k v) = rendered_body k v.
Proof.
  intros Hg Hsk. unfold rendered_body.
  destruct (str_eqb k (py "experience")) eqn:E1.
  - rewrite (map_ext _ _ experience_line_bulleted).
    destruct (experience_lines_good v Hg) as [G S].
    split; [exact G|].
    rewrite (map_ext _ _ experience_line_bulleted).
    rewrite S, map_map. f_equal. apply map_ext. apply bulleted_idem.
  - destruct (str_eqb k (py "skills")) eqn:E2; [|split; [assumption|reflexivity]].
    apply str_eqb_eq in E2. specialize (Hsk E2).
    destruct (comma_list v) eqn:C.
    + assert (Hnl : contains NL v = false).
      { unfold comma_list in C. apply andb_true_iff in C.
        destruct C as [_ C]. apply negb_true_iff in C. exact C. }
      destruct (packed_skills_good (skills_items v)
                  (skills_items_ok v Hnl) (Hsk C)) as [G N].
      split; [exact G|].
      assert (C' : comma_list (join [NL] (pack_skills (skills_items v)))
                   = false).
      { unfold comma_list. apply contains_false in N. rewrite N. reflexivity. }
      rewrite C'. reflexivity.
    + rewrite C. split; [assumption | reflexivity].
Qed.

Lemma join_app (sep : str) (l1 l2 : list str) :
  l1 <> [] -> l2 <> [] ->
  join sep (l1 ++ l2) = join sep l1 ++ sep ++ join sep l2.
Proof.
  intros H1 H2. induction l1 as [|a l1 IH]; [congruence|].
  destruct l1 as [|b l1].
  - simpl app. apply join_cons; assumption.
  - change ((a :: b :: l1) ++ l2) with (a :: (b :: l1) ++ l2).
    rewrite (join_cons sep a) by discriminate.
    rewrite IH by discriminate.
    rewrite (join_cons sep a (b :: l1)) by discriminate.
    rewrite <- !app_assoc. reflexivity.
Qed.

Lemma render_lines (k v : str) :
  join [NL] (heading k :: [] :: split NL v) = render (k, v).
Proof.
  rewrite join_cons by discriminate.
  rewrite join_cons by apply split_not_nil.
  rewrite join_split. reflexivity.
Qed.

Lemma rendered_blocks_not_nil (e : str * str) (es : dict) :
  List.concat (map block_lines (rendered_blocks (e :: es))) <> [].
Proof.
  destruct e as [k v]. destruct es as [|e' es]; discriminate.
Qed.

Lemma rendered_document (entries : dict) :
  entries <> [] ->
  document [] (rendered_blocks entries)
  = join (py "\n\n") (map render entries).
Proof.
  unfold document. cbn [app].
  induction entries as [|[k v] es IH]; intros Hne; [congruence|].
  destruct es as [|e' es].
  - cbn [rendered_blocks map List.concat block_lines fst snd join].
    rewrite app_nil_r. apply render_lines.
  - change (rendered_blocks ((k, v) :: e' :: es))
      with ((heading k, [] :: split NL v ++ [[]])
              :: rendered_blocks (e' :: es)).
    cbn [map List.concat block_lines fst snd].
    change (heading k :: ([] :: split NL v ++ [[]])
              ++ List.concat (map block_lines (rendered_blocks (e' :: es))))
      with ((heading k :: [] :: split NL v ++ [[]])
              ++ List.concat (map block_lines (rendered_blocks (e' :: es)))).
    rewrite join_app;
      [| discriminate | apply rendered_blocks_not_nil].
    rewrite IH by discriminate.
    unfold block_lines. cbn [fst snd].
    change (heading k :: [] :: split NL v ++ [[]])
      with ((heading k :: [] :: split NL v) ++ [[]]).
    rewrite join_app by discriminate. rewrite render_lines.
    rewrite (join_cons (py "\n\n") (render (k, v))) by discriminate.
    cbn [join]. rewrite <- !app_assoc. reflexivity.
Qed.

Lemma rendered_body_of_block (v : str) (tail : list str) :
  tidy v -> tail = [] \/ tail = [[]] ->
  strip (join [NL] ([] :: split NL v ++ tail)) = v.
Proof.
  intros [Hs _] Ht.
  assert (E : exists b, blank b = true
                /\ join [NL] ([] :: split NL v ++ tail) = [NL] ++ v ++ b).
  { destruct Ht as [->| ->].
    - exists []. split; [reflexivity|]. rewrite app_nil_r.
      rewrite join_cons by apply split_not_nil. rewrite join_split.
      rewrite app_nil_r. reflexivity.
    - exists [NL]. split; [reflexivity|].
      rewrite join_cons.
      + rewrite join_app; [|apply split_not_nil | discriminate].
        rewrite join_split. reflexivity.
      + intros E. apply app_eq_nil in E. destruct E; discriminate. }
  destruct E as [b [Hb ->]].
  rewrite strip_app_blank_l by reflexivity.
  rewrite strip_app_blank_r by assumption. exact Hs.
Qed.

Lemma blank_line_ok : is_header [] = false /\ no_nl [].
Proof. split; [reflexivity | intros []]. Qed.

(** *** Formatting twice *)

Lemma dict_get_in (k dflt : str) (d : dict) :
  In k (keys d) -> In (k, dict_get k d dflt) d.
Proof.
  induction d as [|[k' v] d IH]; simpl; [tauto|].
  destruct (str_eqb k' k) eqn:E.
  - apply str_eqb_eq in E. subst. auto.
  - intros [H|H]; [|auto]. apply str_eqb_neq in E. congruence.
Qed.

Lemma rendered_entries_keys (sections : dict) (template : str) :
  keys (rendered_entries sections template)
  = _get_section_order sections template.
Proof.
  unfold rendered_entries, keys. rewrite map_map. cbn [fst]. apply map_id.
Qed.

Lemma filter_none {A : Type} (f : A -> bool) (l : list A) :
  (forall x, In x l -> f x = false) -> filter f l = [].
Proof.
  induction l as [|a l IH]; intros H; [reflexivity|]. simpl.
  rewrite (H a (or_introl eq_refl)). apply IH. intros x Hx. apply H.
  right; assumption.
Qed.

(** Ordering sections that are already in order changes nothing. *)
Lemma order_idem (d d' : dict) (template : str) :
  wf_dict d -> keys d' = _get_section_order d template ->
  _get_section_order d' template = keys d'.
Proof.
  intros Hwf Hk.
  assert (Hwf' : wf_dict d').
  { unfold wf_dict. rewrite Hk. apply get_section_order_nodup; assumption. }
  set (A := filter (fun k => dict_mem k d) DEFAULT_SECTION_ORDER).
  set (B := filter (fun k => negb (mem k DEFAULT_SECTION_ORDER)) (keys d)).
  assert (Hk' : keys d' = A ++ B).
  { rewrite Hk. apply get_section_order_spec; assumption. }
  assert (HA : forall x, In x A -> In x DEFAULT_SECTION_ORDER /\ In x (keys d)).
  { intros x Hx. apply filter_In in Hx. destruct Hx as [H1 H2].
    split; [assumption | apply mem_In; assumption]. }
  assert (HB : forall x, In x B -> ~ In x DEFAULT_SECTION_ORDER).
  { intros x Hx. apply filter_In in Hx. destruct Hx as [_ H].
    apply negb_true_iff in H. intros Hin. apply mem_In in Hin. congruence. }
  rewrite (get_section_order_spec d' template Hwf').
  assert (E1 : filter (fun k => dict_mem k d') DEFAULT_SECTION_ORDER = A).
  { apply filter_ext_in. intros x Hx. unfold dict_mem. rewrite Hk'.
    apply eq_true_iff_eq. rewrite !mem_In, in_app_iff. split.
    - intros [H|H]; [apply HA; assumption | exfalso; eapply HB; eassumption].
    - intros H. left. apply filter_In. split; [assumption|].
      apply mem_In; assumption. }
  assert (E2 : filter (fun k => negb (mem k DEFAULT_SECTION_ORDER)) (keys d')
               = B).
  { rewrite Hk', filter_app, filter_none, forallb_filter_id.
    - reflexivity.
    - apply forallb_forall. intros x Hx. apply filter_In in Hx. tauto.
    - intros x Hx. apply negb_false_iff. apply mem_In. apply HA; assumption. }
  rewrite E1, E2, Hk'. reflexivity.
Qed.

Lemma render_nonempty (kv : str * str) : nonempty (render kv) = true.
Proof.
  destruct kv as [k v]. unfold render, heading. cbn [fst snd].
  destruct (str_eqb k (py "contact")); [reflexivity|].
  destruct (str_eqb k (py "summary")); [reflexivity|].
  destruct (str_eqb k (py "experience")); [reflexivity|].
  destruct (str_eqb k (py "skills")); reflexivity.
Qed.


(** *** Where the round trip is not stable *)

(** A free-form title that the formatter re-spells: "_skills" is shown as
    " Skills", which the parser reads back as the skills section. *)
Example round_trip_respelled_title :
  format_resume (_parse_markdown_content (py "## _Skills\na, b"))
    (py "default")
  = Return (py "##  Skills\n\na, b")
  /\ format_resume (_parse_markdown_content (py "##  Skills\n\na, b"))
       (py "default")
     = Return (py "## Skills\n\n- a " ++ [8226%N] ++ py " b").
Proof. split; reflexivity. Qed.

(** A parse without sections: the placeholder document is itself read
    back as a section named "resume". *)
Example round_trip_placeholder :
  format_resume (_parse_markdown_content (py "## Skills")) (py "default")
  = Return (py "# Resume\n\n*No content available*")
  /\ format_resume
       (_parse_markdown_content (py "# Resume\n\n*No content available*"))
       (py "default")
     = Return (py "## Resume\n\n*No content available*").
Proof. split; reflexivity. Qed.

(** A skills body of commas only is rendered as a heading without body,
    which parses to nothing. *)
Example round_trip_commas_only :
  format_resume (_parse_markdown_content (py "## Skills\n,")) (py "default")
  = Return (py "## Skills\n\n")
  /\ format_resume (_parse_markdown_content (py "## Skills\n\n"))
       (py "default")
     = Return (py "# Resume\n\n*No content available*").
Proof. split; reflexivity. Qed.

(** *** The skills rule, apart from the packing *)

Lemma skills_comma_list (content : str) :
  strip content <> [] -> comma_list (strip content) = true ->
  _format_skills_section content
  = py "## Skills\n\n"
    ++ join [NL] (pack_skills (skills_items (strip content))).
Proof.
  intros Hne C. unfold _format_skills_section.
  destruct (strip content) as [|c l] eqn:E; [congruence|].
  cbn [nonempty negb]. cbv iota.
  unfold comma_list in C. rewrite C. reflexivity.
Qed.

(** A recognized synonym followed by more than one space is still a
    header of the specific pattern, but the normalization table, which
    spells the synonyms with single spaces, does not know it. *)
Example two_spaces_in_synonym :
  _extract_section_name (py "## Work  Experience")
  = Some (py "work  experience").
Proof. reflexivity. Qed.

(** *** Leading text, and headers of one canonical name *)

(** Text before the first header is kept under "header", one entry more
    than there are headers. *)
Example leading_text_entry :
  _parse_markdown_content (py "Jane Doe\n## Skills\nPython")
  = [(py "header", py "Jane Doe"); (py "skills", py "Python")].
Proof. reflexivity. Qed.

(** Two headers of the same canonical name share one entry: the later
    body replaces the earlier one. *)
Example same_canonical_name :
  _parse_markdown_content (py "## Skills\na\n## Technical Skills\nb")
  = [(py "skills", py "b")].
Proof. reflexivity. Qed.

(** *** A plain first line, with headers after it *)

Lemma dict_set_other (k v k' v' : str) (d : dict) :
  k <> k' -> In (k', v') d -> In (k', v') (dict_set k v d).
Proof.
  intros Hne. induction d as [|[k0 v0] d IH]; simpl; [tauto|].
  destruct (str_eqb k0 k) eqn:E.
  - apply str_eqb_eq in E. subst k0.
    intros [H|H]; [inversion H; congruence | right; assumption].
  - intros [H|H]; [left; assumption | right; auto].
Qed.

Lemma dict_set_in (k v : str) (d : dict) : In (k, v) (dict_set k v d).
Proof.
  induction d as [|[k0 v0] d IH]; simpl; [auto|].
  destruct (str_eqb k0 k) eqn:E.
  - apply str_eqb_eq in E. subst. left; reflexivity.
  - right; assumption.
Qed.

Lemma save_begun (first : str) (st : locals) :
  begun_with first st ->
  exists more,
    In (py "header", strip (join [NL] (first :: more))) (save st)
    /\ Forall no_nl more.
Proof.
  intros [[_ [Hc [more [Hm Hnl]]]]|[_ [Hc [more [Hin Hnl]]]]].
  - exists more. split; [|assumption]. unfold save. rewrite Hc, Hm.
    cbn [nonempty andb py]. apply dict_set_in.
  - exists more. split; [|assumption]. unfold save.
    destruct (current_section st) as [name|]; [|assumption].
    destruct (nonempty name && nonempty (current_content st)); [|assumption].
    apply dict_set_other; [|assumption]. congruence.
Qed.

Lemma step_begun (first line : str) (st : locals) :
  no_nl line ->
  _extract_section_name line <> Some (py "header") ->
  begun_with first st -> begun_with first (step st line).
Proof.
  intros Hnl Hname Hst. unfold step.
  destruct (truthy (_extract_section_name line)) eqn:E.
  - right. cbn. split; [reflexivity|]. split; [assumption|].
    apply save_begun; assumption.
  - destruct Hst as [[Hf [Hc [more [Hm Hn]]]]|[Hf [Hc [more [Hin Hn]]]]].
    + left. rewrite Hf, Hc. cbn. rewrite Hm.
      repeat split; auto. exists (more ++ [line]). split; [reflexivity|].
      apply Forall_app. auto.
    + right. rewrite Hf. cbn. repeat split; auto. exists more. auto.
Qed.

Lemma run_begun (first : str) (lines : list str) (st : locals) :
  Forall no_nl lines ->
  (forall line, In line lines ->
                _extract_section_name line <> Some (py "header")) ->
  begun_with first st -> begun_with first (fold_left step lines st).
Proof.
  revert st. induction lines as [|l lines IH]; intros st Hnl Hname Hst;
    [assumption|].
  inversion Hnl; subst. simpl. apply IH; [assumption | |].
  - intros line Hl. apply Hname. right; assumption.
  - apply step_begun; [assumption | apply Hname; left; reflexivity | assumption].
Qed.

(** A document whose first line is plain text, and in which no header is
    itself called "header", has a "header" section that begins with that
    line; the formatter renders it as the level-1 heading of the line. *)
Lemma plain_first_line (content first : str) (rest : list str)
  (template : str) :
  split NL content = first :: rest ->
  is_header first = false -> blank first = false ->
  (forall line, In line rest ->
                _extract_section_name line <> Some (py "header")) ->
  exists body,
    In (py "header", body) (_parse_markdown_content content)
    /\ _format_section (py "header") body template = py "# " ++ strip first.
Proof.
  intros Hs Hh Hb Hname.
  pose proof (split_lines_no_sep NL content) as Hnl. rewrite Hs in Hnl.
  inversion Hnl as [|? ? Hn1 Hn2]; subst.
  unfold _parse_markdown_content, parse_lines, run. rewrite Hs.
  cbn [fold_left].
  assert (H0 : begun_with first (step initial first)).
  { left. unfold step. unfold is_header in Hh. rewrite Hh. cbn.
    repeat split. exists []. split; [reflexivity | constructor]. }
  pose proof (run_begun first rest _ Hn2 Hname H0) as Hend.
  destruct (save_begun first _ Hend) as [more [Hin Hmore]].
  set (body := strip (join [NL] (first :: more))) in *.
  assert (Hne : strip body <> []).
  { unfold body. rewrite strip_idem. apply strip_nonblank.
    rewrite blank_join. simpl. rewrite Hb. reflexivity. }
  exists body. split.
  - unfold clean. apply filter_In. split; [assumption|].
    cbn [snd]. apply nonempty_true; assumption.
  - unfold _format_section.
    destruct (strip body) eqn:E; [congruence|]. cbn [nonempty negb].
    cbv iota. change (str_eqb (py "header") (py "header")) with true.
    cbv iota.
    assert (F : _format_header_section body
                = _format_header_section (join [NL] (first :: more))).
    { unfold _format_header_section, body. rewrite strip_idem. reflexivity. }
    rewrite F. apply format_header_first_line.
    rewrite split_join; [|discriminate | constructor; assumption].
    simpl.
    assert (N : nonempty (strip first) = true)
      by (apply nonempty_true, strip_nonblank; assumption).
    rewrite N. reflexivity.
Qed.

(** A later header that is itself called "header" takes the section
    over. *)
Example explicit_header_overwrites :
  _parse_markdown_content (py "Jane Doe\n## Header\nfoo")
  = [(py "header", py "foo")].
Proof. reflexivity. Qed.
(* ================================================================== *)
(** ** Further properties of the parser *)
(* ================================================================== *)

(** *** The shape of the parsed sections *)

Lemma dict_set_keys_Forall (P : str -> Prop) (k v : str) (d : dict) :
  P k -> Forall P (keys d) -> Forall P (keys (dict_set k v d)).
Proof.
  intros Hk Hd. rewrite dict_set_keys.
  destruct (mem k (keys d)); [assumption|].
  apply Forall_app. split; [assumption|]. constructor; [assumption|constructor].
Qed.

Lemma save_keys_nonempty (st : locals) :
  Forall (fun k => k <> []) (keys (sections st)) ->
  Forall (fun k => k <> []) (keys (save st)).
Proof.
  intros H. unfold save.
  destruct (current_section st) as [name|]; [|assumption].
  destruct (nonempty name) eqn:E; cbn [andb]; [|assumption].
  destruct (nonempty (current_content st)); [|assumption].
  apply dict_set_keys_Forall; [|assumption]. apply nonempty_true; assumption.
Qed.

Lemma step_keys_nonempty (st : locals) (line : str) :
  Forall (fun k => k <> []) (keys (sections st)) ->
  Forall (fun k => k <> []) (keys (sections (step st line))).
Proof.
  intros H. unfold step.
  destruct (truthy (_extract_section_name line)).
  - cbn [sections]. apply save_keys_nonempty; assumption.
  - destruct (header_found st); [exact H|].
    destruct (current_section st); exact H.
Qed.

Lemma run_keys_nonempty (lines : list str) (st : locals) :
  Forall (fun k => k <> []) (keys (sections st)) ->
  Forall (fun k => k <> []) (keys (sections (fold_left step lines st))).
Proof.
  revert st. induction lines as [|l lines IH]; intros st H; [assumption|].
  simpl. apply IH. apply step_keys_nonempty; assumption.
Qed.

(** X1.  The sections that [_parse_markdown_content] returns: the names are
    distinct and not empty; every body is not empty, carries no white space
    at either end, and has no header line among its lines. *)
Theorem parsed_sections_shape (content : str) :
  NoDup (keys (_parse_markdown_content content))
  /\ (forall k v, In (k, v) (_parse_markdown_content content) ->
        k <> [] /\ v <> [] /\ strip v = v
        /\ Forall (fun l => is_header l = false) (split NL v)).
Proof.
  destruct (parse_result content) as [Hwf Hgood].
  split; [exact Hwf|]. intros k v Hin.
  destruct (Hgood k v Hin) as [Hs [Hne Hl]].
  repeat split; try assumption.
  unfold _parse_markdown_content, parse_lines, run, clean in Hin.
  apply filter_In in Hin. destruct Hin as [Hin _].
  assert (K : Forall (fun k => k <> [])
                (keys (save (fold_left step (split NL content) initial)))).
  { apply save_keys_nonempty, run_keys_nonempty. constructor. }
  rewrite Forall_forall in K. apply K.
  apply in_map_iff. exists (k, v). auto.
Qed.

(** *** Blank input *)

(** X2.  A text of white space only has no sections. *)
Theorem parse_blank_text (content : str) :
  strip content = [] -> _parse_markdown_content content = [].
Proof.
  intros Hb. unfold _parse_markdown_content, parse_lines, run.
  assert (Hall : Forall (fun l => is_header l = false) (split NL content)).
  { apply Forall_forall. intros l Hl. apply blank_not_header.
    apply strip_nil_iff in Hb. rewrite <- (join_split NL content) in Hb.
    rewrite blank_join in Hb. rewrite forallb_forall in Hb. auto. }
  destruct (split NL content) as [|l ls] eqn:E;
    [exfalso; eapply split_not_nil; eassumption|].
  rewrite run_preamble by assumption.
  rewrite save_commit. unfold commit. cbn [nonempty andb py].
  assert (Eb : strip (join [NL] (l :: ls)) = []).
  { rewrite <- E, join_split. exact Hb. }
  rewrite Eb. reflexivity.
Qed.

Lemma parse_blank_text_witness :
  strip (py " \n\n  ") = [] /\ _parse_markdown_content (py " \n\n  ") = [].
Proof.
  split; [reflexivity|]. apply (parse_blank_text (py " \n\n  ")). reflexivity.
Defined.

(** *** Every body is a piece of the input *)

Lemma run_of_snoc (ls seen : list str) (line : str) :
  run_of ls seen -> run_of ls (seen ++ [line]).
Proof.
  intros [a [b ->]]. exists a, (b ++ [line]).
  rewrite <- !app_assoc. reflexivity.
Qed.

Lemma from_run_snoc (seen : list str) (line : str) (d : dict) :
  Forall (from_run seen) d -> Forall (from_run (seen ++ [line])) d.
Proof.
  apply Forall_impl. intros kv [ls [Hr Hv]]. exists ls.
  split; [apply run_of_snoc; assumption | assumption].
Qed.

Lemma save_prov (seen : list str) (st : locals) :
  prov_inv seen st -> Forall (from_run seen) (save st).
Proof.
  intros [[a Ha] Hs]. unfold save.
  destruct (current_section st) as [name|]; [|assumption].
  destruct (nonempty name && nonempty (current_content st)); [|assumption].
  apply dict_set_Forall; [|assumption].
  intros k'. exists (current_content st). split; [|reflexivity].
  exists a, []. rewrite app_nil_r. assumption.
Qed.

Lemma step_prov (seen : list str) (st : locals) (line : str) :
  prov_inv seen st -> prov_inv (seen ++ [line]) (step st line).
Proof.
  intros Hinv. pose proof (save_prov seen st Hinv) as Hsave.
  destruct Hinv as [[a Ha] Hs]. unfold step.
  destruct (truthy (_extract_section_name line)).
  - split; cbn [current_content sections].
    + exists (seen ++ [line]). rewrite app_nil_r. reflexivity.
    + apply from_run_snoc; assumption.
  - assert (Happ : exists a0, seen ++ [line]
                              = a0 ++ current_content st ++ [line]).
    { exists a. rewrite Ha at 1. rewrite <- app_assoc. reflexivity. }
    destruct (header_found st).
    + split; cbn [current_content sections];
        [assumption | apply from_run_snoc; assumption].
    + destruct (current_section st).
      * split; cbn [current_content sections];
          [assumption | apply from_run_snoc; assumption].
      * split; cbn [current_content sections].
        -- exists seen. reflexivity.
        -- apply from_run_snoc; assumption.
Qed.

Lemma run_prov (lines : list str) :
  forall (seen : list str) (st : locals),
    prov_inv seen st -> prov_inv (seen ++ lines) (fold_left step lines st).
Proof.
  induction lines as [|l lines IH]; intros seen st H.
  - rewrite app_nil_r. assumption.
  - simpl. replace (seen ++ l :: lines) with ((seen ++ [l]) ++ lines)
      by (rewrite <- app_assoc; reflexivity).
    apply IH, step_prov; assumption.
Qed.

Lemma join_run (sep : str) (a ls b : list str) :
  exists pre post, join sep (a ++ ls ++ b) = pre ++ join sep ls ++ post.
Proof.
  destruct ls as [|l ls'].
  - exists (join sep (a ++ b)), []. simpl. rewrite app_nil_r. reflexivity.
  - assert (Hb : exists post,
               join sep ((l :: ls') ++ b) = join sep (l :: ls') ++ post).
    { destruct b as [|b0 b'].
      - exists []. rewrite !app_nil_r. reflexivity.
      - exists (sep ++ join sep (b0 :: b')).
        apply join_app; discriminate. }
    destruct Hb as [post Hb].
    destruct a as [|a0 a'].
    + exists [], post. exact Hb.
    + exists (join sep (a0 :: a') ++ sep), post.
      rewrite (join_app sep (a0 :: a') ((l :: ls') ++ b));
        [|discriminate|discriminate].
      rewrite Hb, <- !app_assoc. reflexivity.
Qed.

Lemma strip_verbatim (s : str) : verbatim (strip s) s.
Proof.
  destruct (lstrip_suffix s) as [a [_ Ha]].
  destruct (rstrip_prefix (lstrip s)) as [b [_ Hb]].
  exists a, b. unfold strip. rewrite <- Hb. exact Ha.
Qed.

(** X3.  Every body that [_parse_markdown_content] returns occurs in the input
    verbatim, as one contiguous piece of the text. *)
Theorem parsed_body_verbatim (content k v : str) :
  In (k, v) (_parse_markdown_content content) -> verbatim v content.
Proof.
  unfold _parse_markdown_content, parse_lines, run, clean. intros Hin.
  apply filter_In in Hin. destruct Hin as [Hin _].
  assert (Hinv : prov_inv ([] ++ split NL content)
                   (fold_left step (split NL content) initial)).
  { apply run_prov. split; [exists []; reflexivity | constructor]. }
  simpl app in Hinv. apply save_prov in Hinv.
  rewrite Forall_forall in Hinv. destruct (Hinv _ Hin) as [ls [[a [b Hr]] Hv]].
  cbn [snd] in Hv. subst v.
  destruct (join_run [NL] a ls b) as [pre [post Hj]].
  rewrite <- Hr, join_split in Hj.
  destruct (strip_verbatim (join [NL] ls)) as [w1 [w2 Hw]].
  exists (pre ++ w1), (w2 ++ post).
  rewrite Hj, Hw at 1. rewrite <- !app_assoc. reflexivity.
Qed.

Lemma parsed_body_verbatim_witness :
  In (py "skills", py "Python, Go")
    (_parse_markdown_content (py "Jane\n## Skills\n  Python, Go \n"))
  /\ verbatim (py "Python, Go") (py "Jane\n## Skills\n  Python, Go \n").
Proof.
  assert (H : In (py "skills", py "Python, Go")
                (_parse_markdown_content (py "Jane\n## Skills\n  Python, Go \n")))
    by (right; left; reflexivity).
  split; [exact H|].
  exact (parsed_body_verbatim _ _ _ H).
Defined.
(* ================================================================== *)
(** ** Further properties of the section names *)
(* ================================================================== *)

Lemma first_match_normalized (ps : list regex) (s n : str) :
  first_match ps s = Some n -> exists x, n = _normalize_section_name x.
Proof.
  induction ps as [|p ps IH]; simpl; [discriminate|].
  destruct (re_match p s) as [g|].
  - intros H. inversion H. eauto.
  - exact IH.
Qed.

Lemma normalize_fixed (x : str) :
  strip (_normalize_section_name x) = _normalize_section_name x
  /\ lower (_normalize_section_name x) = _normalize_section_name x.
Proof.
  unfold _normalize_section_name.
  destruct (dict_get_cases (strip (lower x)) mappings (strip (lower x)))
    as [E|E].
  - rewrite E. split; [apply strip_idem|].
    rewrite <- strip_lower, lower_idem. reflexivity.
  - assert (V : forallb (fun v => str_eqb (strip v) v && str_eqb (lower v) v)
                  (map snd mappings) = true) by (vm_compute; reflexivity).
    rewrite forallb_forall in V. specialize (V _ E).
    apply andb_true_iff in V. destruct V as [V1 V2].
    apply str_eqb_eq in V1, V2. auto.
Qed.

Lemma pattern_group (p : regex) (s : str) (g : option str) :
  In p SECTION_PATTERNS -> re_match p s = Some g ->
  exists h w u rest,
    g = Some u /\ u <> [] /\ s = (35%N :: h) ++ w ++ u ++ rest.
Proof.
  intros Hin Hm.
  assert (Hbody : exists body, p = header_re body
                    /\ forall u gi, sem body u None gi -> u <> []).
  { destruct (section_pattern_cases _ Hin) as [[body [-> Hb]]| ->].
    - exists body. split; [reflexivity|]. intros u gi Hs.
      destruct (starts_with_letter_sem _ _ _ _ Hb Hs) as [x [u' [-> _]]].
      discriminate.
    - exists (RPlus CDot). split; [reflexivity|]. intros u gi Hs.
      inversion Hs; assumption. }
  destruct Hbody as [body [-> Hne]].
  destruct (header_re_sound _ _ _ Hm)
    as [h [w [u [rest [gi [Hs [_ [_ [Hsem ->]]]]]]]]].
  exists h, w, u, rest. split; [reflexivity|]. split; [|assumption].
  eapply Hne; eassumption.
Qed.

(** *** The capture group always takes part *)

(** Whenever a pattern of [SECTION_PATTERNS] matches, its group 1 has
    taken part in the match and is not empty: [_extract_section_name]
    never reaches its [re.sub] fall-back. *)
Theorem section_patterns_always_capture (pattern : regex) (line : str)
  (groups : option str) :
  In pattern SECTION_PATTERNS -> re_match pattern line = Some groups ->
  exists group1, groups = Some group1 /\ group1 <> [].
Proof.
  intros Hin Hm.
  destruct (pattern_group _ _ _ Hin Hm) as [h [w [u [rest [-> [Hne _]]]]]].
  eauto.
Qed.

Lemma section_patterns_always_capture_witness :
  In (header_re (RPlus CDot)) SECTION_PATTERNS
  /\ re_match (header_re (RPlus CDot)) (py "## Hobbies")
     = Some (Some (py "Hobbies"))
  /\ exists group1, Some (py "Hobbies") = Some group1 /\ group1 <> [].
Proof.
  assert (Hin : In (header_re (RPlus CDot)) SECTION_PATTERNS).
  { rewrite section_patterns_bodies. apply in_map, in_app_iff.
    right; left; reflexivity. }
  assert (Hm : re_match (header_re (RPlus CDot)) (py "## Hobbies")
               = Some (Some (py "Hobbies"))) by reflexivity.
  split; [exact Hin|]. split; [exact Hm|].
  exact (section_patterns_always_capture _ _ _ Hin Hm).
Defined.

(** *** The extracted name is in normal form *)

(** X4.  A name that [_extract_section_name] returns is never empty, so that
    the test [if section_name:] of the parser only tells a header from no
    header; it is lower-case and carries no white space at either end. *)
Theorem section_name_normal_form (line name : str) :
  is_ascii line ->
  _extract_section_name line = Some name ->
  name <> [] /\ strip name = name /\ lower name = name
  /\ is_header line = true.
Proof.
  intros _ He.
  assert (Hh : is_header line = true).
  { apply is_header_iff. unfold _extract_section_name in He.
    destruct (first_match_some _ _ _ He) as [p [g [Hin Hm]]].
    destruct (pattern_group _ _ _ Hin Hm) as [h [w [u [rest [_ [Hne Hs]]]]]].
    rewrite Hs. cbn [app].
    destruct (h ++ w ++ u ++ rest) as [|c rest'] eqn:E2; [|eauto].
    exfalso. apply app_eq_nil in E2. destruct E2 as [_ E2].
    apply app_eq_nil in E2. destruct E2 as [_ E2].
    apply app_eq_nil in E2. destruct E2 as [E2 _]. contradiction. }
  split.
  - unfold is_header in Hh. rewrite He in Hh. cbn [truthy] in Hh.
    apply nonempty_true; assumption.
  - destruct (first_match_normalized _ _ _ He) as [x ->].
    destruct (normalize_fixed x) as [H1 H2]. auto.
Qed.

Lemma section_name_normal_form_witness :
  is_ascii (py " ##  Work Experience at ACME ")
  /\ _extract_section_name (py " ##  Work Experience at ACME ")
     = Some (py "experience")
  /\ py "experience" <> [] /\ strip (py "experience") = py "experience"
  /\ lower (py "experience") = py "experience"
  /\ is_header (py " ##  Work Experience at ACME ") = true.
Proof.
  assert (Ha : is_ascii (py " ##  Work Experience at ACME "))
    by (apply is_ascii_check; reflexivity).
  assert (He : _extract_section_name (py " ##  Work Experience at ACME ")
               = Some (py "experience")) by reflexivity.
  split; [exact Ha|]. split; [exact He|].
  exact (section_name_normal_form _ _ Ha He).
Defined.

(** *** Letter case *)

(** X5.  Header recognition does not depend on letter case: two lines that
    agree up to the case of their letters are both headers or both not,
    and of the same name. *)
Theorem section_header_case_insensitive (a b : str) :
  is_ascii a -> is_ascii b -> lower a = lower b ->
  _extract_section_name a = _extract_section_name b.
Proof.
  intros _ _ H.
  rewrite <- (extract_lower a), <- (extract_lower b), H. reflexivity.
Qed.

Lemma section_header_case_insensitive_witness :
  is_ascii (py "## TECHNICAL skills") /\ is_ascii (py "## Technical Skills")
  /\ lower (py "## TECHNICAL skills") = lower (py "## Technical Skills")
  /\ _extract_section_name (py "## TECHNICAL skills")
     = _extract_section_name (py "## Technical Skills").
Proof.
  assert (Ha : is_ascii (py "## TECHNICAL skills"))
    by (apply is_ascii_check; reflexivity).
  assert (Hb : is_ascii (py "## Technical Skills"))
    by (apply is_ascii_check; reflexivity).
  assert (E : lower (py "## TECHNICAL skills") = lower (py "## Technical Skills"))
    by reflexivity.
  split; [exact Ha|]. split; [exact Hb|]. split; [exact E|].
  exact (section_header_case_insensitive _ _ Ha Hb E).
Defined.

(** *** Normalization *)

Lemma normalize_strip (x : str) :
  _normalize_section_name (strip x) = _normalize_section_name x.
Proof.
  unfold _normalize_section_name. rewrite <- strip_lower, strip_idem.
  reflexivity.
Qed.

(** X6.  [_normalize_section_name] is idempotent, and it leaves the canonical
    names as they are. *)
Theorem normalize_section_name_idempotent (name : str) :
  is_ascii name ->
  _normalize_section_name (_normalize_section_name name)
  = _normalize_section_name name
  /\ (In name CANONICAL_NAMES -> _normalize_section_name name = name).
Proof.
  intros _. split.
  - unfold _normalize_section_name at 2 3.
    destruct (dict_get_cases (strip (lower name)) mappings (strip (lower name)))
      as [E|E].
    + rewrite E. unfold _normalize_section_name.
      rewrite <- strip_lower, lower_idem, strip_idem. exact E.
    + assert (V : forallb (fun v => str_eqb (_normalize_section_name v) v)
                    (map snd mappings) = true) by (vm_compute; reflexivity).
      rewrite forallb_forall in V. apply str_eqb_eq. apply V. exact E.
  - intros Hin.
    assert (V : forallb (fun v => str_eqb (_normalize_section_name v) v)
                  CANONICAL_NAMES = true) by (vm_compute; reflexivity).
    rewrite forallb_forall in V. apply str_eqb_eq. apply V. exact Hin.
Qed.

Lemma normalize_section_name_idempotent_witness :
  is_ascii (py "  Core Competencies ")
  /\ _normalize_section_name (py "  Core Competencies ") = py "skills"
  /\ _normalize_section_name (_normalize_section_name (py "  Core Competencies "))
     = _normalize_section_name (py "  Core Competencies ").
Proof.
  assert (Ha : is_ascii (py "  Core Competencies "))
    by (apply is_ascii_check; reflexivity).
  split; [exact Ha|]. split; [reflexivity|].
  exact (proj1 (normalize_section_name_idempotent _ Ha)).
Defined.

(** *** Headers that only the generic pattern matches *)

Lemma catch_all_exact (h w title : str) :
  forallb (cmatch HASH) h = true -> forallb isspace w = true ->
  title <> [] -> head_fails (cmatch HASH) title -> head_fails isspace title ->
  no_nl title ->
  re_match (header_re (RPlus CDot)) ((35%N :: h) ++ w ++ title)
  = Some (Some title).
Proof.
  intros Hh Hw Hne Hth Hts Hnl.
  unfold re_match, header_re. rewrite rmatch_seq. cbn [app].
  rewrite rmatch_plus_cons by reflexivity.
  apply star_greedy; [assumption | |].
  { destruct w as [|x w']; [exact Hth|]. cbn [app head_fails].
    cbn [forallb] in Hw. apply andb_true_iff in Hw. destruct Hw as [Hx _].
    apply space_not_hash; assumption. }
  rewrite rmatch_seq, rmatch_star.
  apply star_greedy; [assumption | assumption |].
  rewrite rmatch_group.
  destruct title as [|x t']; [congruence|].
  assert (Hx : cmatch CDot x = true).
  { cbn [cmatch]. apply negb_true_iff, N.eqb_neq. intros ->.
    apply Hnl. left; reflexivity. }
  rewrite rmatch_plus_cons by assumption.
  rewrite <- (app_nil_r t') at 1.
  apply star_greedy.
  - apply forallb_forall. intros y Hy. cbn [cmatch].
    apply negb_true_iff, N.eqb_neq. intros ->. apply Hnl. right; assumption.
  - exact I.
  - cbn [List.length]. rewrite Nat.sub_0_r.
    change (S (List.length t')) with (List.length (x :: t')).
    rewrite firstn_all. reflexivity.
Qed.

(** X7.  A header line whose title is matched by none of the eleven specific
    patterns is named by its whole title: lower-cased, trimmed, and sent
    through the table of [_normalize_section_name]. *)
Theorem generic_header_name (line hashes ws title : str) :
  is_ascii line ->
  strip line = hashes ++ ws ++ title ->
  hashes <> [] ->
  forallb (N.eqb 35%N) hashes = true ->
  forallb isspace ws = true ->
  title <> [] ->
  head_fails (N.eqb 35%N) title ->
  head_fails isspace title ->
  no_nl title ->
  first_consume SPECIFIC_BODIES title = None ->
  _extract_section_name line = Some (_normalize_section_name title).
Proof.
  intros _ Hs Hne Hh Hw Htne Hth Hts Hnl Hnone.
  unfold _extract_section_name. rewrite Hs.
  destruct (lower_hashes _ Hh) as [_ Hh'].
  destruct hashes as [|x h]; [congruence|].
  cbn [forallb] in Hh, Hh'. apply andb_true_iff in Hh, Hh'.
  destruct Hh as [Hx _]. destruct Hh' as [_ Hh']. apply N.eqb_eq in Hx.
  subst x.
  assert (Hth' : head_fails (cmatch HASH) title).
  { destruct title as [|c t']; [exact I|]. cbn [head_fails] in *.
    destruct (cmatch HASH c) eqn:E; [|reflexivity].
    apply cmatch_hash in E. subst c. discriminate. }
  rewrite section_patterns_bodies, map_app.
  rewrite first_match_bodies;
    [| exact specific_bodies_letters | assumption | assumption
     | assumption | assumption].
  rewrite Hnone. cbn [map first_match].
  rewrite catch_all_exact by assumption.
  rewrite normalize_strip. reflexivity.
Qed.

Lemma generic_header_name_witness :
  _extract_section_name (py "## Professional Summary") = Some (py "summary")
  /\ _extract_section_name (py "### Volunteer Work")
     = Some (py "volunteer work").
Proof.
  split.
  - apply (generic_header_name (py "## Professional Summary") (py "##")
             (py " ") (py "Professional Summary"));
      try reflexivity; try discriminate.
    + apply is_ascii_check; reflexivity.
    + intros H. vm_compute in H. repeat (destruct H as [H|H]; [discriminate|]).
      exact H.
  - apply (generic_header_name (py "### Volunteer Work") (py "###")
             (py " ") (py "Volunteer Work"));
      try reflexivity; try discriminate.
    + apply is_ascii_check; reflexivity.
    + intros H. vm_compute in H. repeat (destruct H as [H|H]; [discriminate|]).
      exact H.
Defined.
(* ================================================================== *)
(** ** Repeated section names, and the validation of parsed sections *)
(* ================================================================== *)

(** *** A section name that occurs more than once *)

Lemma dict_get_set (n k v dflt : str) (d : dict) :
  dict_get n (dict_set k v d) dflt
  = if str_eqb k n then v else dict_get n d dflt.
Proof.
  induction d as [|[k' v'] d IH].
  - cbn [dict_set dict_get]. reflexivity.
  - cbn [dict_set dict_get]. destruct (str_eqb k' k) eqn:E.
    + apply str_eqb_eq in E. subst k'. cbn [dict_get].
      destruct (str_eqb k n); reflexivity.
    + cbn [dict_get]. rewrite IH.
      destruct (str_eqb k' n) eqn:E'; [|reflexivity].
      apply str_eqb_eq in E'. subst k'. rewrite str_eqb_sym, E. reflexivity.
Qed.

Lemma dict_get_absent (n dflt : str) (d : dict) :
  ~ In n (keys d) -> dict_get n d dflt = dflt.
Proof.
  induction d as [|[k v] d IH]; [reflexivity|]. cbn [keys map fst dict_get].
  intros H. destruct (str_eqb k n) eqn:E.
  - apply str_eqb_eq in E. exfalso. apply H. left; assumption.
  - apply IH. intros Hn. apply H. right; assumption.
Qed.

Lemma clean_keys (d : dict) (k : str) : In k (keys (clean d)) -> In k (keys d).
Proof.
  unfold keys, clean. intros H. apply in_map_iff in H.
  destruct H as [[k' v] [<- H]]. apply filter_In in H.
  apply in_map_iff. exists (k', v). tauto.
Qed.

Lemma dict_get_clean (n : str) (d : dict) :
  wf_dict d -> Forall (fun kv => strip (snd kv) = snd kv) d ->
  dict_get n (clean d) [] = dict_get n d [].
Proof.
  unfold wf_dict. induction d as [|[k v] d IH]; intros Hwf Hv; [reflexivity|].
  cbn [keys map fst] in Hwf. inversion Hwf as [|? ? Hk Hd]; subst.
  inversion Hv as [|? ? Hkv Hvd]; subst. cbn [snd] in Hkv.
  cbn [clean filter snd dict_get]. fold (clean d).
  destruct (nonempty (strip v)) eqn:E.
  - cbn [dict_get]. destruct (str_eqb k n); [reflexivity | auto].
  - apply nonempty_false in E. rewrite Hkv in E. subst v.
    destruct (str_eqb k n) eqn:En; [|auto].
    apply str_eqb_eq in En. subst k. apply dict_get_absent.
    intros Hin. apply Hk. apply clean_keys; assumption.
Qed.

Lemma commit_wf (d : dict) (name : str) (lines : list str) :
  wf_dict d -> wf_dict (commit d name lines).
Proof.
  intros H. unfold commit.
  destruct (nonempty name && nonempty lines); [apply dict_set_wf|]; assumption.
Qed.

Lemma commit_stripped (d : dict) (name : str) (lines : list str) :
  Forall (fun kv => strip (snd kv) = snd kv) d ->
  Forall (fun kv => strip (snd kv) = snd kv) (commit d name lines).
Proof.
  intros H. unfold commit.
  destruct (nonempty name && nonempty lines); [|assumption].
  apply dict_set_Forall; [|assumption]. intros k'. apply strip_idem.
Qed.

Lemma fold_commit_inv (entries : list (str * list str)) (d : dict) :
  wf_dict d -> Forall (fun kv => strip (snd kv) = snd kv) d ->
  wf_dict (fold_left (fun d nb => commit d (fst nb) (snd nb)) entries d)
  /\ Forall (fun kv => strip (snd kv) = snd kv)
       (fold_left (fun d nb => commit d (fst nb) (snd nb)) entries d).
Proof.
  revert d. induction entries as [|[n ls] entries IH]; intros d Hwf Hs;
    [auto|].
  simpl. apply IH; [apply commit_wf | apply commit_stripped]; assumption.
Qed.

Lemma dict_get_fold_commit (n : str) (entries : list (str * list str))
  (d : dict) :
  Forall (fun e => fst e <> []) entries ->
  dict_get n (fold_left (fun d nb => commit d (fst nb) (snd nb)) entries d) []
  = last_body n entries (dict_get n d []).
Proof.
  revert d. induction entries as [|[name ls] entries IH]; intros d Hne;
    [reflexivity|].
  inversion Hne as [|? ? Hn Hrest]; subst. cbn [fst] in Hn.
  cbn [fold_left last_body fst snd]. rewrite IH by assumption. f_equal.
  unfold commit. apply nonempty_true in Hn. rewrite Hn. cbn [andb].
  destruct (nonempty ls).
  - rewrite dict_get_set. rewrite andb_true_r. reflexivity.
  - rewrite andb_false_r. reflexivity.
Qed.

Lemma parse_headed (pre : list str) (blocks : list header_block)
  (names : list str) :
  headed pre blocks names ->
  exists d0,
    (d0 = [] \/ d0 = [(py "header", [])])
    /\ _parse_markdown_content (document pre blocks)
       = clean (fold_left (fun d nb => commit d (fst nb) (snd nb))
                  (combine names (map snd blocks)) d0).
Proof.
  intros [Hpre Hblocks].
  unfold _parse_markdown_content, document.
  destruct (pre ++ List.concat (map block_lines blocks)) as [|l0 ls0] eqn:Elines.
  { apply app_eq_nil in Elines. destruct Elines as [-> Hc].
    destruct blocks as [|b blocks]; [|discriminate].
    inversion Hblocks; subst. exists []. split; [left|]; reflexivity. }
  rewrite <- Elines. rewrite split_join.
  2: { rewrite Elines; discriminate. }
  2: { apply Forall_app. split.
       - eapply Forall_impl; [|exact Hpre]. intros l [_ H]. exact H.
       - clear Elines. induction Hblocks as [|b n bs ns [_ [_ [H1 H2]]] _ IH];
           [constructor|].
         cbn [map List.concat block_lines]. constructor; [exact H1|].
         apply Forall_app. split; [|exact IH].
         eapply Forall_impl; [|exact H2]. intros l [_ H]. exact H. }
  unfold parse_lines, run. rewrite fold_left_app.
  set (st0 := fold_left step pre initial).
  rewrite (run_blocks blocks names st0 Hblocks).
  exists (save st0). split; [|reflexivity].
  unfold st0. destruct pre as [|p pre']; [left; reflexivity|].
  right. rewrite run_preamble.
  - rewrite save_commit. unfold commit. cbn [nonempty andb py].
    assert (Eb : strip (join [NL] (p :: pre')) = []).
    { apply strip_nil_iff. rewrite blank_join.
      apply forallb_forall. intros l Hl.
      rewrite Forall_forall in Hpre. apply (Hpre l Hl). }
    rewrite Eb. reflexivity.
  - eapply Forall_impl; [|exact Hpre]. intros l [B _].
    apply blank_not_header; assumption.
Qed.

(** X8.  When section names repeat in a document of header blocks, what
    [sections.get(n, "")] returns after parsing is the trimmed body of
    the last header named [n] that has at least one line below it, even
    when that body is blank; the bodies of the earlier headers of that
    name are lost. *)
Theorem repeated_header_last_body (pre : list str)
  (blocks : list header_block) (names : list str) (n : str) :
  headed pre blocks names ->
  dict_get n (_parse_markdown_content (document pre blocks)) []
  = last_body n (combine names (map snd blocks)) [].
Proof.
  intros H. destruct (parse_headed _ _ _ H) as [d0 [Hd0 ->]].
  destruct H as [_ Hblocks].
  assert (Hinit : wf_dict d0
                  /\ Forall (fun kv => strip (snd kv) = snd kv) d0
                  /\ dict_get n d0 [] = []).
  { destruct Hd0 as [->| ->].
    - repeat split; constructor.
    - repeat split.
      + unfold wf_dict. cbn [keys map fst]. constructor; [intros []|constructor].
      + constructor; [reflexivity|constructor].
      + cbn [dict_get]. destruct (str_eqb (py "header") n); reflexivity. }
  destruct Hinit as [Hwf [Hs Hg]].
  destruct (fold_commit_inv (combine names (map snd blocks)) d0 Hwf Hs)
    as [Hwf' Hs'].
  rewrite dict_get_clean by assumption.
  rewrite dict_get_fold_commit; [rewrite Hg; reflexivity|].
  apply Forall_forall. intros [name ls] Hin. cbn [fst].
  apply in_combine_l in Hin. apply canonical_names_nonempty.
  clear - Hblocks Hin. induction Hblocks as [|b n' bs ns [_ [Hc _]] _ IH];
    [contradiction|].
  destruct Hin as [<-|Hin]; auto.
Qed.

Lemma repeated_header_last_body_witness :
  headed [] repeated_blocks [py "skills"; py "education"; py "skills"]
  /\ document [] repeated_blocks
     = py "## Skills\nPython\n## Education\nMIT\n## Technical Skills\n"
  /\ _parse_markdown_content (document [] repeated_blocks)
     = [(py "education", py "MIT")]
  /\ dict_get (py "skills") (_parse_markdown_content (document [] repeated_blocks)) []
     = [].
Proof.
  assert (Hh : headed [] repeated_blocks
                 [py "skills"; py "education"; py "skills"]).
  { split; [constructor|]. unfold repeated_blocks.
    repeat (constructor;
            [ split; [reflexivity|]; split; [simpl; tauto|];
              split; [vm_compute; intuition discriminate|];
              repeat (constructor;
                      [split; [reflexivity
                              | vm_compute; intuition discriminate]|]);
              constructor
            | ]).
    constructor. }
  split; [exact Hh|]. split; [reflexivity|]. split; [reflexivity|].
  rewrite (repeated_header_last_body [] repeated_blocks _ (py "skills") Hh).
  reflexivity.
Defined.

(** *** validate_parsed_resume *)

Lemma validate_parts (sections : dict) :
  validate_parsed_resume sections
  = ((if negb (dict_mem (py "experience") sections)
      then [py "Missing essential section: " ++ py "experience"] else [])
     ++ (if negb (dict_mem (py "education") sections)
         then [py "Missing essential section: " ++ py "education"] else []))
    ++ (if nonempty
             (map fst (filter (fun item => negb (nonempty (strip (snd item))))
                         sections))
        then [py "Empty sections found: "
                ++ join (py ", ")
                     (map fst
                        (filter (fun item => negb (nonempty (strip (snd item))))
                           sections))]
        else [])
    ++ (if nonempty
             (map fst
                (filter
                   (fun item =>
                      (List.length (split_whitespace (snd item)) <? 3)
                      && mem (fst item) [py "experience"; py "summary"])
                   sections))
        then [py "Sections may need more detail: "
                ++ join (py ", ")
                     (map fst
                        (filter
                           (fun item =>
                              (List.length (split_whitespace (snd item)) <? 3)
                              && mem (fst item) [py "experience"; py "summary"])
                           sections))]
        else []).
Proof.
  unfold validate_parsed_resume. cbn [fold_left].
  destruct (negb (dict_mem (py "experience") sections));
    destruct (negb (dict_mem (py "education") sections));
    destruct (nonempty (map fst (filter _ sections)));
    destruct (nonempty (map fst (filter _ sections)));
    cbn [app]; rewrite ?app_nil_r; reflexivity.
Qed.

Lemma filter_empty_iff {A : Type} (f : A -> bool) (l : list A) :
  filter f l = [] <-> forall x, In x l -> f x = false.
Proof.
  induction l as [|a l IH]; simpl; [tauto|].
  destruct (f a) eqn:E.
  - split; [discriminate|]. intros H. rewrite (H a) in E; [discriminate|].
    left; reflexivity.
  - rewrite IH. split.
    + intros H x [<-|Hx]; auto.
    + intros H x Hx. apply H. right; assumption.
Qed.

Lemma nonempty_map_false {A B : Type} (g : A -> B) (l : list A) :
  nonempty (map g l) = false <-> l = [].
Proof. destruct l; simpl; split; congruence. Qed.

(** X9.  The sections that [_parse_markdown_content] returns never draw the
    issue "Empty sections found" from [validate_parsed_resume]: the parser
    has dropped the blank sections already. *)
Theorem validate_after_parse (content issue : str) :
  In issue (validate_parsed_resume (_parse_markdown_content content)) ->
  startswith (py "Empty sections found") issue = false.
Proof.
  rewrite validate_parts.
  assert (E : filter (fun item => negb (nonempty (strip (snd item))))
                (_parse_markdown_content content) = []).
  { apply filter_empty_iff. intros [k v] Hin. cbn [snd].
    destruct (proj2 (parse_result content) k v Hin) as [Hs [Hne _]].
    rewrite Hs. apply negb_false_iff, nonempty_true. assumption. }
  rewrite E. cbn [map nonempty].
  intros H. apply in_app_iff in H. destruct H as [H|H].
  - apply in_app_iff in H. destruct H as [H|H].
    + destruct (negb (dict_mem (py "experience") _)); [|contradiction].
      destruct H as [<-|[]]. reflexivity.
    + destruct (negb (dict_mem (py "education") _)); [|contradiction].
      destruct H as [<-|[]]. reflexivity.
  - cbn [app] in H.
    destruct (nonempty (map fst (filter _ _))); [|contradiction].
    destruct H as [<-|[]]. reflexivity.
Qed.

Lemma validate_after_parse_witness :
  validate_parsed_resume (_parse_markdown_content (py "## Skills\n\n## Summary\nEngineer"))
  = [ py "Missing essential section: experience";
      py "Missing essential section: education";
      py "Sections may need more detail: summary" ]
  /\ startswith (py "Empty sections found")
       (py "Missing essential section: education") = false.
Proof.
  split; [reflexivity|].
  apply (validate_after_parse (py "## Skills\n\n## Summary\nEngineer")).
  right; left; reflexivity.
Defined.

(** X10.  [validate_parsed_resume] reports nothing exactly when both essential
    sections are present, no section is blank, and the sections
    "experience" and "summary" have at least three words each. *)
Theorem validate_no_issues_iff (sections : dict) :
  validate_parsed_resume sections = []
  <-> (dict_mem (py "experience") sections = true
       /\ dict_mem (py "education") sections = true
       /\ forall k v, In (k, v) sections ->
            strip v <> []
            /\ (k = py "experience" \/ k = py "summary" ->
                3 <= List.length (split_whitespace v))).
Proof.
  rewrite validate_parts. split.
  - intros H. apply app_eq_nil in H. destruct H as [H1 H2].
    apply app_eq_nil in H1. destruct H1 as [Ha Hb].
    apply app_eq_nil in H2. destruct H2 as [Hc Hd].
    destruct (dict_mem (py "experience") sections); [|discriminate].
    destruct (dict_mem (py "education") sections); [|discriminate].
    split; [reflexivity|]. split; [reflexivity|].
    destruct (nonempty (map fst (filter (fun item => negb (nonempty (strip (snd item)))) sections)))
      eqn:E1; [discriminate|].
    destruct (nonempty (map fst (filter (fun item => (List.length (split_whitespace (snd item)) <? 3) && mem (fst item) [py "experience"; py "summary"]) sections)))
      eqn:E2; [discriminate|].
    apply nonempty_map_false in E1, E2.
    intros k v Hin. split.
    + pose proof (proj1 (filter_empty_iff _ _) E1 (k, v) Hin) as F.
      cbn [snd] in F. apply negb_false_iff, nonempty_true in F. exact F.
    + intros Hk.
      pose proof (proj1 (filter_empty_iff _ _) E2 (k, v) Hin) as F.
      cbn [fst snd] in F.
      assert (M : mem k [py "experience"; py "summary"] = true).
      { apply mem_In. destruct Hk as [->| ->];
          [left | right; left]; reflexivity. }
      rewrite M, andb_true_r in F. apply Nat.ltb_ge in F. exact F.
  - intros [H1 [H2 H3]]. rewrite H1, H2. cbn [negb app].
    assert (E1 : filter (fun item => negb (nonempty (strip (snd item))))
                   sections = []).
    { apply filter_empty_iff. intros [k v] Hin. cbn [snd].
      apply negb_false_iff, nonempty_true. apply (H3 k v Hin). }
    assert (E2 : filter
                   (fun item =>
                      (List.length (split_whitespace (snd item)) <? 3)
                      && mem (fst item) [py "experience"; py "summary"])
                   sections = []).
    { apply filter_empty_iff. intros [k v] Hin. cbn [fst snd].
      destruct (mem k [py "experience"; py "summary"]) eqn:M;
        [|apply andb_false_r].
      rewrite andb_true_r. apply Nat.ltb_ge. apply (H3 k v Hin).
      apply mem_In in M. destruct M as [M|[M|[]]];
        [left | right]; symmetry; exact M. }
    rewrite E1, E2. reflexivity.
Qed.
(* ================================================================== *)
(** ** Further properties of the formatter *)
(* ================================================================== *)

(** *** The block of one section *)

Lemma format_section_blank (k v template : str) :
  strip v = [] -> _format_section k v template = [].
Proof. intros E. unfold _format_section. rewrite E. reflexivity. Qed.

Lemma format_section_heading (k v template : str) :
  strip v <> [] ->
  startswith (if str_eqb k (py "header") then py "# " else py "## ")
    (_format_section k v template) = true.
Proof.
  intros Hne. unfold _format_section.
  destruct (strip v) as [|c l] eqn:E; [congruence|].
  cbn [nonempty negb]. cbv iota.
  destruct (str_eqb k (py "header")).
  { unfold _format_header_section.
    destruct (find _ _); reflexivity. }
  destruct (str_eqb k (py "contact")).
  { unfold _format_contact_section. rewrite E. reflexivity. }
  destruct (str_eqb k (py "summary")).
  { unfold _format_summary_section. rewrite E. reflexivity. }
  destruct (str_eqb k (py "experience")).
  { unfold _format_experience_section. rewrite E. reflexivity. }
  destruct (str_eqb k (py "skills")).
  { unfold _format_skills_section. rewrite E. reflexivity. }
  unfold _format_generic_section. rewrite E. reflexivity.
Qed.

(** The preview of a section is empty exactly when its content is blank;
    any other preview begins with a markdown heading: "# " for the section
    "header", "## " for every other section. *)
Theorem preview_section_heading (section_name content template : str) :
  (preview_section section_name content template = []
   <-> strip content = [])
  /\ (strip content <> [] ->
      startswith
        (if str_eqb section_name (py "header") then py "# " else py "## ")
        (preview_section section_name content template) = true).
Proof.
  unfold preview_section. split; [split|].
  - intros E. destruct (strip content) as [|c l] eqn:Es; [reflexivity|].
    assert (H : strip content <> []) by (rewrite Es; discriminate).
    apply (format_section_heading section_name content template) in H.
    rewrite E in H. destruct (str_eqb section_name (py "header")); discriminate.
  - apply format_section_blank.
  - apply format_section_heading.
Qed.

(** *** A resume of one section *)

Lemma single_section_order (n c template : str) :
  _get_section_order [(n, c)] template = [n].
Proof.
  destruct (mem n DEFAULT_SECTION_ORDER) eqn:M.
  - apply mem_In in M. unfold DEFAULT_SECTION_ORDER in M.
    repeat (destruct M as [<-|M]; [reflexivity|]). contradiction.
  - unfold _get_section_order.
    rewrite filter_none.
    + cbn [keys map fst add_remaining mem existsb negb app]. reflexivity.
    + intros k Hk. unfold dict_mem. cbn [keys map fst mem existsb].
      rewrite orb_false_r. apply str_eqb_neq. intros ->.
      apply mem_In in Hk. congruence.
Qed.

(** X11.  For a resume of a single section, [format_resume] returns what
    [preview_section] shows for that section. *)
Theorem single_section_document (section_name content template : str) :
  format_resume [(section_name, content)] template
  = Return (preview_section section_name content template).
Proof.
  unfold format_resume. cbn [nonempty negb]. cbv iota.
  rewrite single_section_order. cbn [format_parts].
  unfold dict_mem. cbn [keys map fst mem existsb dict_getitem].
  rewrite str_eqb_refl. cbn [orb]. unfold preview_section.
  destruct (_format_section section_name content template); reflexivity.
Qed.

(** *** Blank sections *)

Lemma dict_get_blank (sections : dict) (k : str) :
  (forall k v, In (k, v) sections -> strip v = []) ->
  strip (dict_get k sections []) = [].
Proof.
  intros H. destruct (dict_get_cases k sections []) as [E|E].
  - rewrite E. reflexivity.
  - apply in_map_iff in E. destruct E as [[k' v] [Ev Hin]].
    cbn [snd] in Ev. rewrite <- Ev. eapply H; eassumption.
Qed.

(** X12.  A resume that has sections, all of them blank, is formatted to the
    empty string; the placeholder document is kept for the resume without
    any section. *)
Theorem all_blank_sections_empty_document (sections : dict) (template : str) :
  sections <> [] ->
  (forall k v, In (k, v) sections -> strip v = []) ->
  format_resume sections template = Return [].
Proof.
  intros Hne Hb. rewrite format_resume_spec by assumption.
  rewrite filter_none; [reflexivity|].
  intros x Hx. apply in_map_iff in Hx. destruct Hx as [k [<- _]].
  unfold block. rewrite format_section_blank; [reflexivity|].
  apply dict_get_blank; assumption.
Qed.

Lemma all_blank_sections_empty_document_witness :
  format_resume [(py "summary", py "  "); (py "skills", py "\n")] (py "default")
  = Return []
  /\ format_resume [] (py "default")
     = Return (py "# Resume\n\n*No content available*").
Proof.
  split; [|reflexivity].
  apply all_blank_sections_empty_document; [discriminate|].
  intros k v [H|[H|[]]]; inversion H; reflexivity.
Defined.

Lemma dict_get_head_other (k k' v dflt : str) (d : dict) :
  k' <> k -> dict_get k' ((k, v) :: d) dflt = dict_get k' d dflt.
Proof.
  intros H. cbn [dict_get]. apply not_eq_sym in H.
  apply str_eqb_neq in H. rewrite H. reflexivity.
Qed.

Lemma clean_keys_filter (d : dict) :
  wf_dict d ->
  keys (clean d)
  = filter (fun k => nonempty (strip (dict_get k d []))) (keys d).
Proof.
  unfold wf_dict. induction d as [|[k v] d IH]; intros Hwf; [reflexivity|].
  cbn [keys map fst] in Hwf. inversion Hwf as [|? ? Hk Hd]; subst.
  cbn [clean filter snd keys map fst]. fold (clean d) (keys d).
  cbn [dict_get]. rewrite str_eqb_refl.
  assert (E : filter (fun k0 => nonempty (strip (dict_get k0 ((k, v) :: d) [])))
                (keys d)
              = filter (fun k0 => nonempty (strip (dict_get k0 d []))) (keys d)).
  { apply filter_ext_in. intros k' Hk'. rewrite dict_get_head_other;
      [reflexivity|]. intros ->. contradiction. }
  change (fun k0 : str =>
            nonempty (strip (if str_eqb k k0 then v else dict_get k0 d [])))
    with (fun k0 : str => nonempty (strip (dict_get k0 ((k, v) :: d) []))).
  rewrite E, <- (IH Hd).
  destruct (nonempty (strip v)); reflexivity.
Qed.

Lemma dict_get_clean_kept (k : str) (d : dict) :
  wf_dict d -> nonempty (strip (dict_get k d [])) = true ->
  dict_get k (clean d) [] = dict_get k d [].
Proof.
  unfold wf_dict. induction d as [|[k0 v] d IH]; intros Hwf Hq; [reflexivity|].
  cbn [keys map fst] in Hwf. inversion Hwf as [|? ? Hk Hd]; subst.
  cbn [clean filter snd]. fold (clean d). cbn [dict_get] in *.
  destruct (str_eqb k0 k) eqn:E.
  - rewrite Hq. cbn [dict_get]. rewrite E. reflexivity.
  - destruct (nonempty (strip v)); cbn [dict_get]; rewrite ?E; auto.
Qed.

Lemma dict_mem_clean (k : str) (d : dict) :
  wf_dict d ->
  dict_mem k (clean d)
  = dict_mem k d && nonempty (strip (dict_get k d [])).
Proof.
  intros Hwf. unfold dict_mem. rewrite clean_keys_filter by assumption.
  destruct (mem k (keys d)) eqn:M; cbn [andb].
  - destruct (nonempty (strip (dict_get k d []))) eqn:Q.
    + apply mem_In. apply filter_In. split; [apply mem_In; assumption|].
      exact Q.
    + destruct (mem k (filter _ (keys d))) eqn:M'; [|reflexivity].
      apply mem_In, filter_In in M'. destruct M' as [_ M']. congruence.
  - destruct (mem k (filter _ (keys d))) eqn:M'; [|reflexivity].
    apply mem_In, filter_In in M'. destruct M' as [M' _].
    apply mem_In in M'. congruence.
Qed.

Lemma filter_filter {A : Type} (f g : A -> bool) (l : list A) :
  filter f (filter g l) = filter (fun x => g x && f x) l.
Proof.
  induction l as [|a l IH]; [reflexivity|]. simpl.
  destruct (g a); simpl; [destruct (f a)|]; rewrite IH; reflexivity.
Qed.

Lemma clean_section_order (d : dict) (template : str) :
  wf_dict d ->
  _get_section_order (clean d) template
  = filter (fun k => nonempty (strip (dict_get k d [])))
      (_get_section_order d template).
Proof.
  intros Hwf.
  rewrite (get_section_order_spec (clean d) template)
    by (apply filter_keys_nodup; assumption).
  rewrite (get_section_order_spec d template Hwf).
  rewrite filter_app, !filter_filter. f_equal.
  - apply filter_ext. intros k. apply dict_mem_clean; assumption.
  - rewrite clean_keys_filter by assumption. rewrite filter_filter.
    apply filter_ext. intros k. apply andb_comm.
Qed.

Lemma filter_map_skip {A B : Type} (p : B -> bool) (f g : A -> B)
  (q : A -> bool) (l : list A) :
  (forall x, q x = false -> p (f x) = false) ->
  (forall x, q x = true -> g x = f x) ->
  filter p (map g (filter q l)) = filter p (map f l).
Proof.
  intros Hskip Hsame. induction l as [|a l IH]; [reflexivity|]. simpl.
  destruct (q a) eqn:Q; simpl.
  - rewrite (Hsame a Q), IH. reflexivity.
  - rewrite (Hskip a Q), IH. reflexivity.
Qed.

(** X13.  Blank sections do not show in the formatted resume: dropping them
    from the sections first, as the parser does, changes nothing, as long
    as one section is left. *)
Theorem blank_sections_are_skipped (sections : dict) (template : str) :
  wf_dict sections -> clean sections <> [] ->
  format_resume (clean sections) template = format_resume sections template.
Proof.
  intros Hwf Hne.
  assert (Hne' : sections <> []) by (intros ->; apply Hne; reflexivity).
  rewrite !format_resume_spec by assumption.
  rewrite clean_section_order by assumption.
  rewrite (filter_map_skip nonempty (block sections template)
             (block (clean sections) template)); [reflexivity| |].
  - intros k Q. unfold block. rewrite format_section_blank; [reflexivity|].
    apply nonempty_false; assumption.
  - intros k Q. unfold block. rewrite dict_get_clean_kept by assumption.
    reflexivity.
Qed.

Lemma blank_sections_are_skipped_witness :
  wf_dict [(py "summary", py "  "); (py "skills", py "Python")]
  /\ clean [(py "summary", py "  "); (py "skills", py "Python")]
     = [(py "skills", py "Python")]
  /\ format_resume [(py "skills", py "Python")] (py "default")
     = format_resume [(py "summary", py "  "); (py "skills", py "Python")]
         (py "default").
Proof.
  assert (Hwf : wf_dict [(py "summary", py "  "); (py "skills", py "Python")]).
  { unfold wf_dict. cbn [keys map fst].
    repeat (constructor; [simpl; intuition discriminate|]). constructor. }
  split; [exact Hwf|]. split; [reflexivity|].
  apply (blank_sections_are_skipped
           [(py "summary", py "  "); (py "skills", py "Python")]
           (py "default") Hwf).
  discriminate.
Defined.

(** *** The header block *)

(** X14.  The block of the section "header" is a single line, "# " and the
    first line of the trimmed content; the lines below it are not
    rendered. *)
Theorem header_block_single_line (content : str) :
  no_nl (_format_header_section content)
  /\ startswith (py "# ") (_format_header_section content) = true
  /\ (strip content <> [] ->
      exists first rest,
        split NL (strip content) = first :: rest
        /\ _format_header_section content = py "# " ++ strip first).
Proof.
  split; [|split].
  - unfold _format_header_section, no_nl.
    destruct (find _ _) as [line|] eqn:F.
    + apply find_some in F. destruct F as [Hin _].
      pose proof (split_lines_no_sep NL (strip content)) as Hall.
      rewrite Forall_forall in Hall. specialize (Hall _ Hin).
      intros [H|[H|H]]; [discriminate | discriminate|].
      apply Hall. apply strip_incl; assumption.
    + vm_compute. intuition discriminate.
  - unfold _format_header_section. destruct (find _ _); reflexivity.
  - intros Hne.
    destruct (strip_shape content Hne) as [x [m [r [y [H1 [_ [Hx _]]]]]]].
    destruct (split_head NL x m (space_not_NL _ Hx)) as [l [ls Hs]].
    exists (x :: l), ls. rewrite H1. split; [exact Hs|].
    unfold _format_header_section. rewrite H1, Hs. cbn [find].
    assert (B : nonempty (strip (x :: l)) = true).
    { apply nonempty_true, strip_nonblank, blank_cons_nonspace. assumption. }
    rewrite B. reflexivity.
Qed.
(* ================================================================== *)
(** ** Further properties of the skills and experience rules *)
(* ================================================================== *)

(** *** The packing of the skills *)

Lemma packed_width_snoc (g : list str) (skill : str) :
  g <> [] ->
  packed_width (g ++ [skill]) = packed_width g + 3 + List.length skill.
Proof.
  intros Hne. unfold packed_width.
  rewrite join_app; [|assumption|discriminate].
  rewrite !length_app. cbn [join BULLET_SEP List.length]. lia.
Qed.

Lemma length_snoc_not_1 {A : Type} (g : list A) (x : A) :
  g <> [] -> List.length (g ++ [x]) <> 1.
Proof.
  intros Hne. destruct g as [|a g]; [congruence|].
  cbn [app List.length]. rewrite length_app. cbn [List.length]. lia.
Qed.

Lemma pack_step_inv (seen : list str) (gs : list (list str)) (st : packing)
  (skill : str) :
  pack_inv seen gs st ->
  exists gs', pack_inv (seen ++ [skill]) gs' (pack_step st skill)
              /\ current_line (pack_step st skill) <> [].
Proof.
  intros [Hfs [Hseen [Hgs Hcl]]]. unfold pack_step.
  destruct ((60 <? current_length st + List.length skill)
            && nonempty (current_line st)) eqn:C.
  - apply andb_true_iff in C. destruct C as [_ C]. apply nonempty_true in C.
    destruct Hcl as [[E _]|[_ [_ Hfit]]]; [congruence|].
    exists (gs ++ [current_line st]). split; [|discriminate].
    repeat split; cbn [formatted_skills current_line current_length].
    + rewrite Hfs, map_app. reflexivity.
    + rewrite concat_app. cbn [List.concat]. rewrite app_nil_r.
      rewrite Hseen. reflexivity.
    + apply Forall_app. split; [assumption|].
      constructor; [split; assumption | constructor].
    + right. split; [discriminate|]. split; [|left; reflexivity].
      unfold packed_width. cbn [join]. lia.
  - exists gs. split.
    2: { cbn [current_line]. intros E. apply app_eq_nil in E.
         destruct E; discriminate. }
    repeat split; cbn [formatted_skills current_line current_length];
      [assumption | rewrite app_assoc, Hseen; reflexivity | assumption |].
    right. split.
    { intros E. apply app_eq_nil in E. destruct E; discriminate. }
    destruct Hcl as [[E0 L0]|[Hne [Hw Hfit]]].
    + rewrite E0, L0. cbn [app]. unfold packed_width. cbn [join].
      split; [lia | left; reflexivity].
    + rewrite packed_width_snoc by assumption.
      apply nonempty_true in Hne. rewrite Hne, andb_true_r in C.
      apply Nat.ltb_ge in C. split; [lia|]. right.
      rewrite packed_width_snoc by (apply nonempty_true; assumption). lia.
Qed.

Lemma pack_fold_inv (skills : list str) :
  forall (seen : list str) (gs : list (list str)) (st : packing),
    pack_inv seen gs st ->
    exists gs', pack_inv (seen ++ skills) gs' (fold_left pack_step skills st).
Proof.
  induction skills as [|skill skills IH]; intros seen gs st H.
  - exists gs. rewrite app_nil_r. assumption.
  - cbn [fold_left].
    destruct (pack_step_inv seen gs st skill H) as [gs1 [H1 _]].
    destruct (IH _ _ _ H1) as [gs' H'].
    exists gs'. rewrite <- app_assoc in H'. exact H'.
Qed.

Lemma pack_skills_groups_inv (skills : list str) :
  exists groups,
    pack_skills skills = map bullet_line groups
    /\ List.concat groups = skills
    /\ Forall (fun g => g <> [] /\ fits g) groups.
Proof.
  assert (H0 : pack_inv [] [] (mkPacking [] [] 0)).
  { split; [reflexivity|]. split; [reflexivity|]. split; [constructor|].
    left. split; reflexivity. }
  destruct (pack_fold_inv skills [] [] _ H0) as [gs [Hfs [Hseen [Hgs Hcl]]]].
  cbn [app] in Hseen. unfold pack_skills.
  set (st := fold_left pack_step skills (mkPacking [] [] 0)) in *.
  destruct (current_line st) as [|c cl] eqn:E.
  - exists gs. cbn [nonempty]. rewrite app_nil_r in Hseen. auto.
  - exists (gs ++ [c :: cl]). cbn [nonempty].
    rewrite Hfs, map_app. split; [reflexivity|]. split.
    + rewrite concat_app. cbn [List.concat]. rewrite app_nil_r. exact Hseen.
    + apply Forall_app. split; [assumption|].
      destruct Hcl as [[E' _]|[_ [_ Hfit]]]; [discriminate|].
      constructor; [split; [discriminate | assumption] | constructor].
Qed.

(** X15.  The packing loses nothing: the lines it lays out hold every skill
    exactly once, in the order given, and no line is without a skill. *)
Theorem pack_skills_keeps_skills (skills : list str) :
  exists groups,
    pack_skills skills = map bullet_line groups
    /\ List.concat groups = skills
    /\ Forall (fun g => g <> []) groups.
Proof.
  destruct (pack_skills_groups_inv skills) as [gs [H1 [H2 H3]]].
  exists gs. split; [assumption|]. split; [assumption|].
  eapply Forall_impl; [|exact H3]. intros g [H _]. exact H.
Qed.

(** X16.  A packed line that holds two skills or more is at most 65 characters
    long ("- " and 63 characters); only a line of a single skill can be
    longer. *)
Theorem pack_skills_line_width (skills : list str) (line : str) :
  In line (pack_skills skills) ->
  exists g,
    line = bullet_line g /\ g <> [] /\ incl g skills
    /\ (List.length g = 1 \/ List.length line <= 65).
Proof.
  destruct (pack_skills_groups_inv skills) as [gs [H1 [H2 H3]]].
  rewrite H1. intros Hin. apply in_map_iff in Hin.
  destruct Hin as [g [<- Hg]]. exists g.
  rewrite Forall_forall in H3. destruct (H3 g Hg) as [Hne Hfit].
  split; [reflexivity|]. split; [assumption|]. split.
  - intros s Hs. rewrite <- H2. apply in_concat. exists g. auto.
  - destruct Hfit as [Hl|Hw]; [left; assumption | right].
    unfold bullet_line. rewrite length_app. unfold packed_width in Hw.
    change (List.length (py "- ")) with 2. lia.
Qed.

Lemma pack_skills_line_width_witness :
  pack_skills ten_char_skills
  = [ bullet_line (firstn 4 ten_char_skills);
      bullet_line (skipn 4 ten_char_skills) ]
  /\ List.length (bullet_line (skipn 4 ten_char_skills)) = 64
  /\ exists g,
       bullet_line (skipn 4 ten_char_skills) = bullet_line g /\ g <> []
       /\ incl g ten_char_skills
       /\ (List.length g = 1
           \/ List.length (bullet_line (skipn 4 ten_char_skills)) <= 65).
Proof.
  split; [reflexivity|]. split; [reflexivity|].
  apply (pack_skills_line_width ten_char_skills).
  right; left; reflexivity.
Defined.

(** *** The experience rule, applied twice *)

Lemma experience_line_idem (l : str) :
  experience_line (experience_line l) = experience_line l.
Proof. rewrite !experience_line_bulleted. apply bulleted_idem. Qed.

Lemma experience_body_tidy (v : str) :
  tidy v ->
  tidy (join [NL] (map experience_line (split NL v)))
  /\ split NL (join [NL] (map experience_line (split NL v)))
     = map experience_line (split NL v).
Proof.
  intros Ht.
  destruct (tidy_ends _ Ht) as [x [m [r [y [H1 [H2 [Hx Hy]]]]]]].
  destruct (split_head NL x m (space_not_NL _ Hx)) as [l [ls Hs]].
  destruct (split_last NL y r (space_not_NL _ Hy)) as [init [l' Hs']].
  rewrite <- H1 in Hs. rewrite <- H2 in Hs'.
  assert (Hnl : Forall no_nl (map experience_line (split NL v))).
  { apply Forall_forall. intros e He. apply in_map_iff in He.
    destruct He as [l0 [<- Hl0]]. rewrite experience_line_bulleted.
    apply bulleted_no_nl.
    pose proof (split_lines_no_sep NL v) as Hall.
    rewrite Forall_forall in Hall. apply Hall; assumption. }
  split.
  - rewrite Hs. cbn [map].
    apply (join_tidy _ _ (map experience_line init) (experience_line (l' ++ [y]))).
    + change (map experience_line ((x :: l) :: ls)
              = map experience_line init ++ [experience_line (l' ++ [y])]).
      rewrite <- Hs, Hs', map_app. reflexivity.
    + rewrite experience_line_bulleted. apply bulleted_tidy.
      apply blank_cons_nonspace; assumption.
    + rewrite experience_line_bulleted. apply bulleted_tidy.
      apply blank_snoc_nonspace; assumption.
  - apply split_join; [|exact Hnl].
    rewrite Hs. discriminate.
Qed.

(** X17.  Formatting the experience section is idempotent: feeding the body of
    a formatted experience section to the formatter again gives the same
    section. *)
Theorem experience_formatting_idempotent (content : str) :
  is_ascii content -> strip content <> [] ->
  exists body,
    _format_experience_section content = py "## Experience\n\n" ++ body
    /\ _format_experience_section body = py "## Experience\n\n" ++ body.
Proof.
  intros _ Hne.
  exists (join [NL] (map experience_line (split NL (strip content)))).
  assert (Ht : tidy (strip content)) by (split; [apply strip_idem | assumption]).
  destruct (experience_body_tidy _ Ht) as [[Hs Hn] Hsplit].
  split.
  - unfold _format_experience_section.
    destruct (strip content); [congruence | reflexivity].
  - unfold _format_experience_section. rewrite Hs.
    apply nonempty_true in Hn. rewrite Hn. cbn [negb]. cbv iota.
    rewrite Hsplit, map_map.
    f_equal. f_equal. apply map_ext. intros l. apply experience_line_idem.
Qed.

Lemma experience_formatting_idempotent_witness :
  is_ascii (py "ACME CORP\nLed team of 5\n\n* kept\n")
  /\ strip (py "ACME CORP\nLed team of 5\n\n* kept\n") <> []
  /\ _format_experience_section (py "ACME CORP\nLed team of 5\n\n* kept\n")
     = py "## Experience\n\nACME CORP\n- Led team of 5\n\n* kept"
  /\ exists body,
       _format_experience_section (py "ACME CORP\nLed team of 5\n\n* kept\n")
       = py "## Experience\n\n" ++ body
       /\ _format_experience_section body = py "## Experience\n\n" ++ body.
Proof.
  assert (Ha : is_ascii (py "ACME CORP\nLed team of 5\n\n* kept\n"))
    by (apply is_ascii_check; reflexivity).
  assert (Hne : strip (py "ACME CORP\nLed team of 5\n\n* kept\n") <> [])
    by (vm_compute; discriminate).
  split; [exact Ha|]. split; [exact Hne|]. split; [reflexivity|].
  exact (experience_formatting_idempotent _ Ha Hne).
Defined.
(* ================================================================== *)
(** ** The Resume model *)
(* ================================================================== *)

(** *** Storing and reading back *)

Lemma dict_mem_set (n k v : str) (d : dict) :
  dict_mem n (dict_set k v d) = str_eqb k n || dict_mem n d.
Proof.
  unfold dict_mem. rewrite dict_set_keys.
  destruct (mem k (keys d)) eqn:M.
  - destruct (str_eqb k n) eqn:E; [|reflexivity].
    apply str_eqb_eq in E. subst n. rewrite M. reflexivity.
  - rewrite mem_app. cbn [mem existsb]. rewrite orb_false_r.
    rewrite (str_eqb_sym n k). apply orb_comm.
Qed.

(** X18.  What [update_section] stores, [get_section] reads back, and no other
    section changes; revised content is kept apart: [get_section] does not
    show it, [has_revised_content] tells that it is there. *)
Theorem update_section_get_section (self : Resume) (n c m : str) :
  get_section (update_section self n c false) n = c
  /\ (m <> n ->
      get_section (update_section self n c false) m = get_section self m)
  /\ get_section (update_section self n c true) m = get_section self m
  /\ get_all_sections (update_section self n c true) = get_all_sections self
  /\ has_revised_content (update_section self n c true) n = true.
Proof.
  unfold get_section, update_section, has_revised_content, get_all_sections.
  cbn [raw_content revised_content].
  split; [|split; [|split; [|split]]].
  - rewrite dict_get_set, str_eqb_refl. reflexivity.
  - intros Hne. rewrite dict_get_set.
    apply not_eq_sym, str_eqb_neq in Hne. rewrite Hne. reflexivity.
  - reflexivity.
  - reflexivity.
  - rewrite dict_mem_set, str_eqb_refl. reflexivity.
Qed.

(** *** export_markdown *)

Lemma dict_getitem_total (k : str) (d : dict) :
  dict_mem k d = true -> dict_getitem k d = Return (dict_get k d []).
Proof.
  intros H. destruct (dict_getitem_mem _ _ H) as [v Hv].
  rewrite Hv, (dict_getitem_get _ _ _ [] Hv). reflexivity.
Qed.

Lemma final_content_loop_spec (self : Resume) (remaining : list str) :
  forall final_content,
    (forall k, In k remaining -> In k (keys (raw_content self))) ->
    final_content_loop self remaining final_content
    = Return (fold_left (fun d k => dict_set k (final_value self k) d)
                remaining final_content).
Proof.
  induction remaining as [|section rest IH]; intros fc Hin; [reflexivity|].
  cbn [final_content_loop fold_left].
  assert (E : (if dict_mem section (revised_content self)
               then dict_getitem section (revised_content self)
               else dict_getitem section (raw_content self))
              = Return (final_value self section)).
  { unfold final_value.
    destruct (dict_mem section (revised_content self)) eqn:M.
    - apply dict_getitem_total; assumption.
    - apply dict_getitem_total. apply mem_In, Hin. left; reflexivity. }
  rewrite E. apply IH. intros k Hk. apply Hin. right; assumption.
Qed.

Lemma format_resume_total (sections : dict) (template : str) :
  exists doc, format_resume sections template = Return doc.
Proof.
  destruct sections as [|kv sections].
  - eexists. reflexivity.
  - rewrite format_resume_spec by discriminate. eexists. reflexivity.
Qed.

(** X19.  [export_markdown] never raises: every section it looks up is there,
    in the revised or in the raw content. *)
Theorem export_markdown_never_fails (self : Resume) :
  exists doc, export_markdown self = Return doc.
Proof.
  unfold export_markdown.
  rewrite final_content_loop_spec by (intros k H; exact H).
  apply format_resume_total.
Qed.

Lemma fold_set_fresh (f : str -> str) (ks : list str) :
  forall acc,
    NoDup ks -> (forall k, In k ks -> ~ In k (keys acc)) ->
    fold_left (fun d k => dict_set k (f k) d) ks acc
    = acc ++ map (fun k => (k, f k)) ks.
Proof.
  induction ks as [|k ks IH]; intros acc Hnd Hfresh.
  - rewrite app_nil_r. reflexivity.
  - inversion Hnd as [|? ? Hk Hks]; subst. cbn [fold_left map].
    rewrite dict_set_fresh by (apply Hfresh; left; reflexivity).
    rewrite IH; [rewrite <- app_assoc; reflexivity | assumption |].
    intros k' Hk' Hin. rewrite keys_app in Hin. apply in_app_iff in Hin.
    destruct Hin as [Hin|[<-|[]]]; [|contradiction].
    apply (Hfresh k'); [right; assumption | assumption].
Qed.

Lemma dict_get_wf (k v dflt : str) (d : dict) :
  wf_dict d -> In (k, v) d -> dict_get k d dflt = v.
Proof.
  unfold wf_dict. induction d as [|[k0 v0] d IH]; intros Hwf Hin;
    [contradiction|].
  cbn [keys map fst] in Hwf. inversion Hwf as [|? ? Hk Hd]; subst.
  cbn [dict_get]. destruct Hin as [H|H].
  - inversion H; subst. rewrite str_eqb_refl. reflexivity.
  - destruct (str_eqb k0 k) eqn:E; [|auto].
    apply str_eqb_eq in E. subst k0. exfalso. apply Hk.
    apply in_map_iff. exists (k, v). auto.
Qed.

Lemma dict_get_default (k a b : str) (d : dict) :
  dict_get k d a = if dict_mem k d then dict_get k d b else a.
Proof.
  unfold dict_mem. induction d as [|[k0 v0] d IH]; [reflexivity|].
  cbn [dict_get keys map fst mem existsb]. rewrite (str_eqb_sym k k0).
  destruct (str_eqb k0 k); [reflexivity|]. cbn [orb]. exact IH.
Qed.

Lemma final_content_merged (self : Resume) :
  wf_dict (raw_content self) ->
  fold_left (fun d k => dict_set k (final_value self k) d)
    (keys (raw_content self)) []
  = merged (raw_content self) (revised_content self).
Proof.
  intros Hwf. rewrite fold_set_fresh; [|exact Hwf | intros k _ []].
  cbn [app]. unfold merged, keys. rewrite map_map.
  apply map_ext_in. intros [k v] Hin. cbn [fst snd]. f_equal.
  unfold final_value. rewrite (dict_get_default k v []).
  rewrite (dict_get_wf k v [] _ Hwf Hin). reflexivity.
Qed.

(** X20.  [export_markdown] formats the raw sections, in their order, each with
    its revised content where there is one. *)
Theorem export_markdown_merges_revised (self : Resume) :
  wf_dict (raw_content self) ->
  export_markdown self
  = format_resume (merged (raw_content self) (revised_content self))
      (template self).
Proof.
  intros Hwf. unfold export_markdown.
  rewrite final_content_loop_spec by (intros k H; exact H).
  rewrite final_content_merged by assumption. reflexivity.
Qed.

Lemma export_markdown_merges_revised_witness :
  wf_dict (raw_content example_resume)
  /\ merged (raw_content example_resume) (revised_content example_resume)
     = [(py "summary", py "Engineer"); (py "skills", py "Python, Go")]
  /\ export_markdown example_resume
     = format_resume
         (merged (raw_content example_resume) (revised_content example_resume))
         (template example_resume).
Proof.
  assert (Hwf : wf_dict (raw_content example_resume)).
  { unfold wf_dict. cbn [example_resume raw_content keys map fst].
    repeat (constructor; [simpl; intuition discriminate|]). constructor. }
  split; [exact Hwf|]. split; [reflexivity|].
  exact (export_markdown_merges_revised example_resume Hwf).
Defined.

Lemma final_value_orphan (self : Resume) (n c k : str) :
  k <> n ->
  final_value (update_section self n c true) k = final_value self k.
Proof.
  intros Hne. unfold final_value, update_section.
  cbn [raw_content revised_content].
  apply not_eq_sym, str_eqb_neq in Hne.
  rewrite dict_mem_set, dict_get_set, Hne. reflexivity.
Qed.

Lemma fold_left_ext_in {A B : Type} (f g : A -> B -> A) (l : list B) :
  (forall a b, In b l -> f a b = g a b) ->
  forall a, fold_left f l a = fold_left g l a.
Proof.
  induction l as [|b l IH]; intros H a; [reflexivity|]. simpl.
  rewrite (H a b) by (left; reflexivity).
  apply IH. intros a' b' Hb'. apply H. right; assumption.
Qed.

(** X21.  Revised content stored for a section that the raw content does not
    have is never exported. *)
Theorem export_ignores_orphan_revision (self : Resume) (n c : str) :
  dict_mem n (raw_content self) = false ->
  export_markdown (update_section self n c true) = export_markdown self.
Proof.
  intros Hn. unfold export_markdown.
  rewrite !final_content_loop_spec by (intros k H; exact H).
  change (raw_content (update_section self n c true)) with (raw_content self).
  change (template (update_section self n c true)) with (template self).
  rewrite (fold_left_ext_in
             (fun d k => dict_set k (final_value (update_section self n c true) k) d)
             (fun d k => dict_set k (final_value self k) d)); [reflexivity|].
  intros d k Hk. rewrite final_value_orphan; [reflexivity|].
  intros ->. apply mem_In in Hk. unfold dict_mem in Hn. congruence.
Qed.

Lemma export_ignores_orphan_revision_witness :
  dict_mem (py "awards") (raw_content example_resume) = false
  /\ has_revised_content
       (update_section example_resume (py "awards") (py "Best hack") true)
       (py "awards") = true
  /\ export_markdown
       (update_section example_resume (py "awards") (py "Best hack") true)
     = export_markdown example_resume.
Proof.
  split; [reflexivity|]. split; [reflexivity|].
  apply (export_ignores_orphan_revision example_resume). reflexivity.
Defined.

(** *** Loading and exporting *)

Lemma merged_no_revision (raw : dict) : merged raw [] = raw.
Proof.
  induction raw as [|[k v] raw IH]; [reflexivity|].
  unfold merged in *. cbn [map fst snd]. f_equal. exact IH.
Qed.

(** X22.  A resume loaded from a file and exported with no revision in between
    is the formatter applied to the parser's sections. *)
Theorem load_then_export (fs : filesystem) (file_path content : str) :
  fs file_path = Text content -> strip content <> [] ->
  exists resume,
    parse_resume fs Resume_default file_path = Return resume
    /\ get_all_sections resume = keys (_parse_markdown_content content)
    /\ export_markdown resume
       = format_resume (_parse_markdown_content content) (py "default").
Proof.
  intros Hfs Hne.
  exists (mkResume (_parse_markdown_content content) [] (py "default")).
  split; [|split].
  - unfold parse_resume, parse_markdown_file. rewrite Hfs.
    cbn [Path_exists Path_read_text].
    apply nonempty_true in Hne. rewrite Hne. reflexivity.
  - reflexivity.
  - unfold export_markdown.
    rewrite final_content_loop_spec by (intros k H; exact H).
    rewrite final_content_merged by (cbn [raw_content]; apply parse_result).
    cbn [raw_content revised_content template].
    rewrite merged_no_revision. reflexivity.
Qed.

Lemma load_then_export_witness :
  example_fs (py "resume.md") = Text (py "Jane Doe\nEngineer")
  /\ strip (py "Jane Doe\nEngineer") <> []
  /\ exists resume,
       parse_resume example_fs Resume_default (py "resume.md") = Return resume
       /\ get_all_sections resume
          = keys (_parse_markdown_content (py "Jane Doe\nEngineer"))
       /\ export_markdown resume
          = format_resume (_parse_markdown_content (py "Jane Doe\nEngineer"))
              (py "default").
Proof.
  assert (Hfs : example_fs (py "resume.md") = Text (py "Jane Doe\nEngineer"))
    by reflexivity.
  assert (Hne : strip (py "Jane Doe\nEngineer") <> [])
    by (vm_compute; discriminate).
  split; [exact Hfs|]. split; [exact Hne|].
  exact (load_then_export example_fs (py "resume.md") _ Hfs Hne).
Defined.
(* ================================================================== *)
(** ** The UserProfile model *)
(* ================================================================== *)

Lemma suggest_target_level_cases (self : UserProfile) :
  suggest_target_level self
  = if (years_of_experience self <=? 2)%Z then py "junior"
    else if (years_of_experience self <=? 7)%Z then py "mid"
    else if (years_of_experience self <=? 15)%Z then py "senior"
    else py "executive".
Proof.
  unfold suggest_target_level, get_experience_tier.
  destruct (years_of_experience self <=? 2)%Z; [reflexivity|].
  destruct (years_of_experience self <=? 7)%Z; [reflexivity|].
  destruct (years_of_experience self <=? 15)%Z; reflexivity.
Qed.

Lemma level_is_iff (l : str) (name : string) :
  level_is (Some l) name = true <-> l = py name.
Proof. unfold level_is. apply str_eqb_eq. Qed.

(** X23.  The level that [suggest_target_level] proposes is always an allowed
    one, which the validator of [target_level] takes as it is, and a
    profile that adopts it passes [validate_profile]. *)
Theorem suggested_level_validates (self : UserProfile) :
  (0 <= years_of_experience self)%Z -> target_position self <> [] ->
  In (suggest_target_level self) allowed_levels
  /\ validate_target_level (Some (suggest_target_level self))
     = Return (Some (suggest_target_level self))
  /\ validate_profile
       (mkUserProfile (years_of_experience self) (target_position self)
          (Some (suggest_target_level self)) (industry self)) = true.
Proof.
  intros Hy Hp. rewrite suggest_target_level_cases.
  unfold validate_profile.
  cbn [years_of_experience target_position target_level].
  apply nonempty_true in Hp. rewrite Hp.
  assert (H0 : (years_of_experience self <? 0)%Z = false)
    by (apply Z.ltb_ge; assumption).
  rewrite H0. cbn [negb orb].
  destruct (Z.leb_spec (years_of_experience self) 2).
  { assert (H3 : (3 <? years_of_experience self)%Z = false)
      by (apply Z.ltb_ge; lia).
    rewrite H3. split; [left; reflexivity|]. split; reflexivity. }
  destruct (Z.leb_spec (years_of_experience self) 7).
  { split; [right; left; reflexivity|]. split; reflexivity. }
  destruct (Z.leb_spec (years_of_experience self) 15).
  { split; [right; right; left; reflexivity|]. split; reflexivity. }
  assert (H8 : (years_of_experience self <? 8)%Z = false)
    by (apply Z.ltb_ge; lia).
  rewrite H8. split; [right; right; right; left; reflexivity|].
  split; reflexivity.
Qed.

Lemma suggested_level_validates_witness :
  suggest_target_level
    (mkUserProfile 3 (py "Software Engineer") (Some (py "junior")) None)
  = py "mid"
  /\ validate_profile
       (mkUserProfile 3 (py "Software Engineer") (Some (py "mid")) None)
     = true.
Proof.
  split; [reflexivity|].
  apply (suggested_level_validates
           (mkUserProfile 3 (py "Software Engineer") (Some (py "junior")) None)).
  - cbn [years_of_experience]. lia.
  - discriminate.
Defined.

(** X24.  On a profile that the constructor has accepted, the basic check of
    [validate_profile] cannot fail: the profile is rejected exactly when it
    is a junior one with more than 3 years of experience or an executive
    one with less than 8. *)
Theorem constructed_profile_validation (years : Z) (position : str)
  (level industry : option str) (profile : UserProfile) :
  UserProfile_init years position level industry = Return profile ->
  (0 <= years_of_experience profile <= 50)%Z
  /\ target_position profile <> []
  /\ (validate_profile profile = false
      <-> (target_level profile = Some (py "junior")
           /\ (3 < years_of_experience profile)%Z)
          \/ (target_level profile = Some (py "executive")
              /\ (years_of_experience profile < 8)%Z)).
Proof.
  unfold UserProfile_init.
  destruct ((0 <=? years)%Z && (years <=? 50)%Z) eqn:Hy; [|discriminate].
  cbn [negb].
  destruct ((1 <=? List.length position) && (List.length position <=? 100))
    eqn:Hp; [|discriminate].
  cbn [negb].
  destruct (validate_target_level level) as [lv|] eqn:Hl; [|discriminate].
  intros H. inversion H; subst profile. clear H.
  cbn [years_of_experience target_position target_level].
  apply andb_true_iff in Hy. destruct Hy as [Hy1 Hy2].
  apply Z.leb_le in Hy1, Hy2.
  apply andb_true_iff in Hp. destruct Hp as [Hp1 _].
  apply Nat.leb_le in Hp1.
  assert (Hpos : position <> []).
  { intros ->. cbn [List.length] in Hp1. lia. }
  split; [lia|]. split; [assumption|].
  unfold validate_profile.
  cbn [years_of_experience target_position target_level].
  apply nonempty_true in Hpos. rewrite Hpos.
  assert (H0 : (years <? 0)%Z = false) by (apply Z.ltb_ge; assumption).
  rewrite H0. cbn [negb orb].
  destruct lv as [l|].
  2: { cbn [level_is andb]. split; [discriminate|].
       intros [[E _]|[E _]]; discriminate. }
  destruct (level_is (Some l) "junior") eqn:J.
  - apply level_is_iff in J. subst l. cbn [andb].
    destruct (Z.ltb_spec 3 years).
    + split; [intros _; left; split; [reflexivity | assumption]|reflexivity].
    + assert (E : level_is (Some (py "junior")) "executive" = false)
        by reflexivity.
      rewrite E. cbn [andb]. split; [discriminate|].
      intros [[_ Hc]|[Hc _]]; [lia | discriminate].
  - cbn [andb]. destruct (level_is (Some l) "executive") eqn:X.
    + apply level_is_iff in X. subst l. cbn [andb].
      destruct (Z.ltb_spec years 8).
      * split; [intros _; right; split; [reflexivity | assumption]|reflexivity].
      * split; [discriminate|].
        intros [[Hc _]|[_ Hc]]; [discriminate | lia].
    + cbn [andb]. split; [discriminate|].
      intros [[Hc _]|[Hc _]]; inversion Hc; subst l.
      * rewrite (proj2 (level_is_iff _ "junior") eq_refl) in J. discriminate.
      * rewrite (proj2 (level_is_iff _ "executive") eq_refl) in X.
        discriminate.
Qed.

Lemma constructed_profile_validation_witness :
  UserProfile_init 5 (py "Data Engineer") (Some (py "Junior")) None
  = Return (mkUserProfile 5 (py "Data Engineer") (Some (py "junior")) None)
  /\ validate_profile
       (mkUserProfile 5 (py "Data Engineer") (Some (py "junior")) None)
     = false.
Proof.
  assert (H : UserProfile_init 5 (py "Data Engineer") (Some (py "Junior")) None
              = Return (mkUserProfile 5 (py "Data Engineer")
                          (Some (py "junior")) None)) by reflexivity.
  split; [exact H|].
  apply (proj2 (proj2 (constructed_profile_validation _ _ _ _ _ H))).
  left. split; [reflexivity|]. cbn [years_of_experience]. lia.
Defined.

(** X25.  The validator of [target_level] stores an accepted level in lower
    case, as one of the four allowed levels, and accepts what it has
    stored unchanged. *)
Theorem target_level_validator_normal_form (v l : str) :
  is_ascii v ->
  validate_target_level (Some v) = Return (Some l) ->
  l = lower v /\ In l allowed_levels
  /\ validate_target_level (Some l) = Return (Some l).
Proof.
  intros _. unfold validate_target_level.
  destruct (mem (lower v) allowed_levels) eqn:M; [|discriminate].
  cbn [negb]. intros H. inversion H; subst l. clear H.
  split; [reflexivity|]. split; [apply mem_In; assumption|].
  rewrite lower_idem, M. reflexivity.
Qed.

Lemma target_level_validator_normal_form_witness :
  is_ascii (py "SENIOR")
  /\ validate_target_level (Some (py "SENIOR")) = Return (Some (py "senior"))
  /\ In (py "senior") allowed_levels
  /\ validate_target_level (Some (py "senior")) = Return (Some (py "senior")).
Proof.
  assert (Ha : is_ascii (py "SENIOR")) by (apply is_ascii_check; reflexivity).
  assert (H : validate_target_level (Some (py "SENIOR"))
              = Return (Some (py "senior"))) by reflexivity.
  split; [exact Ha|]. split; [exact H|].
  exact (proj2 (target_level_validator_normal_form _ _ Ha H)).
Defined.
(* ================================================================== *)
(** ** The content analyzer: quality scores and suggestions *)
(* ================================================================== *)

#[local] Set Warnings "-inexact-float".

Lemma filter_length_existsb {A : Type} (f : A -> bool) (l : list A) :
  (List.length (filter f l) =? 0) = negb (existsb f l).
Proof.
  induction l as [|a l IH]; [reflexivity|]. simpl.
  destruct (f a); [reflexivity | exact IH].
Qed.

Lemma findall_search (r : rx) :
  (forall b, match_here r b [] = None) ->
  forall (s : str) (b : bool),
    (0 <? findall_from r b 0 s) = search_from r b s.
Proof.
  intros Hnil. induction s as [|c s IH]; intros b.
  - cbn [findall_from search_from]. rewrite Hnil. reflexivity.
  - cbn [findall_from search_from].
    destruct (match_here r b (c :: s)); [reflexivity | apply IH].
Qed.

Lemma numbers_pattern_not_empty (b : bool) :
  match_here numbers_pattern b [] = None.
Proof. destruct b; reflexivity. Qed.

Lemma quantified_iff (content : str) :
  (0 <? findall_count numbers_pattern content)
  = search numbers_pattern content.
Proof. apply findall_search. exact numbers_pattern_not_empty. Qed.

Lemma verbs_bonus (n : nat) :
  n <= 10 ->
  py_min (float_of_nat n / 3) 0.3%float
  = if n =? 0 then 0.0%float else 0.3%float.
Proof.
  intros H.
  do 11 (destruct n as [|n]; [reflexivity|]). lia.
Qed.

Lemma filter_length_le {A : Type} (f : A -> bool) (l : list A) :
  List.length (filter f l) <= List.length l.
Proof.
  induction l as [|a l IH]; [apply Nat.le_refl|]. simpl.
  destruct (f a); simpl; lia.
Qed.

Lemma assess_quality_experience (content : str) :
  strip content <> [] ->
  assess_quality content (py "experience")
  = experience_score
      ((20 <=? List.length (split_whitespace content))
       && (List.length (split_whitespace content) <=? 200))
      (existsb (mentions content) quality_action_verbs)
      (search numbers_pattern content)
      (negb (existsb (mentions content) unprofessional)).
Proof.
  intros Hne. unfold assess_quality. apply nonempty_true in Hne.
  rewrite Hne. cbn [negb]. cbv iota.
  change (mem (py "experience") [py "experience"; py "summary"]) with true.
  change (str_eqb (py "experience") (py "experience")) with true.
  cbv iota. rewrite quantified_iff.
  fold (mentions content). fold quality_action_verbs. fold unprofessional.
  rewrite verbs_bonus by apply (filter_length_le _ quality_action_verbs).
  rewrite !filter_length_existsb.
  unfold experience_score, add_if.
  destruct ((20 <=? List.length (split_whitespace content))
            && (List.length (split_whitespace content) <=? 200));
    destruct (existsb (mentions content) quality_action_verbs);
    destruct (search numbers_pattern content);
    destruct (existsb (mentions content) unprofessional);
    reflexivity.
Qed.

Lemma assess_quality_plain (content section_type : str) :
  strip content <> [] -> section_type <> py "experience" ->
  assess_quality content section_type
  = plain_score
      (if mem section_type [py "experience"; py "summary"]
       then (20 <=? List.length (split_whitespace content))
            && (List.length (split_whitespace content) <=? 200)
       else (5 <=? List.length (split_whitespace content))
            && (List.length (split_whitespace content) <=? 100))
      (search numbers_pattern content)
      (negb (existsb (mentions content) unprofessional)).
Proof.
  intros Hne Ht. unfold assess_quality. apply nonempty_true in Hne.
  rewrite Hne. cbn [negb]. cbv iota.
  apply str_eqb_neq in Ht. rewrite Ht. rewrite quantified_iff.
  fold (mentions content). fold unprofessional.
  rewrite filter_length_existsb.
  unfold plain_score, add_if.
  destruct (mem section_type [py "experience"; py "summary"]);
    destruct ((20 <=? List.length (split_whitespace content))
              && (List.length (split_whitespace content) <=? 200));
    destruct ((5 <=? List.length (split_whitespace content))
              && (List.length (split_whitespace content) <=? 100));
    destruct (search numbers_pattern content);
    destruct (existsb (mentions content) unprofessional);
    reflexivity.
Qed.

(** X26.  The quality score of an experience section depends on the action
    verbs only through whether one of them occurs: the first verb found
    earns the whole bonus of 0.3, since 1/3 is already above it. *)
Theorem experience_score_table (content : str) :
  is_ascii content -> strip content <> [] ->
  assess_quality content (py "experience")
  = experience_score
      ((20 <=? List.length (split_whitespace content))
       && (List.length (split_whitespace content) <=? 200))
      (existsb (mentions content) quality_action_verbs)
      (search numbers_pattern content)
      (negb (existsb (mentions content) unprofessional)).
Proof.
  intros _ Hne. unfold assess_quality. apply nonempty_true in Hne.
  rewrite Hne. cbn [negb]. cbv iota.
  change (mem (py "experience") [py "experience"; py "summary"]) with true.
  change (str_eqb (py "experience") (py "experience")) with true.
  cbv iota. rewrite quantified_iff.
  fold (mentions content). fold quality_action_verbs. fold unprofessional.
  rewrite verbs_bonus by apply (filter_length_le _ quality_action_verbs).
  rewrite !filter_length_existsb.
  unfold experience_score, add_if.
  destruct ((20 <=? List.length (split_whitespace content))
            && (List.length (split_whitespace content) <=? 200));
    destruct (existsb (mentions content) quality_action_verbs);
    destruct (search numbers_pattern content);
    destruct (existsb (mentions content) unprofessional);
    reflexivity.
Qed.

Lemma experience_score_table_witness :
  is_ascii (py "Led a team")
  /\ strip (py "Led a team") <> []
  /\ assess_quality (py "Led a team") (py "experience") = 0.5%float
  /\ assess_quality (py "Led, managed and developed a team")
       (py "experience") = 0.5%float
  /\ assess_quality (py "Led a team") (py "experience")
     = experience_score false true false true.
Proof.
  assert (Ha : is_ascii (py "Led a team"))
    by (apply is_ascii_check; reflexivity).
  assert (Hne : strip (py "Led a team") <> []) by (vm_compute; discriminate).
  split; [exact Ha|]. split; [exact Hne|].
  split; [vm_compute; reflexivity|]. split; [vm_compute; reflexivity|].
  exact (experience_score_table _ Ha Hne).
Defined.

(** X27.  The quality score lies between 0 and 1, the final [min] never being
    needed; for every section type other than "experience" it is at most
    0.7, so that the analysis table never shows such a section as "Good",
    for which it asks 0.8. *)
Theorem assess_quality_range (section_content section_type : str) :
  is_ascii section_content ->
  PrimFloat.leb 0%float (assess_quality section_content section_type) = true
  /\ PrimFloat.leb (assess_quality section_content section_type) 1%float
     = true
  /\ (section_type <> py "experience" ->
      PrimFloat.leb (assess_quality section_content section_type) 0.7%float
      = true
      /\ status (assess_quality section_content section_type)
         <> py "[green]Good[/green]").
Proof.
  intros _.
  destruct (strip section_content) as [|c l] eqn:E.
  { unfold assess_quality. rewrite E. cbn [nonempty negb]. cbv iota.
    split; [reflexivity|]. split; [reflexivity|]. intros _.
    split; [reflexivity | vm_compute; discriminate]. }
  assert (Hne : strip section_content <> []) by (rewrite E; discriminate).
  clear E.
  destruct (str_eqb section_type (py "experience")) eqn:T.
  - apply str_eqb_eq in T. subst section_type.
    rewrite assess_quality_experience by assumption.
    split; [|split; [|congruence]].
    + destruct ((20 <=? List.length (split_whitespace section_content))
                && (List.length (split_whitespace section_content) <=? 200));
        destruct (existsb (mentions section_content) quality_action_verbs);
        destruct (search numbers_pattern section_content);
        destruct (existsb (mentions section_content) unprofessional);
        reflexivity.
    + destruct ((20 <=? List.length (split_whitespace section_content))
                && (List.length (split_whitespace section_content) <=? 200));
        destruct (existsb (mentions section_content) quality_action_verbs);
        destruct (search numbers_pattern section_content);
        destruct (existsb (mentions section_content) unprofessional);
        reflexivity.
  - apply str_eqb_neq in T.
    rewrite assess_quality_plain by assumption.
    set (b1 := if mem section_type [py "experience"; py "summary"]
               then _ else _).
    destruct b1;
      destruct (search numbers_pattern section_content);
      destruct (existsb (mentions section_content) unprofessional);
      (split; [reflexivity|]; split; [reflexivity|]; intros _;
       split; [reflexivity | vm_compute; discriminate]).
Qed.

Lemma assess_quality_range_witness :
  is_ascii (py "Python, Go, SQL, Docker, 5 years of Kubernetes")
  /\ assess_quality (py "Python, Go, SQL, Docker, 5 years of Kubernetes")
       (py "skills") = 0.7%float
  /\ status (assess_quality (py "Python, Go, SQL, Docker, 5 years of Kubernetes")
               (py "skills"))
     = py "[yellow]Needs Work[/yellow]"
  /\ status (assess_quality (py "Python, Go, SQL, Docker, 5 years of Kubernetes")
               (py "skills"))
     <> py "[green]Good[/green]".
Proof.
  assert (Ha : is_ascii (py "Python, Go, SQL, Docker, 5 years of Kubernetes"))
    by (apply is_ascii_check; reflexivity).
  split; [exact Ha|]. split; [vm_compute; reflexivity|].
  split; [vm_compute; reflexivity|].
  apply (proj2 (proj2 (assess_quality_range _ (py "skills") Ha))).
  vm_compute. discriminate.
Defined.

(** *** Suggestions and score of an experience section *)

Lemma snoc_if_nil {A : Type} (b : bool) (l : list A) (x : A) :
  (if b then l ++ [x] else l) = [] -> b = false /\ l = [].
Proof.
  destruct b; [|auto]. intros H. apply app_eq_nil in H.
  destruct H as [_ H]. discriminate.
Qed.

(** X28.  An experience section for which [suggest_improvements] has nothing to
    suggest gets the full quality score 1.0 from [assess_quality]. *)
Theorem experience_without_suggestions (content : str) :
  is_ascii content ->
  suggest_improvements content (py "experience") = [] ->
  assess_quality content (py "experience") = 1.0%float.
Proof.
  intros _ H. unfold suggest_improvements in H.
  destruct (strip content) as [|c0 l0] eqn:E.
  { cbn [nonempty negb app] in H. discriminate. }
  assert (Hne : strip content <> []) by (rewrite E; discriminate).
  cbn [nonempty negb] in H. cbv iota in H.
  change (mem (py "experience") [py "experience"; py "summary"])
    with true in H.
  change (str_eqb (py "experience") (py "experience")) with true in H.
  cbv iota in H. cbn [andb] in H.
  apply snoc_if_nil in H. destruct H as [Hd H].
  apply snoc_if_nil in H. destruct H as [Hc H].
  apply snoc_if_nil in H. destruct H as [Hb H].
  rewrite assess_quality_experience by assumption.
  assert (B1 : (20 <=? List.length (split_whitespace content))
               && (List.length (split_whitespace content) <=? 200) = true).
  { destruct (List.length (split_whitespace content) <? 20) eqn:L1;
      [discriminate|].
    destruct (200 <? List.length (split_whitespace content)) eqn:L2;
      [discriminate|].
    apply Nat.ltb_ge in L1, L2. apply andb_true_iff.
    split; apply Nat.leb_le; assumption. }
  assert (B2 : existsb (mentions content) quality_action_verbs = true).
  { apply negb_false_iff in Hb.
    change quality_action_verbs
      with ([py "achieved"; py "managed"; py "led"; py "developed";
             py "implemented"]
            ++ [py "created"; py "improved"; py "increased"; py "reduced";
                py "optimized"]).
    rewrite existsb_app. unfold mentions at 1. rewrite Hb. reflexivity. }
  assert (B3 : search numbers_pattern content = true)
    by (apply negb_false_iff; exact Hc).
  assert (B4 : existsb (mentions content) unprofessional = false).
  { apply nonempty_false in Hd.
    pose proof (filter_length_existsb (mentions content) unprofessional) as F.
    unfold mentions at 1 in F. unfold unprofessional at 1 in F.
    rewrite Hd in F. cbn [List.length Nat.eqb] in F.
    symmetry in F. apply negb_true_iff in F. exact F. }
  rewrite B1, B2, B3, B4. reflexivity.
Qed.

Lemma experience_without_suggestions_witness :
  is_ascii strong_experience
  /\ suggest_improvements strong_experience (py "experience") = []
  /\ assess_quality strong_experience (py "experience") = 1.0%float.
Proof.
  assert (Ha : is_ascii strong_experience)
    by (apply is_ascii_check; reflexivity).
  assert (Hs : suggest_improvements strong_experience (py "experience") = [])
    by (vm_compute; reflexivity).
  split; [exact Ha|]. split; [exact Hs|].
  exact (experience_without_suggestions _ Ha Hs).
Defined.
(* ================================================================== *)
(** ** The content analyzer: the rule-based improvement *)
(* ================================================================== *)

(** *** Replacement, position by position *)

Lemma sub_from_skip (r : rx) (repl : str -> str) (n : nat) :
  forall (s : str) (b : bool),
    sub_from r repl b (S n) s = sub_from r repl false 0 (skipn (S n) s).
Proof.
  induction n as [|n IH]; intros s b.
  - destruct s as [|c s]; reflexivity.
  - destruct s as [|c s]; [reflexivity|].
    change (sub_from r repl b (S (S n)) (c :: s))
      with (sub_from r repl false (S n) s).
    rewrite IH. reflexivity.
Qed.

Lemma sub_from_match (r : rx) (repl : str -> str) (b : bool) (c : char)
  (s matched rest : str) :
  match_here r b (c :: s) = Some rest -> c :: s = matched ++ rest ->
  matched <> [] ->
  sub_from r repl b 0 (c :: s) = repl matched ++ sub_from r repl false 0 rest.
Proof.
  intros Hm Hs Hne. cbn [sub_from]. rewrite Hm.
  assert (Hlen : List.length (c :: s) - List.length rest
                 = List.length matched).
  { rewrite Hs, length_app. lia. }
  rewrite Hlen. rewrite Hs at 1. rewrite firstn_app, Nat.sub_diag, firstn_all.
  cbn [firstn]. rewrite app_nil_r. f_equal.
  destruct matched as [|m0 matched']; [congruence|].
  cbn [app] in Hs. inversion Hs; subst.
  replace (List.length (m0 :: matched') - 1) with (List.length matched')
    by (cbn [List.length]; lia).
  destruct matched' as [|m1 matched''].
  - reflexivity.
  - change (List.length (m1 :: matched'')) with (S (List.length matched'')).
    rewrite sub_from_skip. f_equal.
    change (S (List.length matched'')) with (List.length (m1 :: matched'')).
    rewrite skipn_app, skipn_all, Nat.sub_diag. reflexivity.
Qed.

Lemma sub_from_no_match (r : rx) (repl : str -> str) (b : bool) (c : char)
  (s : str) :
  match_here r b (c :: s) = None ->
  sub_from r repl b 0 (c :: s) = c :: sub_from r repl false 0 s.
Proof. intros Hm. cbn [sub_from]. rewrite Hm. reflexivity. Qed.

(** *** White space *)

Lemma xstar_all (s : str) :
  xstar isspace s (fun rest => Some rest) = Some (lstrip s).
Proof.
  induction s as [|x s IH]; [reflexivity|]. cbn [xstar lstrip].
  destruct (isspace x); [rewrite IH|]; reflexivity.
Qed.

Lemma match_white_space (b : bool) (s : str) :
  match_here (XPlus isspace) b s
  = match s with
    | x :: s' => if isspace x then Some (lstrip s') else None
    | [] => None
    end.
Proof.
  unfold match_here. cbn [xmatch]. destruct s as [|x s']; [reflexivity|].
  destruct (isspace x); [|reflexivity].
  rewrite xstar_all. reflexivity.
Qed.

Lemma collapse_space (b : bool) (x : char) (s : str) :
  isspace x = true ->
  sub_from (XPlus isspace) (fun _ => py " ") b 0 (x :: s)
  = 32%N :: sub_from (XPlus isspace) (fun _ => py " ") false 0 (lstrip s).
Proof.
  intros Hx. destruct (lstrip_suffix s) as [a [_ Ha]].
  rewrite (sub_from_match _ _ b x s (x :: a) (lstrip s)).
  - reflexivity.
  - rewrite match_white_space, Hx. reflexivity.
  - cbn [app]. f_equal. exact Ha.
  - discriminate.
Qed.

Lemma collapse_other (b : bool) (x : char) (s : str) :
  isspace x = false ->
  sub_from (XPlus isspace) (fun _ => py " ") b 0 (x :: s)
  = x :: sub_from (XPlus isspace) (fun _ => py " ") false 0 s.
Proof.
  intros Hx. apply sub_from_no_match. rewrite match_white_space, Hx.
  reflexivity.
Qed.

Lemma collapse_flag (b : bool) (s : str) :
  sub_from (XPlus isspace) (fun _ => py " ") b 0 s
  = sub_from (XPlus isspace) (fun _ => py " ") false 0 s.
Proof.
  destruct s as [|x s]; [reflexivity|].
  destruct (isspace x) eqn:E.
  - rewrite !collapse_space by assumption. reflexivity.
  - rewrite !collapse_other by assumption. reflexivity.
Qed.

Lemma spaced_cases (a : bool) (c : char) (s : str) :
  spaced_from a (c :: s) = true ->
  (isspace c = false /\ spaced_from false s = true)
  \/ (c = 32%N /\ a = false
      /\ exists y r, s = y :: r /\ isspace y = false
                     /\ spaced_from false r = true).
Proof.
  cbn [spaced_from]. destruct (isspace c) eqn:E; [|auto].
  intros H. apply andb_true_iff in H. destruct H as [H H3].
  apply andb_true_iff in H. destruct H as [H1 H2].
  apply N.eqb_eq in H1. apply negb_true_iff in H2. right.
  split; [assumption|]. split; [assumption|].
  destruct s as [|y r]; [discriminate|]. cbn [spaced_from] in H3.
  destruct (isspace y) eqn:Ey.
  - rewrite andb_false_r in H3. discriminate.
  - exists y, r. auto.
Qed.

Lemma spaced_collapse (s : str) :
  forall a b, spaced_from a s = true ->
              sub_from (XPlus isspace) (fun _ => py " ") b 0 s = s.
Proof.
  induction s as [|c s IH]; intros a b H; [reflexivity|].
  destruct (spaced_cases _ _ _ H) as [[Hc Hs]|[-> [_ [y [r [-> [Hy Hr]]]]]]].
  - rewrite collapse_other by assumption. f_equal. eapply IH; eassumption.
  - rewrite collapse_space by reflexivity.
    rewrite lstrip_nonspace by assumption. f_equal.
    apply (IH false false). cbn [spaced_from]. rewrite Hy. exact Hr.
Qed.

Lemma spaced_rstrip (s : str) :
  forall a, spaced_from a s = true -> rstrip s = s.
Proof.
  induction s as [|c s IH]; intros a H; [reflexivity|].
  destruct (spaced_cases _ _ _ H) as [[Hc Hs]|[-> [_ [y [r [-> [Hy Hr]]]]]]].
  - rewrite rstrip_cons_nonspace by assumption. f_equal.
    eapply IH; eassumption.
  - change (32%N :: y :: r) with ([32%N] ++ y :: r).
    rewrite rstrip_app_nonblank by (apply blank_cons_nonspace; assumption).
    f_equal. apply (IH false). cbn [spaced_from]. rewrite Hy. exact Hr.
Qed.

Lemma single_spaced_fixed (s : str) :
  single_spaced s = true ->
  strip s = s /\ sub (XPlus isspace) (fun _ => py " ") s = s.
Proof.
  destruct s as [|c s]; [split; reflexivity|]. cbn [single_spaced].
  intros H. split.
  - destruct (spaced_cases _ _ _ H) as [[Hc _]|[_ [Ha _]]]; [|discriminate].
    unfold strip. rewrite lstrip_nonspace by assumption.
    eapply spaced_rstrip; eassumption.
  - unfold sub. eapply spaced_collapse; eassumption.
Qed.

Lemma collapse_spaced (n : nat) :
  forall s, List.length s <= n -> s <> [] -> rstrip s = s ->
    spaced_from false
      (sub_from (XPlus isspace) (fun _ => py " ") false 0 s) = true
    /\ (head_fails isspace s ->
        spaced_from true
          (sub_from (XPlus isspace) (fun _ => py " ") false 0 s) = true).
Proof.
  induction n as [|n IH]; intros s Hlen Hne Hr.
  { destruct s; [congruence | cbn [List.length] in Hlen; lia]. }
  destruct s as [|x s]; [congruence|].
  cbn [List.length] in Hlen.
  destruct (isspace x) eqn:Ex.
  - rewrite collapse_space by assumption.
    assert (Hb : blank s = false).
    { destruct (blank s) eqn:B; [|reflexivity].
      assert (Hall : blank (x :: s) = true)
        by (cbn [blank forallb]; rewrite Ex; exact B).
      apply rstrip_nil_iff in Hall. congruence. }
    destruct (lstrip_suffix s) as [a [Ha Hs]].
    assert (Hl : lstrip s <> [])
      by (intros E; apply lstrip_nil_iff in E; congruence).
    assert (Hrl : rstrip (lstrip s) = lstrip s).
    { assert (Hbl : blank (lstrip s) = false).
      { destruct (blank (lstrip s)) eqn:B; [|reflexivity].
        apply lstrip_nil_iff in B. rewrite lstrip_idem in B. congruence. }
      pose proof (rstrip_app_nonblank (x :: a) (lstrip s) Hbl) as R.
      cbn [app] in R. rewrite <- Hs, Hr in R. rewrite Hs in R at 1.
      inversion R as [R']. apply app_inv_head in R'. symmetry. exact R'. }
    assert (Hlen' : List.length (lstrip s) <= n).
    { rewrite Hs in Hlen. rewrite length_app in Hlen. lia. }
    destruct (IH (lstrip s) Hlen' Hl Hrl) as [_ H2].
    assert (Hh : head_fails isspace (lstrip s)).
    { destruct (lstrip s) as [|y r] eqn:El; [exact I|].
      cbn [head_fails]. eapply lstrip_head; eassumption. }
    split.
    + cbn [spaced_from]. change (isspace 32%N) with true. cbv iota.
      rewrite (H2 Hh). reflexivity.
    + intros Hx. cbn [head_fails] in Hx. congruence.
  - rewrite collapse_other by assumption.
    rewrite rstrip_cons_nonspace in Hr by assumption.
    assert (Hr' : rstrip s = s) by (injection Hr; auto).
    assert (G : spaced_from false
                  (sub_from (XPlus isspace) (fun _ => py " ") false 0 s)
                = true).
    { destruct s as [|y r]; [reflexivity|].
      apply (IH (y :: r)); [lia | discriminate | exact Hr']. }
    cbn [spaced_from]. rewrite Ex. split; [exact G | intros _; exact G].
Qed.

Lemma collapse_strip_spaced (content : str) :
  single_spaced
    (sub (XPlus isspace) (fun _ => py " ") (strip content)) = true.
Proof.
  destruct (strip content) as [|c l] eqn:E; [reflexivity|].
  destruct (strip_shape content) as [x [m [r [y [H1 [_ [Hx _]]]]]]];
    [rewrite E; discriminate|].
  rewrite E in H1. inversion H1; subst x m.
  unfold sub. rewrite collapse_flag.
  assert (Hr : rstrip (c :: l) = c :: l).
  { rewrite <- E. unfold strip. apply rstrip_idem. }
  destruct (collapse_spaced (List.length (c :: l)) (c :: l) (Nat.le_refl _))
    as [_ H2]; [discriminate | exact Hr|].
  specialize (H2 Hx). rewrite collapse_other in * by assumption.
  exact H2.
Qed.

(** *** Sentence starts *)

Lemma lower_not_space (c : char) :
  is_lower_ascii c = true -> isspace c = false /\ sentence_end c = false.
Proof.
  intros H. split.
  - apply isspace_not_cased. unfold is_cased. rewrite H. apply orb_true_r.
  - unfold is_lower_ascii in H. apply andb_true_iff in H.
    destruct H as [H1 H2]. apply N.leb_le in H1, H2.
    unfold sentence_end.
    assert (E1 : (c =? 46)%N = false) by (apply N.eqb_neq; lia).
    assert (E2 : (c =? 33)%N = false) by (apply N.eqb_neq; lia).
    assert (E3 : (c =? 63)%N = false) by (apply N.eqb_neq; lia).
    rewrite E1, E2, E3. reflexivity.
Qed.

Lemma sentence_end_cases (c : char) :
  sentence_end c = true -> isspace c = false /\ is_lower_ascii c = false.
Proof.
  unfold sentence_end. intros H.
  apply orb_true_iff in H. destruct H as [H|H];
    [apply orb_true_iff in H; destruct H as [H|H]|];
    apply N.eqb_eq in H; subst c; split; reflexivity.
Qed.

Lemma upper_char_class (c : char) :
  is_lower_ascii c = true ->
  isspace (upper_char c) = false /\ sentence_end (upper_char c) = false
  /\ is_lower_ascii (upper_char c) = false.
Proof.
  intros H. unfold upper_char. rewrite H.
  unfold is_lower_ascii in H. apply andb_true_iff in H.
  destruct H as [H1 H2]. apply N.leb_le in H1, H2.
  assert (U : is_upper_ascii (c - 32)%N = true).
  { unfold is_upper_ascii. apply andb_true_iff.
    split; apply N.leb_le; lia. }
  split; [|split].
  - apply isspace_not_cased. unfold is_cased. rewrite U. reflexivity.
  - unfold sentence_end.
    assert (E1 : (c - 32 =? 46)%N = false) by (apply N.eqb_neq; lia).
    assert (E2 : (c - 32 =? 33)%N = false) by (apply N.eqb_neq; lia).
    assert (E3 : (c - 32 =? 63)%N = false) by (apply N.eqb_neq; lia).
    rewrite E1, E2, E3. reflexivity.
  - unfold is_lower_ascii.
    assert (E : (97 <=? c - 32)%N = false) by (apply N.leb_gt; lia).
    rewrite E. reflexivity.
Qed.

Lemma match_sentence_start (b : bool) (s : str) :
  match_here sentence_start b s
  = match (if b
           then match s with
                | x :: s' => if is_lower_ascii x then Some s' else None
                | [] => None
                end
           else None) with
    | Some r => Some r
    | None =>
        match s with
        | p :: w :: s2 =>
            if sentence_end p
            then if isspace w
                 then xstar isspace s2
                        (fun rest =>
                           match rest with
                           | y :: r => if is_lower_ascii y then Some r else None
                           | [] => None
                           end)
                 else None
            else None
        | _ => None
        end
    end.
Proof.
  unfold match_here, sentence_start. cbn [xmatch].
  destruct b; cbv iota; destruct s as [|x [|w s2]]; try reflexivity;
    try (destruct (is_lower_ascii x); [reflexivity|]);
    destruct (sentence_end x); try reflexivity;
    destruct (isspace w); reflexivity.
Qed.

Lemma next_place_other (p : place) (c : char) :
  isspace c = false -> next_place p c = next_place Inside c.
Proof.
  intros H. unfold next_place. rewrite H. reflexivity.
Qed.

Lemma match_sentence_end (b : bool) (c : char) (s' : str) :
  b && is_lower_ascii c = false ->
  match_here sentence_start b (c :: s')
  = match s' with
    | w :: s2 =>
        if sentence_end c
        then if isspace w
             then xstar isspace s2
                    (fun rest =>
                       match rest with
                       | y :: r => if is_lower_ascii y then Some r else None
                       | [] => None
                       end)
             else None
        else None
    | [] => None
    end.
Proof.
  intros H. rewrite match_sentence_start.
  destruct b; cbn [andb] in H; [rewrite H|]; reflexivity.
Qed.

Lemma capitalized_cons (p : place) (c : char) (s : str) :
  capitalized p (c :: s)
  = (if opens_sentence p && is_lower_ascii c then upper_char c else c)
      :: capitalized (next_place p c) s.
Proof. reflexivity. Qed.

Lemma next_place_inside (c : char) (p : place) :
  isspace c = false -> sentence_end c = false -> next_place p c = Inside.
Proof. intros H1 H2. unfold next_place. rewrite H1, H2. reflexivity. Qed.

Lemma after_end_same (s : str) :
  spaced_from false s = true ->
  (forall y r, s = 32%N :: y :: r -> is_lower_ascii y = false) ->
  capitalized AfterEnd s = capitalized Inside s.
Proof.
  intros Hs Hno. destruct s as [|w s2]; [reflexivity|].
  destruct (spaced_cases _ _ _ Hs) as [[Hw _]|[-> [_ [y [r [-> [Hy _]]]]]]].
  - cbn [capitalized opens_sentence andb].
    rewrite (next_place_other AfterEnd w Hw). reflexivity.
  - cbn [capitalized opens_sentence andb].
    change (next_place AfterEnd 32%N) with AfterEndSpace.
    change (next_place Inside 32%N) with Inside.
    cbn [capitalized opens_sentence andb].
    rewrite (Hno y r eq_refl).
    rewrite (next_place_other AfterEndSpace y Hy). reflexivity.
Qed.

Lemma capitalize_spaced (n : nat) :
  forall (s : str) (a b : bool),
    List.length s <= n -> spaced_from a s = true ->
    sub_from sentence_start upper_group2 b 0 s
    = capitalized (if b then AtStart else Inside) s.
Proof.
  induction n as [|n IH]; intros s a b Hlen Hs.
  { destruct s; [reflexivity | cbn [List.length] in Hlen; lia]. }
  destruct s as [|c s']; [reflexivity|]. cbn [List.length] in Hlen.
  destruct (spaced_cases _ _ _ Hs) as [[Hc Hs']|[-> [_ [y [r [-> [Hy Hr]]]]]]].
  2: { (* a single space *)
    rewrite sub_from_no_match.
    2: { rewrite match_sentence_start. destruct b; reflexivity. }
    cbn [capitalized].
    assert (E : (if opens_sentence (if b then AtStart else Inside)
                    && is_lower_ascii 32%N
                 then upper_char 32%N else 32%N) = 32%N)
      by (destruct b; reflexivity).
    rewrite E.
    assert (E2 : next_place (if b then AtStart else Inside) 32%N = Inside)
      by (destruct b; reflexivity).
    rewrite E2. f_equal.
    apply (IH (y :: r) false false); [lia|].
    cbn [spaced_from]. rewrite Hy. exact Hr. }
  destruct (b && is_lower_ascii c) eqn:B1.
  { (* a lower-case letter at the start of the text *)
    apply andb_true_iff in B1. destruct B1 as [-> Hl].
    destruct (lower_not_space c Hl) as [_ He].
    rewrite (sub_from_match _ _ true c s' [c] s');
      [| rewrite match_sentence_start, Hl; reflexivity | reflexivity
       | discriminate].
    cbn [capitalized opens_sentence andb]. rewrite Hl.
    rewrite (next_place_inside c AtStart Hc He).
    change (upper_group2 [c]) with [upper_char c]. cbn [app]. f_equal.
    apply (IH s' false false); [lia | assumption]. }
  assert (Hhead : (if opens_sentence (if b then AtStart else Inside)
                      && is_lower_ascii c
                   then upper_char c else c) = c).
  { destruct b; cbn [opens_sentence andb] in *; [rewrite B1|]; reflexivity. }
  destruct (sentence_end c) eqn:He.
  2: { (* an ordinary character *)
    rewrite sub_from_no_match.
    2: { rewrite (match_sentence_end b c _ B1).
         destruct s' as [|w s2]; [reflexivity|]. rewrite He. reflexivity. }
    cbn [capitalized]. rewrite Hhead, (next_place_inside c _ Hc He). f_equal.
    apply (IH s' false false); [lia | assumption]. }
  (* the end of a sentence *)
  assert (Hnext : next_place (if b then AtStart else Inside) c = AfterEnd)
    by (unfold next_place; rewrite He; reflexivity).
  destruct s' as [|w s2].
  { rewrite sub_from_no_match
      by (rewrite (match_sentence_end b c _ B1); reflexivity).
    cbn [capitalized]. rewrite Hhead. reflexivity. }
  destruct (spaced_cases _ _ _ Hs') as [[Hw Hs2]|[-> [_ [y [r [-> [Hy Hr]]]]]]].
  { rewrite sub_from_no_match
      by (rewrite (match_sentence_end b c _ B1), He, Hw; reflexivity).
    rewrite capitalized_cons, Hhead, Hnext. f_equal.
    rewrite (IH (w :: s2) false false) by (cbn [List.length] in *; lia || assumption).
    symmetry. apply after_end_same; [assumption|].
    intros y r E. inversion E; subst. discriminate. }
  cbn [List.length] in Hlen.
  destruct (is_lower_ascii y) eqn:Hl.
  - (* a lower-case letter after the end of a sentence and a space *)
    rewrite (sub_from_match _ _ b c (32%N :: y :: r) [c; 32%N; y] r);
      [| | reflexivity | discriminate].
    2: { rewrite (match_sentence_end b c _ B1), He.
         change (isspace 32%N) with true. cbv iota.
         cbn [xstar]. rewrite Hy, Hl. reflexivity. }
    change (upper_group2 [c; 32%N; y]) with [c; 32%N; upper_char y].
    cbn [app capitalized]. rewrite Hhead, Hnext.
    change (next_place AfterEnd 32%N) with AfterEndSpace.
    cbn [opens_sentence andb]. rewrite Hl.
    destruct (lower_not_space y Hl) as [_ Hey].
    rewrite (next_place_inside y AfterEndSpace Hy Hey).
    do 3 f_equal. apply (IH r false false); [lia | assumption].
  - rewrite sub_from_no_match.
    2: { rewrite (match_sentence_end b c _ B1), He.
         change (isspace 32%N) with true. cbv iota.
         cbn [xstar]. rewrite Hy, Hl. reflexivity. }
    rewrite capitalized_cons, Hhead, Hnext. f_equal.
    transitivity (capitalized Inside (32%N :: y :: r)).
    { apply (IH (32%N :: y :: r) false false);
        [cbn [List.length]; lia | assumption]. }
    symmetry. apply after_end_same; [assumption|].
    intros y' r' E. inversion E; subst. exact Hl.
Qed.

(** *** The improved text *)

Lemma capitalized_head (p : place) (c : char) :
  let c' := if opens_sentence p && is_lower_ascii c then upper_char c else c in
  isspace c' = isspace c /\ (c' =? 32)%N = (c =? 32)%N
  /\ sentence_end c' = sentence_end c
  /\ opens_sentence p && is_lower_ascii c' = false
     \/ c' = c.
Proof.
  cbv zeta. destruct (opens_sentence p && is_lower_ascii c) eqn:E;
    [|right; reflexivity].
  left. apply andb_true_iff in E. destruct E as [_ Hl].
  destruct (lower_not_space c Hl) as [H1 H2].
  destruct (upper_char_class c Hl) as [U1 [U2 U3]].
  rewrite H1, H2, U1, U2, U3, andb_false_r.
  split; [reflexivity|]. split; [|split; reflexivity].
  assert (N1 : (upper_char c =? 32)%N = false).
  { destruct (upper_char c =? 32)%N eqn:Q; [|reflexivity].
    apply N.eqb_eq in Q. rewrite Q in U1. discriminate. }
  assert (N2 : (c =? 32)%N = false).
  { destruct (c =? 32)%N eqn:Q; [|reflexivity].
    apply N.eqb_eq in Q. rewrite Q in H1. discriminate. }
  rewrite N1, N2. reflexivity.
Qed.

Lemma capitalized_spaced (s : str) :
  forall p a, spaced_from a (capitalized p s) = spaced_from a s.
Proof.
  induction s as [|c s IH]; intros p a; [reflexivity|].
  rewrite capitalized_cons.
  destruct (capitalized_head p c) as [[H1 [H2 _]]|E].
  - cbn [spaced_from]. rewrite H1, H2, !IH. reflexivity.
  - rewrite E. cbn [spaced_from]. rewrite !IH. reflexivity.
Qed.

Lemma capitalized_idem (s : str) :
  forall p, capitalized p (capitalized p s) = capitalized p s.
Proof.
  induction s as [|c s IH]; intros p; [reflexivity|].
  rewrite !capitalized_cons.
  destruct (capitalized_head p c) as [[H1 [_ [H3 H4]]]|E].
  - rewrite H4. f_equal.
    assert (N : next_place p
                  (if opens_sentence p && is_lower_ascii c
                   then upper_char c else c)
                = next_place p c).
    { unfold next_place. rewrite H1, H3. reflexivity. }
    rewrite N. apply IH.
  - rewrite E.
    destruct (opens_sentence p && is_lower_ascii c) eqn:Q.
    + f_equal.
      * apply andb_true_iff in Q. destruct Q as [_ Hl].
        assert (U : upper_char c = c) by exact E.
        destruct (upper_char_class c Hl) as [_ [_ U3]].
        rewrite U in U3. congruence.
      * apply IH.
    + f_equal. apply IH.
Qed.

Lemma improvement_capitalized (content section_type : str) :
  _rule_based_improvement content section_type
  = capitalized AtStart
      (sub (XPlus isspace) (fun _ => py " ") (strip content))
  /\ single_spaced (_rule_based_improvement content section_type) = true.
Proof.
  unfold _rule_based_improvement.
  pose proof (collapse_strip_spaced content) as Hu.
  set (u := sub (XPlus isspace) (fun _ => py " ") (strip content)) in *.
  assert (E : sub sentence_start upper_group2 u = capitalized AtStart u).
  { destruct u as [|c u']; [reflexivity|]. cbn [single_spaced] in Hu.
    unfold sub.
    apply (capitalize_spaced (List.length (c :: u')) (c :: u') true true);
      [apply Nat.le_refl | exact Hu]. }
  rewrite E. split; [reflexivity|].
  destruct u as [|c u']; [reflexivity|].
  rewrite capitalized_cons. cbn [single_spaced].
  rewrite <- capitalized_cons, capitalized_spaced. exact Hu.
Qed.

(** X29.  The text that [_rule_based_improvement] returns is single-spaced:
    every white-space character in it is one space between two other
    characters, so there is no white space at either end; it does not
    begin with a lower-case letter; and it is empty when the content is
    blank. *)
Theorem rule_based_improvement_normal_form (content section_type : str) :
  single_spaced (_rule_based_improvement content section_type) = true
  /\ strip (_rule_based_improvement content section_type)
     = _rule_based_improvement content section_type
  /\ head_fails is_lower_ascii (_rule_based_improvement content section_type)
  /\ (strip content = [] ->
      _rule_based_improvement content section_type = []).
Proof.
  destruct (improvement_capitalized content section_type) as [E Hs].
  split; [exact Hs|]. split; [apply single_spaced_fixed; exact Hs|]. split.
  - rewrite E.
    destruct (sub (XPlus isspace) (fun _ => py " ") (strip content))
      as [|c u]; [exact I|].
    rewrite capitalized_cons. cbn [head_fails opens_sentence andb].
    destruct (is_lower_ascii c) eqn:L; [|exact L].
    apply upper_char_class. exact L.
  - intros Hb. rewrite E, Hb. reflexivity.
Qed.

(** X30.  [_rule_based_improvement] is idempotent: improving an improved text
    changes nothing. *)
Theorem rule_based_improvement_idempotent (content section_type other : str) :
  _rule_based_improvement
    (_rule_based_improvement content section_type) other
  = _rule_based_improvement content section_type.
Proof.
  destruct (improvement_capitalized content section_type) as [E Hs].
  destruct (single_spaced_fixed _ Hs) as [F1 F2].
  rewrite (proj1 (improvement_capitalized _ other)).
  rewrite F1, F2. rewrite E. apply capitalized_idem.
Qed.

(** An example: white space is collapsed and the sentences are
    capitalized. *)
Example rule_based_improvement_example :
  _rule_based_improvement (py "  led the   team.\nshipped it!  done  ")
    (py "experience")
  = py "Led the team. Shipped it! Done".
Proof. vm_compute. reflexivity. Qed.
(* ================================================================== *)
(** ** Documents of header blocks, in general *)
(* ================================================================== *)

(** A name that [_extract_section_name] returns is not empty. *)
Lemma extract_some_nonempty (line n : str) :
  _extract_section_name line = Some n -> n <> [].
Proof.
  intros He.
  assert (Hh : is_header line = true).
  { apply is_header_iff. unfold _extract_section_name in He.
    destruct (first_match_some _ _ _ He) as [p [g [Hin Hm]]].
    destruct (pattern_group _ _ _ Hin Hm) as [h [w [u [rest [_ [Hne Hs]]]]]].
    rewrite Hs. cbn [app].
    destruct (h ++ w ++ u ++ rest) as [|c rest'] eqn:E2; [|eauto].
    exfalso. apply app_eq_nil in E2. destruct E2 as [_ E2].
    apply app_eq_nil in E2. destruct E2 as [_ E2].
    apply app_eq_nil in E2. destruct E2 as [E2 _]. contradiction. }
  unfold is_header in Hh. rewrite He in Hh. cbn [truthy] in Hh.
  apply nonempty_true; assumption.
Qed.

Lemma run_read_blocks (blocks : list header_block) (names : list str)
  (st : locals) :
  read_as blocks names ->
  save (fold_left step (List.concat (map block_lines blocks)) st)
  = fold_left (fun d nb => commit d (fst nb) (snd nb))
      (combine names (map snd blocks)) (save st).
Proof.
  intros H. revert st.
  induction H as [|[h b] n blocks names [He [_ Hb]] _ IH]; intros st.
  - reflexivity.
  - cbn [map List.concat block_lines fst snd combine fold_left].
    rewrite fold_left_app. unfold block_lines at 2.
    cbn [fst snd fold_left] in *.
    rewrite (step_open st h n He (extract_some_nonempty h n He)).
    rewrite (run_body b (open_section st n)).
    + unfold open_section.
      cbn [sections current_section current_content header_found app].
      rewrite IH. rewrite save_commit. reflexivity.
    + eapply Forall_impl; [|exact Hb]. intros l [Hl _]. exact Hl.
    + left. reflexivity.
Qed.

Lemma read_as_lines (blocks : list header_block) (names : list str) :
  read_as blocks names ->
  Forall no_nl (List.concat (map block_lines blocks)).
Proof.
  induction 1 as [|b n bs ns [_ [H1 H2]] _ IH]; [constructor|].
  cbn [map List.concat block_lines]. constructor; [exact H1|].
  apply Forall_app. split; [|exact IH].
  eapply Forall_impl; [|exact H2]. intros l [_ H]. exact H.
Qed.

Lemma read_as_names (blocks : list header_block) (names : list str) :
  read_as blocks names ->
  map fst (combine names (map snd blocks)) = names
  /\ List.length blocks = List.length names
  /\ Forall (fun n => n <> []) names.
Proof.
  induction 1 as [|b n bs ns [He _] _ [IH1 [IH2 IH3]]];
    [repeat split; constructor|].
  cbn [map combine fst List.length]. rewrite IH1, IH2.
  repeat split. constructor; [|exact IH3].
  eapply extract_some_nonempty; eassumption.
Qed.

(** The parser on a document of header blocks: the text before the first
    header is stored under "header", and then every header with at least
    one line below it stores its trimmed body under its name. *)
Lemma parse_read_blocks (pre : list str) (blocks : list header_block)
  (names : list str) :
  Forall line_ok pre -> read_as blocks names ->
  _parse_markdown_content (document pre blocks)
  = clean (fold_left (fun d nb => commit d (fst nb) (snd nb))
             (combine names (map snd blocks)) (stored_lead pre)).
Proof.
  intros Hpre Hblocks.
  unfold _parse_markdown_content, document.
  destruct (pre ++ List.concat (map block_lines blocks)) as [|l0 ls0] eqn:Elines.
  { apply app_eq_nil in Elines. destruct Elines as [-> Hc].
    destruct blocks as [|b blocks]; [|discriminate].
    inversion Hblocks; subst. reflexivity. }
  rewrite <- Elines. rewrite split_join.
  2: { rewrite Elines; discriminate. }
  2: { apply Forall_app. split.
       - eapply Forall_impl; [|exact Hpre]. intros l [_ H]. exact H.
       - eapply read_as_lines; eassumption. }
  unfold parse_lines, run. rewrite fold_left_app.
  rewrite (run_read_blocks blocks names _ Hblocks). do 2 f_equal.
  destruct pre as [|p pre']; [reflexivity|].
  rewrite run_preamble.
  - rewrite save_commit. reflexivity.
  - eapply Forall_impl; [|exact Hpre]. intros l [H _]. exact H.
Qed.

Lemma clean_stored_lead (pre : list str) :
  clean (stored_lead pre) = leading_entry pre.
Proof.
  unfold leading_entry. destruct pre as [|p pre']; [reflexivity|].
  cbn [stored_lead clean filter snd]. rewrite strip_idem.
  destruct (nonempty (strip (join [NL] (p :: pre')))); reflexivity.
Qed.

Lemma stored_lead_keys (pre : list str) (k : str) :
  In k (keys (stored_lead pre)) -> k = py "header".
Proof.
  destruct pre; [intros []|]. intros [H|[]]. symmetry; exact H.
Qed.

(** *** Counting the entries *)

Lemma clean_dict_set (k v : str) (d : dict) :
  List.length (clean (dict_set k v d)) <= S (List.length (clean d))
  /\ forall x, In x (keys (clean (dict_set k v d))) ->
               x = k \/ In x (keys (clean d)).
Proof.
  unfold clean, keys.
  induction d as [|[k' v'] d [IH1 IH2]].
  - cbn [dict_set filter snd].
    destruct (nonempty (strip v)); cbn [List.length map fst In].
    + split; [lia|]. intros x [H|[]]. left; symmetry; exact H.
    + split; [lia|]. intros x [].
  - cbn [dict_set]. destruct (str_eqb k' k) eqn:E.
    + apply str_eqb_eq in E. subst k'. cbn [filter snd].
      destruct (nonempty (strip v)), (nonempty (strip v'));
        cbn [List.length map fst In];
        (split; [lia|]); intros x Hx; intuition auto.
    + cbn [filter snd].
      destruct (nonempty (strip v')); cbn [List.length map fst In];
        (split; [lia|]); intros x Hx.
      * destruct Hx as [Hx|Hx]; [right; left; exact Hx|].
        destruct (IH2 x Hx); [left | right; right]; assumption.
      * exact (IH2 x Hx).
Qed.

Lemma clean_fold_commit_bound (entries : list (str * list str)) (d : dict) :
  List.length
    (clean (fold_left (fun d nb => commit d (fst nb) (snd nb)) entries d))
  <= List.length (clean d) + List.length entries
  /\ forall x,
       In x (keys (clean (fold_left (fun d nb => commit d (fst nb) (snd nb))
                            entries d))) ->
       In x (keys (clean d)) \/ In x (map fst entries).
Proof.
  revert d. induction entries as [|[n ls] entries IH]; intros d.
  - cbn [fold_left List.length map]. split; [lia | tauto].
  - cbn [fold_left List.length map fst snd].
    destruct (IH (commit d n ls)) as [IH1 IH2].
    assert (Hc : List.length (clean (commit d n ls))
                 <= S (List.length (clean d))
                 /\ forall x, In x (keys (clean (commit d n ls))) ->
                              x = n \/ In x (keys (clean d))).
    { unfold commit. destruct (nonempty n && nonempty ls).
      - apply clean_dict_set.
      - split; [lia | tauto]. }
    destruct Hc as [Hc1 Hc2]. split; [lia|].
    intros x Hx. destruct (IH2 x Hx) as [H|H].
    + destruct (Hc2 x H) as [->|H']; [right; left; reflexivity | tauto].
    + right; right; exact H.
Qed.

(** *** Headers that begin with a recognized synonym *)

Lemma synonym_table_keys : keys SYNONYM_TABLE = RECOGNIZED_SYNONYMS.
Proof. reflexivity. Qed.

(** The table agrees with the normalization table of the parser, and
    names canonical names only. *)
Lemma canonical_name_table (syn : str) :
  In syn (keys SYNONYM_TABLE) ->
  canonical syn = canonical_name syn
  /\ In (canonical_name syn) CANONICAL_NAMES.
Proof.
  intros Hin.
  assert (H : forallb (fun syn => str_eqb (canonical syn) (canonical_name syn)
                                  && mem (canonical_name syn) CANONICAL_NAMES)
                (keys SYNONYM_TABLE) = true) by (vm_compute; reflexivity).
  rewrite forallb_forall in H. specialize (H syn Hin).
  apply andb_true_iff in H. destruct H as [H1 H2].
  apply str_eqb_eq in H1. apply mem_In in H2. auto.
Qed.

(** The parser reads a header that begins with a recognized synonym under
    the canonical name of the synonym. *)
Lemma synonym_header_name (line syn : str) :
  synonym_header line syn ->
  _extract_section_name line = Some (canonical_name syn).
Proof.
  intros [Hin [_ [hashes [ws [title [Hs [Hne [Hh [Hw Ht]]]]]]]]].
  destruct (canonical_name_table syn Hin) as [<- _].
  rewrite synonym_table_keys in Hin.
  rewrite <- extract_lower. unfold _extract_section_name.
  rewrite strip_lower, Hs. unfold lower at 1. rewrite !map_app.
  fold (lower hashes) (lower ws) (lower title).
  destruct (lower_hashes _ Hh) as [Eh Hh']. rewrite Eh.
  destruct hashes as [|x h]; [congruence|].
  cbn [forallb] in Hh, Hh'. apply andb_true_iff in Hh, Hh'.
  destruct Hh as [Hx _]. destruct Hh' as [_ Hh']. apply N.eqb_eq in Hx.
  subst x.
  assert (Et : lower title = syn ++ lower (skipn (List.length syn) title)).
  { rewrite <- (firstn_skipn (List.length syn) title) at 1.
    unfold lower at 1. rewrite map_app.
    fold (lower (firstn (List.length syn) title)). rewrite Ht. reflexivity. }
  rewrite Et. set (R := lower (skipn (List.length syn) title)).
  assert (Hlow : Forall (fun x => lower_char x = x) R).
  { unfold R, lower. apply Forall_forall. intros x Hx.
    apply in_map_iff in Hx. destruct Hx as [y [<- _]].
    apply lower_char_idem. }
  destruct (synonym_consumed syn R Hin Hlow) as [g [rest [E1 [E2 E3]]]].
  destruct (synonyms_letter syn Hin) as [c [s' [Es Hc]]].
  assert (Hcased : is_cased c = true)
    by (unfold is_cased; rewrite Hc; apply orb_true_r).
  rewrite section_patterns_bodies, map_app.
  rewrite first_match_bodies.
  - rewrite E2, E1, firstn_app_length, E3. reflexivity.
  - exact specific_bodies_letters.
  - assumption.
  - apply lower_spaces; assumption.
  - rewrite Es. change (cmatch HASH c = false).
    destruct (cmatch HASH c) eqn:E; [|reflexivity].
    apply cmatch_hash in E. subst c. discriminate.
  - rewrite Es. change (isspace c = false).
    apply isspace_not_cased; assumption.
Qed.

Lemma hash_opened_is_header (l : str) : is_header l = hash_opened l.
Proof.
  unfold hash_opened. destruct (is_header l) eqn:E.
  - apply is_header_iff in E. destruct E as [c [rest ->]]. reflexivity.
  - apply is_header_false_iff in E.
    destruct E as [->|[->|[x [m [-> Hx]]]]]; try reflexivity.
    destruct m; [reflexivity|]. symmetry. apply N.eqb_neq. exact Hx.
Qed.

Lemma plain_line_ok (l : str) : plain_line l -> line_ok l.
Proof.
  intros [H1 H2]. split; [|exact H1]. rewrite hash_opened_is_header. exact H2.
Qed.

Lemma sectioned_read_as (pre : list str) (blocks : list header_block)
  (syns : list str) :
  sectioned pre blocks syns ->
  Forall line_ok pre
  /\ read_as blocks (map canonical_name syns)
  /\ Forall (fun n => In n CANONICAL_NAMES) (map canonical_name syns).
Proof.
  intros [Hpre Hblocks]. split.
  { eapply Forall_impl; [|exact Hpre]. apply plain_line_ok. }
  induction Hblocks as [|b syn bs ss [Hh Hb] _ [IH1 IH2]];
    [split; constructor|].
  cbn [map]. split; constructor; try assumption.
  - split; [apply synonym_header_name; exact Hh|].
    split; [destruct Hh as [_ [H _]]; exact H|].
    eapply Forall_impl; [|exact Hb]. apply plain_line_ok.
  - destruct Hh as [Hin _]. apply canonical_name_table; assumption.
Qed.
(* ================================================================== *)
(** ** C3: the entries of a document of recognized headers *)
(* ================================================================== *)



(* ================================================================== *)
(** ** C1: formatting, parsing and formatting again *)
(* ================================================================== *)

(** *** What the hypotheses of the round trip say *)

Lemma strs_eqb_eq (a b : list str) : strs_eqb a b = true -> a = b.
Proof.
  revert b. induction a as [|x a IH]; intros [|y b]; simpl;
    try discriminate; [reflexivity|].
  intros H. apply andb_true_iff in H. destruct H as [H1 H2].
  apply str_eqb_eq in H1. subst y. f_equal. auto.
Qed.

Lemma same_rule_body (k k' v : str) :
  same_rule k k' = true -> rendered_body k' v = rendered_body k v.
Proof.
  unfold same_rule, rendered_body. intros H.
  apply andb_true_iff in H. destruct H as [H1 H2].
  apply eqb_prop in H1, H2. rewrite H1, H2. reflexivity.
Qed.

Lemma stable_name_facts (k : str) :
  stable_name k = true ->
  str_eqb k (py "header") = false
  /\ no_nl (heading k)
  /\ _extract_section_name (heading k) = Some (reread k)
  /\ str_eqb (reread k) (py "header") = false
  /\ heading (reread k) = heading k
  /\ forall v, rendered_body (reread k) v = rendered_body k v.
Proof.
  unfold stable_name, reread. intros H.
  apply andb_true_iff in H. destruct H as [H H3].
  apply andb_true_iff in H. destruct H as [H1 H2].
  apply negb_true_iff in H1, H2.
  destruct (_extract_section_name (heading k)) as [name|]; [|discriminate].
  apply andb_true_iff in H3. destruct H3 as [H3 H6].
  apply andb_true_iff in H3. destruct H3 as [H4 H5].
  apply negb_true_iff in H4. apply str_eqb_eq in H5.
  split; [exact H1|]. split; [apply contains_false; exact H2|].
  split; [reflexivity|]. split; [exact H4|]. split; [exact H5|].
  intros v. apply same_rule_body; assumption.
Qed.

Lemma reads_back_facts (sections : dict) (template : str) :
  reads_back sections template = true ->
  Forall (fun k => stable_name k = true)
    (_get_section_order sections template)
  /\ NoDup (map reread (_get_section_order sections template))
  /\ _get_section_order
       (map (fun name => (name, []))
          (map reread (_get_section_order sections template))) template
     = map reread (_get_section_order sections template).
Proof.
  unfold reads_back. intros H.
  apply andb_true_iff in H. destruct H as [H H3].
  apply andb_true_iff in H. destruct H as [H1 H2].
  split; [|split].
  - apply Forall_forall. rewrite forallb_forall in H1. exact H1.
  - apply distinct_NoDup; assumption.
  - apply strs_eqb_eq; assumption.
Qed.

(** The order of the sections depends on the keys only. *)
Lemma get_section_order_of_keys (d d' : dict) (template : str) :
  keys d = keys d' ->
  _get_section_order d template = _get_section_order d' template.
Proof.
  intros H. unfold _get_section_order, dict_mem. rewrite H. reflexivity.
Qed.

(** *** Rendering a section *)

Lemma format_section_render (k v template : str) :
  str_eqb k (py "header") = false -> tidy v ->
  _format_section k v template = render (k, rendered_body k v).
Proof.
  intros Hk [Hs Hne].
  assert (Hn : nonempty v = true) by (apply nonempty_true; assumption).
  unfold _format_section, _format_contact_section, _format_summary_section,
    _format_experience_section, _format_skills_section,
    _format_generic_section, render, heading, rendered_body, comma_list,
    skills_items.
  cbn [fst snd]. rewrite !Hs, !Hn, Hk. cbn [negb].
  destruct (str_eqb k (py "contact")) eqn:E1.
  { apply str_eqb_eq in E1. subst k. reflexivity. }
  destruct (str_eqb k (py "summary")) eqn:E2.
  { apply str_eqb_eq in E2. subst k. reflexivity. }
  destruct (str_eqb k (py "experience")) eqn:E3; [reflexivity|].
  destruct (str_eqb k (py "skills")) eqn:E4; [reflexivity|].
  rewrite <- !app_assoc. reflexivity.
Qed.

(** The document of sections with names other than "header" and good
    bodies. *)
Lemma format_rendered (sections : dict) (template : str) :
  sections <> [] ->
  (forall k v, In (k, v) sections ->
               str_eqb k (py "header") = false /\ tidy v) ->
  format_resume sections template
  = Return (join (py "\n\n")
              (map render (rendered_entries sections template))).
Proof.
  intros Hne Hall. rewrite format_resume_spec by assumption.
  do 2 f_equal. unfold rendered_entries. rewrite map_map.
  rewrite forallb_filter_id.
  - apply map_ext_in. intros k Hk.
    apply get_section_order_keys in Hk.
    pose proof (dict_get_in k [] sections Hk) as Hin.
    destruct (Hall _ _ Hin) as [Hc Hg].
    unfold block. apply format_section_render; assumption.
  - apply forallb_forall. intros b Hb. apply in_map_iff in Hb.
    destruct Hb as [k [<- Hk]].
    apply get_section_order_keys in Hk.
    pose proof (dict_get_in k [] sections Hk) as Hin.
    destruct (Hall _ _ Hin) as [Hc Hg].
    unfold block. rewrite format_section_render;
      [apply render_nonempty | assumption | assumption].
Qed.

(** *** Reading the rendered document back *)

Lemma rendered_read_as (entries : dict) :
  (forall k v, In (k, v) entries -> stable_name k = true /\ good_body v) ->
  read_as (rendered_blocks entries) (map reread (keys entries))
  /\ map block_body (rendered_blocks entries) = map snd entries.
Proof.
  intros Hall.
  assert (Hblock : forall k v tail,
             stable_name k = true -> good_body v ->
             tail = [] \/ tail = [[]] ->
             (_extract_section_name (heading k) = Some (reread k)
              /\ no_nl (heading k)
              /\ Forall line_ok ([] :: split NL v ++ tail))
             /\ block_body (heading k, [] :: split NL v ++ tail) = v).
  { intros k v tail Hk Hg Ht.
    destruct (stable_name_facts k Hk) as [_ [H2 [H1 _]]].
    split; [split; [exact H1|]; split; [exact H2|]|].
    - constructor; [exact blank_line_ok|].
      apply Forall_app. split.
      + destruct Hg as [_ [_ Hh]]. apply Forall_forall. intros l Hl. split.
        * rewrite Forall_forall in Hh. auto.
        * pose proof (split_lines_no_sep NL v) as Hn.
          rewrite Forall_forall in Hn. apply Hn; assumption.
      + destruct Ht as [->| ->]; [constructor|].
        constructor; [exact blank_line_ok | constructor].
    - unfold block_body. cbn [snd].
      apply rendered_body_of_block; [apply good_body_tidy|]; assumption. }
  split.
  - induction entries as [|[k v] es IH]; [constructor|].
    destruct (Hall k v (or_introl eq_refl)) as [Hk Hg].
    assert (IH' := IH (fun k' v' H => Hall k' v' (or_intror H))).
    destruct es as [|e' es].
    + cbn [rendered_blocks keys map fst]. constructor; [|constructor].
      rewrite <- (app_nil_r (split NL v)).
      apply (Hblock k v []); auto.
    + change (rendered_blocks ((k, v) :: e' :: es))
        with ((heading k, [] :: split NL v ++ [[]])
                :: rendered_blocks (e' :: es)).
      change (map reread (keys ((k, v) :: e' :: es)))
        with (reread k :: map reread (keys (e' :: es))).
      constructor; [|exact IH'].
      apply (Hblock k v [[]]); auto.
  - induction entries as [|[k v] es IH]; [reflexivity|].
    destruct (Hall k v (or_introl eq_refl)) as [Hk Hg].
    assert (IH' := IH (fun k' v' H => Hall k' v' (or_intror H))).
    destruct es as [|e' es].
    + cbn [rendered_blocks map snd]. f_equal.
      rewrite <- (app_nil_r (split NL v)).
      apply (Hblock k v []); auto.
    + change (rendered_blocks ((k, v) :: e' :: es))
        with ((heading k, [] :: split NL v ++ [[]])
                :: rendered_blocks (e' :: es)).
      cbn [map snd]. f_equal; [|exact IH'].
      apply (Hblock k v [[]]); auto.
Qed.

(** What the formatter renders for sections of stable names and good
    bodies, the parser reads back entry for entry, each under the name it
    reads in the heading. *)
Lemma parse_rendered (entries : dict) :
  entries <> [] -> NoDup (map reread (keys entries)) ->
  (forall k v, In (k, v) entries -> stable_name k = true /\ good_body v) ->
  _parse_markdown_content (join (py "\n\n") (map render entries))
  = combine (map reread (keys entries)) (map snd entries).
Proof.
  intros Hne Hnd Hall.
  destruct (rendered_read_as entries Hall) as [Hread Hb].
  destruct (read_as_names _ _ Hread) as [Hfst [_ Hnames]].
  rewrite <- rendered_document by assumption.
  rewrite (parse_read_blocks [] (rendered_blocks entries)
             (map reread (keys entries)));
    [|constructor | exact Hread].
  cbn [stored_lead]. rewrite clean_fold_commit.
  - cbn [clean filter app]. rewrite combine_map_snd, Hb.
    apply forallb_filter_id. apply forallb_forall.
    intros [k v] Hin. cbn [snd]. apply in_combine_r in Hin.
    apply in_map_iff in Hin. destruct Hin as [[k0 v0] [E Hin]].
    cbn [snd] in E. subst v0.
    destruct (Hall k0 v Hin) as [_ [Hs [Hv _]]]. rewrite Hs.
    apply nonempty_true; assumption.
  - rewrite Hfst. exact Hnd.
  - rewrite Hfst. intros n Hn. rewrite Forall_forall in Hnames.
    split; [apply Hnames; assumption | intros []].
Qed.

Lemma dict_get_reread (f g : str -> str) (ks : list str) (k : str) :
  NoDup (map f ks) -> In k ks ->
  dict_get (f k) (map (fun k => (f k, g k)) ks) [] = g k.
Proof.
  induction ks as [|a ks IH]; [intros _ []|].
  cbn [map dict_get]. intros Hnd Hin.
  inversion Hnd as [|? ? Ha Hnd']; subst.
  destruct (str_eqb (f a) (f k)) eqn:E.
  - apply str_eqb_eq in E. destruct Hin as [->|Hin]; [reflexivity|].
    exfalso. apply Ha. rewrite E. apply in_map; assumption.
  - destruct Hin as [->|Hin]; [rewrite str_eqb_refl in E; discriminate|].
    apply IH; assumption.
Qed.

(** *** Names that come through the round trip *)

Lemma title_from_lower (b : bool) (s : str) :
  lower (title_from b s) = lower s.
Proof.
  revert b. induction s as [|c s IH]; intros b; [reflexivity|].
  cbn [title_from lower map]. fold (lower (title_from (is_cased c) s)).
  fold (lower s). rewrite IH. f_equal.
  destruct b; [apply lower_char_idem|].
  unfold upper_char, lower_char, is_lower_ascii, is_upper_ascii.
  destruct ((97 <=? c) && (c <=? 122))%N eqn:E1.
  - apply andb_true_iff in E1. destruct E1 as [A B].
    apply N.leb_le in A, B.
    assert (E2 : ((65 <=? c - 32) && (c - 32 <=? 90))%N = true).
    { apply andb_true_iff. split; apply N.leb_le; lia. }
    assert (E3 : ((65 <=? c) && (c <=? 90))%N = false).
    { apply andb_false_iff. right. apply N.leb_gt. lia. }
    rewrite E2, E3. lia.
  - reflexivity.
Qed.

Lemma replace_absent (a b : char) (s : str) : ~ In a s -> replace a b s = s.
Proof.
  intros H. unfold replace. rewrite <- (map_id s) at 2.
  apply map_ext_in. intros c Hc.
  destruct (N.eqb_spec c a) as [->|_]; [contradiction | reflexivity].
Qed.

Lemma lower_no_nl (s : str) : no_nl (lower s) -> no_nl s.
Proof.
  unfold no_nl, lower. intros H Hin. apply H.
  apply in_map_iff. exists NL. split; [reflexivity | assumption].
Qed.

(** A free-form title as the parser stores it: lower-case, trimmed, on
    one line, without "_" and not beginning with "#"; none of the specific
    patterns matches at its beginning, and the normalization table leaves
    it as it is. *)
Lemma free_title_read_back (k : str) :
  lower k = k -> strip k = k -> k <> [] ->
  ~ In 95%N k -> no_nl k -> head_fails (N.eqb 35%N) k ->
  first_consume SPECIFIC_BODIES k = None ->
  dict_get k mappings k = k ->
  _extract_section_name (heading k) = Some k /\ no_nl (heading k).
Proof.
  intros Hlow Hstrip Hne Hus Hnl Hhash Hnone Hmap.
  assert (Hheading : heading k = py "## " ++ title k).
  { unfold heading.
    destruct (str_eqb k (py "contact")) eqn:E1.
    { apply str_eqb_eq in E1. subst k. vm_compute in Hnone. discriminate. }
    destruct (str_eqb k (py "summary")) eqn:E2.
    { apply str_eqb_eq in E2. subst k. vm_compute in Hnone. discriminate. }
    destruct (str_eqb k (py "experience")) eqn:E3.
    { apply str_eqb_eq in E3. subst k. vm_compute in Hnone. discriminate. }
    destruct (str_eqb k (py "skills")) eqn:E4.
    { apply str_eqb_eq in E4. subst k. vm_compute in Hnone. discriminate. }
    rewrite replace_absent by assumption. reflexivity. }
  assert (Hlower : lower (heading k) = py "## " ++ k).
  { rewrite Hheading. unfold lower at 1. rewrite map_app.
    fold (lower (title k)). unfold title. rewrite title_from_lower, Hlow.
    reflexivity. }
  split.
  - rewrite <- extract_lower, Hlower.
    destruct (strip_shape k) as [x [m [r [y [H1 [H2 [Hx Hy]]]]]]];
      [rewrite Hstrip; assumption|].
    rewrite Hstrip in H1, H2.
    assert (Hsp : head_fails isspace k) by (rewrite H1; exact Hx).
    assert (Hh' : head_fails (cmatch HASH) k).
    { destruct k as [|c k']; [exact I|]. cbn [head_fails] in *.
      destruct (cmatch HASH c) eqn:E; [|reflexivity].
      apply cmatch_hash in E. subst c. discriminate. }
    assert (Hs : strip (py "## " ++ k) = (35%N :: [35%N]) ++ [32%N] ++ k).
    { change (py "## " ++ k) with (35%N :: (35%N :: 32%N :: k)).
      apply (strip_fixed 35%N (35%N :: 32%N :: k) (35%N :: 35%N :: 32%N :: r)
               y); [rewrite H2 at 1; reflexivity | reflexivity | exact Hy]. }
    unfold _extract_section_name. rewrite Hs.
    rewrite section_patterns_bodies, map_app.
    rewrite first_match_bodies;
      [| exact specific_bodies_letters | reflexivity | reflexivity
       | assumption | assumption].
    rewrite Hnone. cbn [map first_match].
    rewrite catch_all_exact;
      [| reflexivity | reflexivity | assumption | assumption | assumption
       | assumption].
    f_equal. unfold _normalize_section_name.
    rewrite Hstrip, Hlow, Hstrip. exact Hmap.
  - apply lower_no_nl. rewrite Hlower. unfold no_nl.
    intros [H|[H|[H|H]]]; try discriminate. contradiction.
Qed.

(** Sections whose headings the parser reads back under their own names
    make a document that reads back: so it is when every name is a
    canonical name or a free-form title as above. *)
Lemma own_names_read_back (sections : dict) (template : str) :
  wf_dict sections ->
  (forall k, In k (keys sections) ->
             k <> py "header"
             /\ _extract_section_name (heading k) = Some k
             /\ no_nl (heading k)) ->
  reads_back sections template = true.
Proof.
  intros Hwf Hall.
  set (order := _get_section_order sections template).
  assert (Hk : forall k, In k order ->
             stable_name k = true /\ reread k = k).
  { intros k Hk. apply get_section_order_keys in Hk.
    destruct (Hall k Hk) as [H1 [H2 H3]].
    unfold stable_name, reread. rewrite H2.
    apply str_eqb_neq in H1. rewrite H1.
    apply contains_false in H3. rewrite H3.
    rewrite str_eqb_refl. unfold same_rule.
    rewrite !eqb_reflx. split; reflexivity. }
  assert (Hnames : map reread order = order).
  { rewrite <- (map_id order) at 2. apply map_ext_in.
    intros k Hin. apply Hk; assumption. }
  unfold reads_back. fold order. rewrite Hnames.
  apply andb_true_iff. split; [apply andb_true_iff; split|].
  - apply forallb_forall. intros k Hin. apply Hk; assumption.
  - assert (Hnd : NoDup order)
      by (apply get_section_order_nodup; assumption).
    clear - Hnd. induction Hnd as [|x l Hx _ IH]; [reflexivity|].
    cbn [distinct]. rewrite IH, andb_true_r. apply negb_true_iff.
    destruct (mem x l) eqn:E; [|reflexivity].
    apply mem_In in E. contradiction.
  - assert (E : _get_section_order (map (fun name => (name, [])) order)
                  template = order).
    { rewrite (order_idem sections (map (fun name => (name, [])) order)
                 template Hwf);
        unfold keys; rewrite map_map; cbn [fst]; apply map_id. }
    rewrite E. clear. induction order as [|x l IH]; [reflexivity|].
    cbn [strs_eqb]. rewrite str_eqb_refl, IH. reflexivity.
Qed.

(** Every name a canonical name or a free-form title: the document reads
    back. *)
Lemma plain_names_read_back (sections : dict) (template : str) :
  wf_dict sections ->
  (forall k, In k (keys sections) ->
             In k CANONICAL_NAMES
             \/ (k <> py "header"
                 /\ lower k = k /\ strip k = k /\ k <> []
                 /\ ~ In 95%N k /\ no_nl k /\ head_fails (N.eqb 35%N) k
                 /\ first_consume SPECIFIC_BODIES k = None
                 /\ dict_get k mappings k = k)) ->
  reads_back sections template = true.
Proof.
  intros Hwf Hall. apply own_names_read_back; [assumption|].
  intros k Hk. destruct (Hall k Hk) as [Hc|[H0 H]].
  - split; [|apply heading_read_back; assumption].
    apply str_eqb_neq. apply canonical_not_header; assumption.
  - split; [exact H0|].
    destruct H as [H1 [H2 [H3 [H4 [H5 [H6 [H7 H8]]]]]]].
    apply free_title_read_back; assumption.
Qed.

(** A free-form title comes through the round trip, also one with "_"
    that the formatter shows as a space; the title "_skills", which is
    shown as " Skills" and read back as the skills section, does not, and
    its document does not read back. *)
Example round_trip_free_form_title :
  format_resume (_parse_markdown_content (py "## Hobbies\nChess"))
    (py "default")
  = Return (py "## Hobbies\n\nChess")
  /\ format_resume (_parse_markdown_content (py "## Hobbies\n\nChess"))
       (py "default")
     = Return (py "## Hobbies\n\nChess")
  /\ reads_back (_parse_markdown_content (py "## Hobbies\nChess"))
       (py "default") = true.
Proof. repeat split; vm_compute; reflexivity. Qed.

Example round_trip_underscore_title :
  _parse_markdown_content (py "## my_pets\nA cat")
  = [(py "my_pets", py "A cat")]
  /\ format_resume (_parse_markdown_content (py "## my_pets\nA cat"))
       (py "default")
     = Return (py "## My Pets\n\nA cat")
  /\ _parse_markdown_content (py "## My Pets\n\nA cat")
     = [(py "my pets", py "A cat")]
  /\ format_resume (_parse_markdown_content (py "## My Pets\n\nA cat"))
       (py "default")
     = Return (py "## My Pets\n\nA cat")
  /\ reads_back (_parse_markdown_content (py "## my_pets\nA cat"))
       (py "default") = true.
Proof. repeat split; vm_compute; reflexivity. Qed.

Example respelled_title_does_not_read_back :
  reads_back (_parse_markdown_content (py "## _Skills\na, b")) (py "default")
  = false
  /\ reads_back (_parse_markdown_content (py "Jane Doe\n## Skills\na, b"))
       (py "default")
     = false.
Proof. split; vm_compute; reflexivity. Qed.

(** *** C1 *)

(** C1 as stated fails: the text "Jane Doe" is formatted as "# Jane Doe";
    that line is a header for the parser, with an empty body, so parsing
    the formatted output gives no section and formatting again gives the
    placeholder document. *)
Lemma C1_implicit_header_counterexample :
  format_resume (_parse_markdown_content (py "Jane Doe")) (py "default")
  = Return (py "# Jane Doe")
  /\ format_resume (_parse_markdown_content (py "# Jane Doe")) (py "default")
     = Return (py "# Resume\n\n*No content available*")
  /\ py "# Resume\n\n*No content available*" <> py "# Jane Doe".
Proof.
  split; [reflexivity|]. split; [reflexivity|]. vm_compute. discriminate.
Qed.

(** C1, amended.  Round-trip stability holds for every input text whose
    parse is not empty and makes a document that reads back - every
    section has a name other than "header" whose heading the parser reads
    as a name with the same heading and the same layout rule, and the
    names read are pairwise distinct and in the formatter's order, as is
    the case for the canonical names and for free-form titles such as
    "hobbies" - and whose skills body, when it is a one-line comma list,
    names at least one skill: parsing the formatted output and formatting
    again gives the same document. *)
Theorem C1_round_trip_stable (text template : str) :
  is_ascii text ->
  _parse_markdown_content text <> [] ->
  reads_back (_parse_markdown_content text) template = true ->
  (forall v, In (py "skills", v) (_parse_markdown_content text) ->
             skills_ok v) ->
  exists doc,
    format_resume (_parse_markdown_content text) template = Return doc
    /\ format_resume (_parse_markdown_content doc) template = Return doc.
Proof.
  intros _ Hne Hrb Hsk.
  destruct (parse_result text) as [Hwf Hgood].
  remember (_parse_markdown_content text) as sections eqn:Esections.
  clear Esections text.
  destruct (reads_back_facts sections template Hrb) as [Hst [Hnd Hord]].
  set (order := _get_section_order sections template) in *.
  set (body := fun k => rendered_body k (dict_get k sections [])).
  set (entries := rendered_entries sections template).
  assert (Hentries : entries = map (fun k => (k, body k)) order)
    by reflexivity.
  assert (Hkeys : keys entries = order) by apply rendered_entries_keys.
  assert (Hsnd : map snd entries = map body order).
  { rewrite Hentries, map_map. reflexivity. }
  rewrite Forall_forall in Hst.
  assert (Hin : forall k, In k order -> In (k, dict_get k sections []) sections).
  { intros k Hk. apply dict_get_in.
    exact (get_section_order_keys sections template k Hk). }
  assert (Hbody : forall k, In k order ->
             good_body (body k) /\ rendered_body k (body k) = body k).
  { intros k Hk. apply rendered_body_good.
    - eapply Hgood. apply Hin; assumption.
    - intros ->. apply Hsk. apply Hin; assumption. }
  assert (Hne' : order <> []).
  { destruct sections as [|[k0 v0] rest]; [congruence|].
    assert (H0 : In k0 (_get_section_order ((k0, v0) :: rest) template))
      by (apply get_section_order_in; [assumption | left; reflexivity]).
    fold order in H0. intros E. rewrite E in H0. exact H0. }
  exists (join (py "\n\n") (map render entries)). split.
  { apply format_rendered; [assumption|].
    intros k v Hkv.
    assert (Hk : In k order).
    { apply get_section_order_in; [assumption|].
      unfold keys. apply in_map_iff. exists (k, v). auto. }
    split.
    - apply (stable_name_facts k (Hst k Hk)).
    - apply good_body_tidy. eapply Hgood; eassumption. }
  rewrite parse_rendered.
  2: { rewrite Hentries. destruct order; [congruence | discriminate]. }
  2: { rewrite Hkeys. exact Hnd. }
  2: { intros k v Hkv. rewrite Hentries in Hkv. apply in_map_iff in Hkv.
       destruct Hkv as [k' [E Hk']]. inversion E; subst.
       split; [apply Hst; assumption | apply Hbody; assumption]. }
  rewrite Hkeys, Hsnd.
  set (read := combine (map reread order) (map body order)).
  assert (Hread : read = map (fun k => (reread k, body k)) order).
  { unfold read. clear. induction order as [|k ks IH]; [reflexivity|].
    cbn [map combine]. rewrite IH. reflexivity. }
  assert (Hrk : keys read = map reread order).
  { rewrite Hread. unfold keys. rewrite map_map. reflexivity. }
  assert (Hro : _get_section_order read template = map reread order).
  { rewrite <- Hord. apply get_section_order_of_keys.
    rewrite Hrk. unfold keys. rewrite map_map. cbn [fst]. symmetry.
    apply map_id. }
  rewrite format_resume_spec.
  2: { rewrite Hread. destruct order; [congruence | discriminate]. }
  rewrite Hro, map_map. do 2 f_equal.
  assert (Hblock : forall k, In k order ->
             block read template (reread k) = render (k, body k)).
  { intros k Hk. unfold block. rewrite Hread.
    rewrite (dict_get_reread reread body order k Hnd Hk).
    destruct (stable_name_facts k (Hst k Hk)) as [_ [_ [_ [H4 [H5 H6]]]]].
    destruct (Hbody k Hk) as [Hg Hidem].
    rewrite format_section_render;
      [| exact H4 | apply good_body_tidy; exact Hg].
    unfold render. cbn [fst snd]. rewrite H5, H6, Hidem. reflexivity. }
  rewrite forallb_filter_id.
  - rewrite Hentries, map_map. apply map_ext_in. intros k Hk. cbn beta.
    apply Hblock; assumption.
  - apply forallb_forall. intros b Hb. apply in_map_iff in Hb.
    destruct Hb as [k [<- Hk]]. rewrite Hblock by assumption.
    apply render_nonempty.
Qed.

Lemma C1_round_trip_stable_witness :
  is_ascii hobbies_document
  /\ _parse_markdown_content hobbies_document
     = [ (py "hobbies", py "Chess");
         (py "my_pets", py "A cat");
         (py "experience", py "Engineer at ACME");
         (py "skills", py "Python, Go") ]
  /\ reads_back (_parse_markdown_content hobbies_document) (py "default")
     = true
  /\ format_resume (_parse_markdown_content hobbies_document) (py "default")
     = Return (py "## Experience\n\n- Engineer at ACME\n\n## Skills\n\n- Python"
               ++ BULLET_SEP
               ++ py "Go\n\n## Hobbies\n\nChess\n\n## My Pets\n\nA cat")
  /\ exists doc,
       format_resume (_parse_markdown_content hobbies_document) (py "default")
       = Return doc
       /\ format_resume (_parse_markdown_content doc) (py "default")
          = Return doc.
Proof.
  assert (Ha : is_ascii hobbies_document)
    by (apply is_ascii_check; reflexivity).
  assert (Hp : _parse_markdown_content hobbies_document
               = [ (py "hobbies", py "Chess");
                   (py "my_pets", py "A cat");
                   (py "experience", py "Engineer at ACME");
                   (py "skills", py "Python, Go") ])
    by (vm_compute; reflexivity).
  assert (Hne : _parse_markdown_content hobbies_document <> [])
    by (rewrite Hp; discriminate).
  assert (Hrb : reads_back (_parse_markdown_content hobbies_document)
                  (py "default") = true)
    by (vm_compute; reflexivity).
  assert (Hs : forall v,
             In (py "skills", v) (_parse_markdown_content hobbies_document) ->
             skills_ok v).
  { rewrite Hp. intros v [H|[H|[H|[H|[]]]]].
    1-3: apply (f_equal fst) in H; vm_compute in H; discriminate.
    apply (f_equal snd) in H. cbn [snd] in H. subst v.
    intros _. vm_compute. discriminate. }
  split; [exact Ha|]. split; [exact Hp|]. split; [exact Hrb|].
  split; [vm_compute; reflexivity|].
  exact (C1_round_trip_stable hobbies_document (py "default") Ha Hne Hrb Hs).
Defined.
